(** * The CNTK v2 learners (Source/CNTKv2LibraryDll/Learner.cpp)

    A shallow embedding of the parameter-update engine: the schedule
    replacement of [Learner::ResetLearningRate], the shared minibatch
    orchestration of [LearnerBase] (clipping, pre- and post-processing,
    [Update], checkpoint creation and restore), the delegated
    [LearnerUniversal] and the constructors of the learner classes.

    C++ [double] is Rocq's primitive binary64 [float]; [size_t] is [N] with
    the wrap-around at 2^64 written out; [std::unordered_map] and the
    [Dictionary] are stdpp [gmap]s; exceptions and in-place mutation are a
    state-and-exception monad over the objects a learner can reach. *)

From Stdlib Require Import Floats.
From stdpp Require Import gmap strings list fin_maps sorting.

Local Open Scope N_scope.

(** ** Machine numbers *)

Module size_t.
Definition modulus : N := 2 ^ 64.
Definition max : N := modulus - 1.
Definition wrap (n : N) : N := n mod modulus.
(** [a + b] and [a++] on [size_t] operands. *)
Definition add (a b : N) : N := wrap (a + b).
Definition incr (a : N) : N := add a 1.
(** The implicit conversion [size_t -> double] (round to nearest even). *)
Definition to_double (n : N) : float :=
  SF2Prim (binary_normalize prec emax (Z.of_N n) 0 false).
End size_t.

(** [DataType] of a tensor; the learner only allocates the last two. *)
Inductive DataType := Unknown | Float | Double.

Global Instance DataType_eq_dec : EqDecision DataType.
Proof. solve_decision. Defined.

Module ElementType.
(** [float(x)]: the binary64 value [x] rounded to binary32. *)
Definition to_single (x : float) : float :=
  match Prim2SF x with
  | S754_finite s m e =>
      SF2Prim (binary_normalize 24 128 (if s then Z.neg m else Z.pos m) e s)
  | _ => x
  end.
(** [ElementType(x)] for [x] a [double]. *)
Definition cast (et : DataType) (x : float) : float :=
  match et with Float => to_single x | _ => x end.
Definition mul (et : DataType) (a b : float) : float := cast et (a * b)%float.
Definition add (et : DataType) (a b : float) : float := cast et (a + b)%float.
Definition sqrt (et : DataType) (a : float) : float := cast et (PrimFloat.sqrt a).
End ElementType.

(** ** Tensors, variables, schedules *)

Definition NDShape := list N.

Record NDArrayView := mkNDArrayView {
  GetDataType : DataType;
  Shape : NDShape;
  nd_data : list float;
}.

(** [NDArrayView(0.0, shape, device)]. *)
Definition NDArrayView_zeros (dt : DataType) (shape : NDShape) : NDArrayView :=
  mkNDArrayView dt shape (replicate (N.to_nat (foldr N.mul 1 shape)) 0%float).

(** Modelled from the spec: [view->SetValue(x)] belongs to NDArrayView; it
    sets every element to [x] ("zeroes all auxiliary-state tensors"). *)
Definition SetValue (x : float) (v : NDArrayView) : NDArrayView :=
  mkNDArrayView (GetDataType v) (Shape v) (const x <$> nd_data v).

(** [Matrix<ElementType>]: the elements of a tensor, column-major. *)
Abbreviation Matrix := (list float).

(** A [Variable] of the computation graph; a [Parameter] is one of them.
    Two handles are the same variable exactly when their uids agree, so
    the containers keyed by a [Parameter] are keyed by its uid here. *)
Record Var := mkVar {
  Uid : string;
  var_dtype : DataType;
  var_shape : NDShape;
}.

Definition same_var (a b : Var) : bool := bool_decide (Uid a = Uid b).

(** [Rate(value, referenceMBSize)]. *)
Record Rate := mkRate { Value : float; ReferenceMBSize : N }.

Global Instance Rate_inhabited : Inhabited Rate := populate (mkRate 0%float 0).
Global Instance float_inhabited : Inhabited float := populate 0%float.

(** [TrainingParameterSchedule<T>]: [m_schedule] is a [std::map<size_t, T>]. *)
Record TrainingParameterSchedule (T : Type) := mkSchedule {
  m_schedule : gmap N T;
  m_epochSize : N;
}.
Arguments mkSchedule {T} _ _.
Arguments m_schedule {T} _.
Arguments m_epochSize {T} _.

Definition LearningRateSchedule := TrainingParameterSchedule Rate.
Definition MomentumSchedule := TrainingParameterSchedule Rate.

Definition key_le (a b : N * Rate) : Prop := a.1 ≤ b.1.
Global Instance key_le_dec : RelDecision key_le.
Proof. intros a b. unfold key_le. apply _. Defined.

(** The entries of a [std::map] in iteration order (ascending keys). *)
Definition entries (m : gmap N Rate) : list (N * Rate) :=
  merge_sort key_le (map_to_list m).

(** Modelled from the spec: the schedule lookup ([operator[]] of
    [TrainingParameterSchedule], declared outside Learner.cpp).  "Lookup
    returns the value associated with the greatest key <= current
    elapsed-unit count"; [None] is the "no value yet" condition. *)
Definition greatest_key_le {T} (m : gmap N T) (t : N) : option N :=
  foldr (λ k acc, if decide (k ≤ t)
                  then Some (from_option (N.max k) k acc) else acc)
        None (map_to_list m).*1.

Definition valueAt {T} (s : TrainingParameterSchedule T) (t : N) : option T :=
  k ← greatest_key_le (m_schedule s) t; m_schedule s !! k.

Record AdditionalLearningOptions := mkOptions {
  l1RegularizationWeight : float;
  l2RegularizationWeight : float;
  gaussianNoiseInjectionStdDev : TrainingParameterSchedule float;
  gradientClippingThresholdPerSample : float;
  gradientClippingWithTruncation : bool;
}.

(** The expression graph a universal learner evaluates: only its declared
    inputs and outputs are visible to the learner. *)
Record Function := mkFunction {
  Inputs : list Var;
  Outputs : list Var;
  fn_id : N;
}.

(** ** The learner object *)

(** The dynamic class of a learner with the constants its constructor
    fixes. *)
Inductive LearnerKind :=
| LearnerSGD
| LearnerMomentumSGD (m_momentumSchedule : MomentumSchedule) (m_unitGain : bool)
| LearnerNesterov (m_momentumSchedule : MomentumSchedule) (m_unitGain : bool)
| LearnerAdaGrad (m_needAveMultiplier : bool)
| LearnerAdaDelta (m_rho m_epsilon : float)
| LearnerFSAdaGrad (m_momentumSchedule : MomentumSchedule) (m_unitGain : bool)
                   (m_varianceMomentumSchedule : MomentumSchedule)
| LearnerAdam (m_momentumSchedule : MomentumSchedule) (m_unitGain : bool)
              (m_varianceMomentumSchedule : MomentumSchedule)
              (m_epsilon : float) (m_adamax : bool)
| LearnerRMSProp (m_gamma m_inc m_dec m_max m_min : float)
                 (m_needAveMultiplier : bool)
| LearnerUniversal.

Record Learner := mkLearner {
  kind : LearnerKind;
  m_parameters : list Var;
  m_learningRateSchedule : LearningRateSchedule;
  m_sampleCount : N;
  m_minibatchCount : N;
  m_sweepCount : N;
  m_additionalOptions : AdditionalLearningOptions;
  m_smoothedGradientValues : gmap string NDArrayView;
  m_noiseInjectionSeed : N;
  m_trainingParametersMap : gmap string float;
  m_smoothedCount : float;
  m_targetAdagradAvDenom_x_sqrtAdagradSqrFrames : float;
  m_parameter_gradient_map : gmap string Var;
  m_update_func : option Function;
}.

Definition Parameters (l : Learner) : list Var := m_parameters l.

Definition set_counters (s mb sw : N) (l : Learner) : Learner :=
  mkLearner (kind l) (m_parameters l) (m_learningRateSchedule l) s mb sw
    (m_additionalOptions l) (m_smoothedGradientValues l)
    (m_noiseInjectionSeed l) (m_trainingParametersMap l) (m_smoothedCount l)
    (m_targetAdagradAvDenom_x_sqrtAdagradSqrFrames l)
    (m_parameter_gradient_map l) (m_update_func l).

Definition set_learningRateSchedule (s : LearningRateSchedule) (l : Learner) : Learner :=
  mkLearner (kind l) (m_parameters l) s (m_sampleCount l) (m_minibatchCount l)
    (m_sweepCount l) (m_additionalOptions l) (m_smoothedGradientValues l)
    (m_noiseInjectionSeed l) (m_trainingParametersMap l) (m_smoothedCount l)
    (m_targetAdagradAvDenom_x_sqrtAdagradSqrFrames l)
    (m_parameter_gradient_map l) (m_update_func l).

Definition set_smoothedGradientValues (g : gmap string NDArrayView) (l : Learner) : Learner :=
  mkLearner (kind l) (m_parameters l) (m_learningRateSchedule l)
    (m_sampleCount l) (m_minibatchCount l) (m_sweepCount l)
    (m_additionalOptions l) g
    (m_noiseInjectionSeed l) (m_trainingParametersMap l) (m_smoothedCount l)
    (m_targetAdagradAvDenom_x_sqrtAdagradSqrFrames l)
    (m_parameter_gradient_map l) (m_update_func l).

Definition set_noiseInjectionSeed (seed : N) (l : Learner) : Learner :=
  mkLearner (kind l) (m_parameters l) (m_learningRateSchedule l)
    (m_sampleCount l) (m_minibatchCount l) (m_sweepCount l)
    (m_additionalOptions l) (m_smoothedGradientValues l)
    seed (m_trainingParametersMap l) (m_smoothedCount l)
    (m_targetAdagradAvDenom_x_sqrtAdagradSqrFrames l)
    (m_parameter_gradient_map l) (m_update_func l).

Definition set_trainingParametersMap (m : gmap string float) (l : Learner) : Learner :=
  mkLearner (kind l) (m_parameters l) (m_learningRateSchedule l)
    (m_sampleCount l) (m_minibatchCount l) (m_sweepCount l)
    (m_additionalOptions l) (m_smoothedGradientValues l)
    (m_noiseInjectionSeed l) m (m_smoothedCount l)
    (m_targetAdagradAvDenom_x_sqrtAdagradSqrFrames l)
    (m_parameter_gradient_map l) (m_update_func l).

Definition set_smoothedCount (c : float) (l : Learner) : Learner :=
  mkLearner (kind l) (m_parameters l) (m_learningRateSchedule l)
    (m_sampleCount l) (m_minibatchCount l) (m_sweepCount l)
    (m_additionalOptions l) (m_smoothedGradientValues l)
    (m_noiseInjectionSeed l) (m_trainingParametersMap l) c
    (m_targetAdagradAvDenom_x_sqrtAdagradSqrFrames l)
    (m_parameter_gradient_map l) (m_update_func l).

Definition set_targetAdagradAvDenom (d : float) (l : Learner) : Learner :=
  mkLearner (kind l) (m_parameters l) (m_learningRateSchedule l)
    (m_sampleCount l) (m_minibatchCount l) (m_sweepCount l)
    (m_additionalOptions l) (m_smoothedGradientValues l)
    (m_noiseInjectionSeed l) (m_trainingParametersMap l) (m_smoothedCount l) d
    (m_parameter_gradient_map l) (m_update_func l).

Definition set_universal (pg : gmap string Var) (f : option Function) (l : Learner) : Learner :=
  mkLearner (kind l) (m_parameters l) (m_learningRateSchedule l)
    (m_sampleCount l) (m_minibatchCount l) (m_sweepCount l)
    (m_additionalOptions l) (m_smoothedGradientValues l)
    (m_noiseInjectionSeed l) (m_trainingParametersMap l) (m_smoothedCount l)
    (m_targetAdagradAvDenom_x_sqrtAdagradSqrFrames l) pg f.

(** ** Dictionaries and exceptions *)

(** A [DictionaryValue] holds a copy of what was stored in it (a tensor is
    serialized by value). *)
#[warnings="-register-all"]
Inductive DictionaryValue :=
| DV_SizeT (n : N)
| DV_Double (x : float)
| DV_String (s : string)
| DV_NDArrayView (v : NDArrayView)
| DV_Vector (vs : list DictionaryValue)
| DV_Dictionary (d : gmap string DictionaryValue).

Abbreviation Dictionary := (gmap string DictionaryValue).

Inductive Exception :=
| InvalidArgument (what : string)
| LogicError (what : string)
| out_of_range (what : string)
| NotImplemented.

Abbreviation Result A := (Exception + A)%type.

(** [DictionaryValue::Value<T>()]; reading at another type than the stored
    one raises. *)
Definition wrong_type {A} : Result A :=
  inl (InvalidArgument "Reading a DictionaryValue as the wrong type").

Definition Value_size_t (v : DictionaryValue) : Result N :=
  match v with DV_SizeT n => inr n | _ => wrong_type end.
Definition Value_double (v : DictionaryValue) : Result float :=
  match v with DV_Double x => inr x | _ => wrong_type end.
Definition Value_wstring (v : DictionaryValue) : Result string :=
  match v with DV_String s => inr s | _ => wrong_type end.
Definition Value_NDArrayView (v : DictionaryValue) : Result NDArrayView :=
  match v with DV_NDArrayView a => inr a | _ => wrong_type end.
Definition Value_vector (v : DictionaryValue) : Result (list DictionaryValue) :=
  match v with DV_Vector vs => inr vs | _ => wrong_type end.
Definition Value_Dictionary (v : DictionaryValue) : Result Dictionary :=
  match v with DV_Dictionary d => inr d | _ => wrong_type end.

(** [dict[key]] on a [const Dictionary] and [map.at(key)]. *)
Definition at_key {V} (m : gmap string V) (key : string) : Result V :=
  match m !! key with
  | Some v => inr v
  | None => inl (out_of_range key)
  end.

Definition Contains (d : Dictionary) (key : string) : bool :=
  bool_decide (is_Some (d !! key)).

(** ** Member functions as state-and-exception computations *)

(** A member function over the state [S]: it returns or throws, and in both
    cases leaves the state as far as it got. *)
Definition StateExn (S A : Type) : Type := S → Result A * S.

Global Instance Result_ret : MRet (sum Exception) := λ A a, inr a.
Global Instance Result_bind : MBind (sum Exception) := λ A B f r,
  match r with inr a => f a | inl e => inl e end.

Global Instance StateExn_ret {S} : MRet (StateExn S) := λ A a s, (inr a, s).
Global Instance StateExn_bind {S} : MBind (StateExn S) := λ A B f m s,
  match m s with
  | (inr a, s') => f a s'
  | (inl e, s') => (inl e, s')
  end.

Definition throw {S A} (e : Exception) : StateExn S A := λ s, (inl e, s).
Definition get {S} : StateExn S S := λ s, (inr s, s).
Definition modify {S} (f : S → S) : StateExn S unit := λ s, (inr tt, f s).
Definition lift {S A} (r : Result A) : StateExn S A := λ s, (r, s).

Fixpoint for_each {S A} (xs : list A) (body : A → StateExn S unit) : StateExn S unit :=
  match xs with
  | [] => mret tt
  | x :: xs' => body x ;; for_each xs' body
  end.

(** ** The state an [Update] call can read and write *)

Record World := World_with {
  learner : Learner;
  (** [Variable::Value()] of the parameters and gradient placeholders,
      owned by the model, by uid. *)
  values : gmap string NDArrayView;
  (** The tensors of the [gradientValues] map the caller passes to
      [Update] by reference, by parameter uid. *)
  gradientValues : gmap string NDArrayView;
  (** What the progress writers received, latest first. *)
  progress : list (string * N * float);
  (** Lines printed to stderr, latest first. *)
  stderr : list string;
  (** The uids of the parameters whose [RecordValueUpdate()] was called,
      latest first. *)
  valueUpdates : list string;
}.

(** A world in which no value update is recorded yet. *)
Definition mkWorld (learner : Learner) (values gradientValues : gmap string NDArrayView)
    (progress : list (string * N * float)) (stderr : list string) : World :=
  World_with learner values gradientValues progress stderr [].

Definition with_learner (f : Learner → Learner) (w : World) : World :=
  World_with (f (learner w)) (values w) (gradientValues w) (progress w) (stderr w)
             (valueUpdates w).
Definition with_values (f : gmap string NDArrayView → gmap string NDArrayView)
    (w : World) : World :=
  World_with (learner w) (f (values w)) (gradientValues w) (progress w) (stderr w)
             (valueUpdates w).
Definition with_gradientValues (f : gmap string NDArrayView → gmap string NDArrayView)
    (w : World) : World :=
  World_with (learner w) (values w) (f (gradientValues w)) (progress w) (stderr w)
             (valueUpdates w).
Definition with_progress (f : list (string * N * float) → list (string * N * float))
    (w : World) : World :=
  World_with (learner w) (values w) (gradientValues w) (f (progress w)) (stderr w)
             (valueUpdates w).
Definition with_stderr (f : list string → list string) (w : World) : World :=
  World_with (learner w) (values w) (gradientValues w) (progress w) (f (stderr w))
             (valueUpdates w).
Definition with_valueUpdates (f : list string → list string) (w : World) : World :=
  World_with (learner w) (values w) (gradientValues w) (progress w) (stderr w)
             (f (valueUpdates w)).

Definition this : StateExn World Learner := λ w, (inr (learner w), w).

(** ** What Learner.cpp uses and does not define *)

Class Externals := {
  (** [LearnerBase::CurrentVersion()], the checkpoint format version. *)
  CurrentVersion : N;
  (** [TrainingParameterSchedule<T>::IsSweepBased()]. *)
  IsSweepBased : ∀ {T}, TrainingParameterSchedule T → bool;
  (** What [Learner::GetCurrentTrainingParameterValue(schedule)] reads off
      [schedule] at the elapsed [m_sampleCount] and [m_sweepCount]. *)
  schedule_now : ∀ {T} `{Inhabited T}, TrainingParameterSchedule T → N → N → T;
  (** What [Learner::LearningRatePerSample(minibatchSize)] makes of the
      learning-rate schedule at the elapsed [m_sampleCount] and
      [m_sweepCount]. *)
  learning_rate_now : LearningRateSchedule → N → N → N → float;
  (** What [VarianceMomentumValueForMB(minibatchSize)] makes of the
      variance-momentum schedule at the elapsed counts. *)
  variance_momentum_now : MomentumSchedule → N → N → N → float;
  (** [TrainingParameterSchedule<Rate>::Serialize()] and [Deserialize]. *)
  Serialize : LearningRateSchedule → Dictionary;
  Deserialize : Dictionary → Result LearningRateSchedule;
  (** The fused update kernel of each algorithm ([SGDUpdate],
      [MomentumSGDUpdate], [Adagrad], [AdamUpdate], ...): from the
      parameter, gradient and smoothed-gradient matrices to their new
      contents. *)
  TypedKernel : DataType → Learner → N → Matrix → Matrix → Matrix →
                Matrix * Matrix * Matrix;
  (** [Matrix<ElementType>::FrobeniusNorm()]. *)
  FrobeniusNorm : DataType → Matrix → float;
  (** [Matrix<ElementType>::RandomGaussian(rows, cols, device, mean, sigma, seed)]. *)
  RandomGaussian : DataType → nat → float → N → Matrix;
  (** [Matrix<ElementType>::InplaceSoftThreshold(threshold)]. *)
  InplaceSoftThreshold : DataType → float → Matrix → Matrix;
  (** [Function::Forward] of the update expression: evaluating the graph
      rewrites variable values. *)
  Forward : Function → gmap string NDArrayView → Result (gmap string NDArrayView);
  (** [AdditionalLearningOptions()]. *)
  DefaultOptions : AdditionalLearningOptions;
  (** [LearningRateSchedule(rate)], the schedule that is [rate] throughout. *)
  ConstantSchedule : Rate → LearningRateSchedule;
}.

(** Modelled from the spec: the checkpoint keys are constants of the
    serialization header, which Learner.cpp includes; they are named as the
    persisted fields are. *)
Definition versionKey : string := "version".
Definition typeKey : string := "type".
Definition sampleCountKey : string := "sampleCount".
Definition minibatchCountKey : string := "minibatchCount".
Definition learningRateScheduleKey : string := "learningRateSchedule".
Definition noiseInjectionSeedKey : string := "noiseSeed".
Definition smoothedGradientsKey : string := "smoothedGradients".
Definition smoothedCountKey : string := "smoothedCount".

Definition s_learnerTypeValue : string := "Learner".
Definition s_targetAdagradAvDenom : float := 1%float.

(** Modelled from the spec: [ValidateDictionary<T>] is a template of the
    serialization utilities, outside Learner.cpp.  Restore "validates
    required keys and type tag are present; reads version": the version is
    read first, then every required key must be present, then the stored
    type tag must be the expected one; a violation is a fatal error. *)
Definition ValidateDictionary (dict : Dictionary) (requiredKeys : list string)
    (typeValue : string) (currentVersion : N) : Result N :=
  match dict !! versionKey with
  | None => inl (LogicError "Required key 'version' is not found in the dictionary.")
  | Some v =>
      version ← Value_size_t v;
      if forallb (Contains dict) requiredKeys then
        match dict !! typeKey with
        | Some tv =>
            t ← Value_wstring tv;
            if bool_decide (t = typeValue) then inr version
            else inl (LogicError "Unexpected 'type' value in the dictionary.")
        | None => inl (LogicError "Required key 'type' is not found in the dictionary.")
        end
      else inl (LogicError "Required key is not found in the dictionary.")
  end.

(** Modelled from the spec: [arrayView->GetWritableMatrix<ElementType>()]
    belongs to NDArrayView.  It gives the elements, provided the view holds
    that element type; "mismatched types are a fatal internal-consistency
    error". *)
Definition GetWritableMatrix (et : DataType) (v : NDArrayView) : Result Matrix :=
  if decide (GetDataType v = et) then inr (nd_data v)
  else inl (LogicError "The specified ElementType does not match the DataType").

Definition with_data (v : NDArrayView) (m : Matrix) : NDArrayView :=
  mkNDArrayView (GetDataType v) (Shape v) m.

(** Modelled from the spec: [dst->CopyFrom(src)] belongs to NDArrayView;
    restore "overwrites the auxiliary state in place". *)
Definition CopyFrom (src dst : NDArrayView) : NDArrayView :=
  with_data dst (nd_data src).

(** Modelled from the spec: [Matrix::InplaceTruncate(threshold)] belongs to
    the matrix library.  "Clamp each gradient element's magnitude to the
    bound". *)
Definition truncate (threshold x : float) : float :=
  if (threshold <? x)%float then threshold
  else if (x <? - threshold)%float then (- threshold)%float
  else x.

Definition InplaceTruncate (threshold : float) (m : Matrix) : Matrix :=
  truncate threshold <$> m.

(** Modelled from the spec: [matrix *= alpha] belongs to the matrix
    library; "rescale the entire gradient tensor" by the factor. *)
Definition scale (et : DataType) (alpha : float) (m : Matrix) : Matrix :=
  (λ x, ElementType.mul et x alpha) <$> m.

(** Modelled from the spec: [Matrix::ScaleAndAdd(alpha, a, c)] belongs to
    the matrix library: [c += alpha * a], element by element. *)
Definition ScaleAndAdd (et : DataType) (alpha : float) (a c : Matrix) : Matrix :=
  zip_with (λ x y, ElementType.add et (ElementType.mul et alpha x) y) a c.

Section LearnerCpp.
Context `{Externals}.

(** *** The schedule readers of [Learner] *)

Definition GetCurrentTrainingParameterValue {T} `{Inhabited T} (l : Learner)
    (schedule : TrainingParameterSchedule T) : T :=
  schedule_now schedule (m_sampleCount l) (m_sweepCount l).

Definition LearningRatePerSample (l : Learner) (minibatchSize : N) : float :=
  learning_rate_now (m_learningRateSchedule l) (m_sampleCount l) (m_sweepCount l)
                    minibatchSize.

Definition VarianceMomentumValueForMB (l : Learner) (minibatchSize : N) : float :=
  match kind l with
  | LearnerFSAdaGrad _ _ m_varianceMomentumSchedule
  | LearnerAdam _ _ m_varianceMomentumSchedule _ _ =>
      variance_momentum_now m_varianceMomentumSchedule
        (m_sampleCount l) (m_sweepCount l) minibatchSize
  | _ => 0%float
  end.

(** *** [Learner::ResetLearningRate] (lines 43-59) *)

(** The argument is a [const LearningRateSchedule&]: it names the learner's
    own [m_learningRateSchedule] or another object, and the body reads it
    (lines 50 and 55) after [m_schedule.clear()] (line 49) has run. *)
Inductive ScheduleRef : Type :=
| own_schedule
| other_schedule (s : LearningRateSchedule).

(** What the reference shows when the member holds [m_learningRateSchedule]. *)
Definition read_schedule (learningRateSchedule : ScheduleRef)
    (m_learningRateSchedule : LearningRateSchedule) : LearningRateSchedule :=
  match learningRateSchedule with
  | own_schedule => m_learningRateSchedule
  | other_schedule s => s
  end.

Definition ResetLearningRate (learningRateSchedule : ScheduleRef)
    (l : Learner) : Learner :=
  (* m_learningRateSchedule.m_schedule.clear(); *)
  let cleared : LearningRateSchedule :=
    mkSchedule ∅ (m_epochSize (m_learningRateSchedule l)) in
  (* m_learningRateSchedule.m_epochSize = learningRateSchedule.m_epochSize; *)
  let resized : LearningRateSchedule :=
    mkSchedule ∅ (m_epochSize (read_schedule learningRateSchedule cleared)) in
  let currentCount :=
    if IsSweepBased resized then m_sweepCount l else m_sampleCount l in
  (* for (const auto& kv : learningRateSchedule.m_schedule): the own
     schedule has no entry left to visit *)
  set_learningRateSchedule
    (fold_left
       (λ (active : LearningRateSchedule) kv,
          mkSchedule (<[size_t.add currentCount kv.1 := kv.2]> (m_schedule active))
                     (m_epochSize active))
       (entries (m_schedule (read_schedule learningRateSchedule resized))) resized)
    l.

(** *** [LearnerBase::ResetSmoothedGradients] (lines 107-118) and its
    overrides (lines 632-636, 713-717, 805-809) *)

(** The body of the loop: [v.second] points to the tensor stored under
    [v.first]. *)
Definition reset_entry (v : string * NDArrayView) : StateExn Learner unit :=
  if decide (GetDataType v.2 = Float) then
    modify (λ l, set_smoothedGradientValues
                   (alter (SetValue 0%float) v.1 (m_smoothedGradientValues l)) l)
  else if decide (GetDataType v.2 = Double) then
    modify (λ l, set_smoothedGradientValues
                   (alter (SetValue 0%float) v.1 (m_smoothedGradientValues l)) l)
  else throw (LogicError "Unsupported DataType").

Definition LearnerBase_ResetSmoothedGradients : StateExn Learner unit :=
  l ← get;
  for_each (map_to_list (m_smoothedGradientValues l)) reset_entry.

(** The classes that carry [m_smoothedCount] and override the three
    checkpoint-related virtuals. *)
Definition has_smoothedCount (k : LearnerKind) : bool :=
  match k with
  | LearnerFSAdaGrad _ _ _ | LearnerAdam _ _ _ _ _ | LearnerRMSProp _ _ _ _ _ _ => true
  | _ => false
  end.

Definition ResetSmoothedGradients : StateExn Learner unit :=
  l ← get;
  LearnerBase_ResetSmoothedGradients;;
  if has_smoothedCount (kind l) then modify (set_smoothedCount 0%float)
  else mret tt.

(** *** [LearnerBase::ClipGradient] (lines 120-140) *)

Definition ClipGradient (et : DataType) (opts : AdditionalLearningOptions)
    (gradient : Matrix) (actualMBSize : N) : Matrix :=
  if negb (gradientClippingThresholdPerSample opts =? infinity)%float then
    let maxGradientPerMB :=
      (gradientClippingThresholdPerSample opts * size_t.to_double actualMBSize)%float in
    if gradientClippingWithTruncation opts then
      InplaceTruncate (ElementType.cast et maxGradientPerMB) gradient
    else
      let gradientNorm := FrobeniusNorm et gradient in
      if (maxGradientPerMB <? gradientNorm)%float then
        let normFactor := (maxGradientPerMB / gradientNorm)%float in
        scale et (ElementType.cast et normFactor) gradient
      else gradient
  else gradient.

(** *** Accessors through the pointers held during [Update] *)

Definition value_of (p : Var) : StateExn World NDArrayView :=
  w ← get; lift (at_key (values w) (Uid p)).
Definition gradient_of (p : Var) : StateExn World NDArrayView :=
  w ← get; lift (at_key (gradientValues w) (Uid p)).
Definition smoothed_of (p : Var) : StateExn World NDArrayView :=
  l ← this; lift (at_key (m_smoothedGradientValues l) (Uid p)).

Definition write_value (p : Var) (m : Matrix) : StateExn World unit :=
  modify (with_values (alter (λ v, with_data v m) (Uid p))).
Definition write_gradient (p : Var) (m : Matrix) : StateExn World unit :=
  modify (with_gradientValues (alter (λ v, with_data v m) (Uid p))).
Definition write_smoothed (p : Var) (m : Matrix) : StateExn World unit :=
  modify (with_learner (λ l, set_smoothedGradientValues
    (alter (λ v, with_data v m) (Uid p) (m_smoothedGradientValues l)) l)).

(** *** [LearnerBase::PreProcess] (lines 142-160) *)

Definition PreProcess (et : DataType) (parameter : Var) (actualMBSize : N)
    : StateExn World unit :=
  l ← this;
  gradientValue ← gradient_of parameter;
  gradientMatrix ← lift (GetWritableMatrix et gradientValue);
  let clipped := ClipGradient et (m_additionalOptions l) gradientMatrix actualMBSize in
  write_gradient parameter clipped;;
  if (0 <? l2RegularizationWeight (m_additionalOptions l))%float then
    let weight := (l2RegularizationWeight (m_additionalOptions l)
                   * size_t.to_double actualMBSize)%float in
    parameterValue ← value_of parameter;
    parameterMatrix ← lift (GetWritableMatrix et parameterValue);
    write_gradient parameter
      (ScaleAndAdd et (ElementType.cast et weight) parameterMatrix clipped)
  else mret tt.

(** *** [LearnerBase::PostProcess] (lines 162-188) *)

Definition PostProcess (et : DataType) (parameter : Var) (actualMBSize : N)
    : StateExn World unit :=
  parameterValue ← value_of parameter;
  parameterMatrix ← lift (GetWritableMatrix et parameterValue);
  l ← this;
  let stdDev := GetCurrentTrainingParameterValue l
                  (gaussianNoiseInjectionStdDev (m_additionalOptions l)) in
  (if (0 <? stdDev)%float then
     let sgdUpdateNoise :=
       RandomGaussian et (length parameterMatrix) (ElementType.cast et stdDev)
                      (m_noiseInjectionSeed l) in
     modify (with_learner
       (λ l, set_noiseInjectionSeed (size_t.incr (m_noiseInjectionSeed l)) l));;
     write_value parameter
       (ScaleAndAdd et (ElementType.cast et 1%float) sgdUpdateNoise parameterMatrix)
   else mret tt);;
  l ← this;
  if (0 <? l1RegularizationWeight (m_additionalOptions l))%float then
    let learningRate := LearningRatePerSample l actualMBSize in
    let weight := (learningRate * l1RegularizationWeight (m_additionalOptions l)
                   * size_t.to_double actualMBSize)%float in
    parameterValue ← value_of parameter;
    thresholded ← lift (GetWritableMatrix et parameterValue);
    write_value parameter
      (InplaceSoftThreshold et (ElementType.cast et weight) thresholded)
  else mret tt.

(** *** [LearnerBase::ReportTrainingParameterValue] (lines 423-441) *)

Definition ReportTrainingParameterValue (schedule : TrainingParameterSchedule Rate)
    (name : string) : StateExn World unit :=
  l ← this;
  let value := GetCurrentTrainingParameterValue l schedule in
  let changed :=
    match m_trainingParametersMap l !! name with
    | None => true
    | Some reported => negb (reported =? Value value)%float
    end in
  if changed then
    modify (with_learner (λ l, set_trainingParametersMap
              (<[name := Value value]> (m_trainingParametersMap l)) l));;
    modify (with_progress (cons (name, ReferenceMBSize value, Value value)))
  else mret tt.

(** *** The per-algorithm [Update(parameter, gradientValue,
    smoothedGradientValue, trainingSampleCount)] overrides
    (lines 460-834, 1009-1013) *)

(** [GET_WRITABLE_MATRICES] followed by the algorithm's fused kernel.
    Plain SGD reads the gradient and the parameter only. *)
Definition Update_kernel (et : DataType) (parameter : Var)
    (trainingSampleCount : N) : StateExn World unit :=
  l ← this;
  smoothedGradientMatrix ←
    match kind l with
    | LearnerSGD => mret []
    | _ => smoothedGradientValue ← smoothed_of parameter;
           lift (GetWritableMatrix et smoothedGradientValue)
    end;
  gradientValue ← gradient_of parameter;
  gradientMatrix ← lift (GetWritableMatrix et gradientValue);
  parameterValue ← value_of parameter;
  parameterMatrix ← lift (GetWritableMatrix et parameterValue);
  let '(parameterMatrix', gradientMatrix', smoothedGradientMatrix') :=
    TypedKernel et l trainingSampleCount
                parameterMatrix gradientMatrix smoothedGradientMatrix in
  write_value parameter parameterMatrix';;
  write_gradient parameter gradientMatrix';;
  match kind l with
  | LearnerSGD => mret tt
  | _ => write_smoothed parameter smoothedGradientMatrix'
  end.

(** [DISPATCH_TO_TYPED_UPDATE_FUNCTION] (lines 14-25). *)
Definition DISPATCH_TO_TYPED_UPDATE_FUNCTION
    (typed : DataType → StateExn World unit) (parameter : Var)
    : StateExn World unit :=
  smoothedGradientValue ← smoothed_of parameter;
  match GetDataType smoothedGradientValue with
  | Float => typed Float
  | Double => typed Double
  | Unknown => throw NotImplemented
  end.

Definition Update_parameter (parameter : Var) (trainingSampleCount : N)
    : StateExn World unit :=
  l ← this;
  match kind l with
  | LearnerUniversal =>
      throw (LogicError "Shouldn't trigger single element update in universal learner.")
  | LearnerMomentumSGD m_momentumSchedule _ =>
      ReportTrainingParameterValue m_momentumSchedule "Momentum";;
      DISPATCH_TO_TYPED_UPDATE_FUNCTION
        (λ et, Update_kernel et parameter trainingSampleCount) parameter
  | _ =>
      DISPATCH_TO_TYPED_UPDATE_FUNCTION
        (λ et, Update_kernel et parameter trainingSampleCount) parameter
  end.

(** *** [LearnerBase::Update<ElementType>] (lines 309-320) *)

(** [Variable::RecordValueUpdate()] is declared outside Learner.cpp: the
    call is recorded.  [paramRef] is a copy of the handle [parameter], so
    the call reaches the same variable. *)
Definition RecordValueUpdate (paramRef : Var) : StateExn World unit :=
  modify (with_valueUpdates (cons (Uid paramRef))).

Definition LearnerBase_Update_typed (et : DataType) (parameter : Var)
    (trainingSampleCount : N) : StateExn World unit :=
  PreProcess et parameter trainingSampleCount;;
  Update_parameter parameter trainingSampleCount;;
  PostProcess et parameter trainingSampleCount;;
  let paramRef := parameter in
  RecordValueUpdate paramRef.

(** *** [UpdateOnMinibatch] (lines 644-656, 719-722, 811-814); the other
    classes inherit the empty one. *)

Definition UpdateOnMinibatch (trainingSampleCount : N) (l : Learner) : Learner :=
  match kind l with
  | LearnerFSAdaGrad _ _ _ =>
      let varMomentum := VarianceMomentumValueForMB l trainingSampleCount in
      let smoothedCount :=
        (varMomentum * m_smoothedCount l
         + (1 - varMomentum) * size_t.to_double trainingSampleCount)%float in
      set_targetAdagradAvDenom
        (s_targetAdagradAvDenom * PrimFloat.sqrt smoothedCount)%float
        (set_smoothedCount smoothedCount l)
  | LearnerAdam _ _ _ _ _ | LearnerRMSProp _ _ _ _ _ _ =>
      set_smoothedCount (m_smoothedCount l + 1)%float l
  | _ => l
  end.

(** [m_sampleCount += trainingSampleCount; m_minibatchCount++;
    if (sweepEnd) m_sweepCount++]. *)
Definition advance_counters (trainingSampleCount : N) (sweepEnd : bool)
    (l : Learner) : Learner :=
  set_counters (size_t.add (m_sampleCount l) trainingSampleCount)
               (size_t.incr (m_minibatchCount l))
               (if sweepEnd then size_t.incr (m_sweepCount l) else m_sweepCount l)
               l.

(** *** [LearnerBase::Update] (lines 248-307) *)

Definition LearnerBase_Update (trainingSampleCount : N) (sweepEnd : bool)
    : StateExn World bool :=
  l ← this;
  ReportTrainingParameterValue (m_learningRateSchedule l) "Learning rate";;
  l ← this;
  if (LearningRatePerSample l trainingSampleCount =? 0)%float then mret false
  else if trainingSampleCount =? 0 then
    throw (InvalidArgument
             "Learner::Update() cannot perform an update with an empty minibatch.")
  else
    modify (with_learner (UpdateOnMinibatch trainingSampleCount));;
    l ← this;
    for_each (Parameters l) (λ parameter,
      smoothedGradientValue ← smoothed_of parameter;
      gradientValue ← gradient_of parameter;
      DISPATCH_TO_TYPED_UPDATE_FUNCTION
        (λ et, LearnerBase_Update_typed et parameter trainingSampleCount)
        parameter);;
    modify (with_learner (advance_counters trainingSampleCount sweepEnd));;
    mret true.

(** *** [LearnerUniversal::Update] (lines 968-1007) *)

Definition LearnerUniversal_Update (trainingSampleCount : N) (sweepEnd : bool)
    : StateExn World bool :=
  l ← this;
  ReportTrainingParameterValue (m_learningRateSchedule l) "Learning rate";;
  l ← this;
  if (LearningRatePerSample l trainingSampleCount =? 0)%float then mret false
  else if trainingSampleCount =? 0 then
    throw (InvalidArgument
             "Learner::Update() cannot perform an update with an empty minibatch.")
  else
    for_each (Parameters l) (λ parameter,
      gradientValue ← gradient_of parameter;
      match m_parameter_gradient_map l !! Uid parameter with
      | None =>
          (* the message is printed, then [it->second] is read past the end *)
          modify (with_stderr
                    (cons "Parameter does not found in universal learner's list."));;
          throw (out_of_range "m_parameter_gradient_map.end()")
      | Some grad =>
          (* Constant(it->second).SetValue(gradientValue) *)
          modify (with_values (<[Uid grad := gradientValue]>))
      end);;
    update ← match m_update_func l with
             | Some f => mret f
             | None => throw (LogicError "m_update_func is null")
             end;
    w ← get;
    values' ← lift (Forward update (values w));
    modify (with_values (λ _, values'));;
    modify (with_learner (advance_counters trainingSampleCount sweepEnd));;
    mret true.

(** The virtual [Learner::Update(gradientValues, trainingSampleCount,
    sweepEnd)]: the caller's map is bound, then the call goes to the
    override of the learner's class. *)
Definition Update (gradients : gmap string NDArrayView)
    (trainingSampleCount : N) (sweepEnd : bool) : StateExn World bool :=
  modify (with_gradientValues (λ _, gradients));;
  l ← this;
  match kind l with
  | LearnerUniversal => LearnerUniversal_Update trainingSampleCount sweepEnd
  | _ => LearnerBase_Update trainingSampleCount sweepEnd
  end.

(** *** [LearnerBase::CreateCheckpoint] (lines 329-353) and its overrides
    (lines 619-624, 700-705, 792-797) *)

(** The loop filling [serializedSmoothedGradients], in the order of
    [Parameters()]. *)
Fixpoint serializeSmoothedGradients (smoothed : gmap string NDArrayView)
    (parameters : list Var) : Result (list DictionaryValue) :=
  match parameters with
  | [] => inr []
  | parameter :: rest =>
      smoothedGradientValue ← at_key smoothed (Uid parameter);
      serialized ← serializeSmoothedGradients smoothed rest;
      inr (DV_NDArrayView smoothedGradientValue :: serialized)
  end.

Definition LearnerBase_CreateCheckpoint (l : Learner) : Result Dictionary :=
  let checkpoint : Dictionary :=
    <[noiseInjectionSeedKey := DV_SizeT (m_noiseInjectionSeed l)]>
    (<[learningRateScheduleKey := DV_Dictionary (Serialize (m_learningRateSchedule l))]>
    (<[minibatchCountKey := DV_SizeT (m_minibatchCount l)]>
    (<[sampleCountKey := DV_SizeT (m_sampleCount l)]>
    (<[typeKey := DV_String s_learnerTypeValue]>
    (<[versionKey := DV_SizeT CurrentVersion]> ∅))))) in
  serializedSmoothedGradients ←
    serializeSmoothedGradients (m_smoothedGradientValues l) (Parameters l);
  inr (<[smoothedGradientsKey := DV_Vector serializedSmoothedGradients]> checkpoint).

Definition CreateCheckpoint (l : Learner) : Result Dictionary :=
  dict ← LearnerBase_CreateCheckpoint l;
  if has_smoothedCount (kind l)
  then inr (<[smoothedCountKey := DV_Double (m_smoothedCount l)]> dict)
  else inr dict.

(** *** [LearnerBase::RestoreFromCheckpoint] (lines 355-421) and its
    overrides (lines 626-630, 707-711, 799-803) *)

Definition s_requiredDictionaryKeys : list string :=
  [typeKey; sampleCountKey; minibatchCountKey; learningRateScheduleKey].

Definition missing_smoothed_gradient : Exception :=
  LogicError "Checkpoint does not contain smoothed gradient value for parameter.".

(** The lambda [getSmoothedGradValue] (lines 380-401). *)
Definition getSmoothedGradValue (version : N) (checkpoint : Dictionary)
    (i : nat) (parameter : Var) : Result DictionaryValue :=
  let uid := Uid parameter in
  if 2 <=? version then
    stored ← at_key checkpoint smoothedGradientsKey;
    values ← Value_vector stored;
    if bool_decide (length values ≤ i)%nat then inl missing_smoothed_gradient
    else
      match values !! i with
      | Some v => inr v
      | None => inl (out_of_range "vector::at")
      end
  else if negb (Contains checkpoint uid) then inl missing_smoothed_gradient
  else at_key checkpoint uid.

(** The body of the loop over the parameters (lines 403-420). *)
Definition restore_parameter (version : N) (checkpoint : Dictionary)
    (ip : nat * Var) : StateExn Learner unit :=
  let '(i, parameter) := ip in
  stored ← lift (getSmoothedGradValue version checkpoint i parameter);
  checkpointedValue ← lift (Value_NDArrayView stored);
  l ← get;
  smoothedGradientValue ← lift (at_key (m_smoothedGradientValues l) (Uid parameter));
  if negb (bool_decide (GetDataType smoothedGradientValue = GetDataType checkpointedValue))
  then throw (LogicError "DataType of the smoothed gradient value restored from checkpoint does not match the expected value.")
  else if negb (bool_decide (Shape smoothedGradientValue = Shape checkpointedValue))
  then throw (LogicError "Shape of the smoothed gradient value restored from checkpoint does not match the expected value.")
  else modify (λ l, set_smoothedGradientValues
                      (<[Uid parameter := CopyFrom checkpointedValue smoothedGradientValue]>
                         (m_smoothedGradientValues l)) l).

Definition LearnerBase_RestoreFromCheckpoint (checkpoint : Dictionary)
    : StateExn Learner unit :=
  version ← lift (ValidateDictionary checkpoint s_requiredDictionaryKeys
                                     s_learnerTypeValue CurrentVersion);
  (if 2 <=? version then
     lift (ValidateDictionary checkpoint [smoothedGradientsKey]
                              s_learnerTypeValue CurrentVersion);; mret tt
   else mret tt);;
  sampleCount ← lift (at_key checkpoint sampleCountKey ≫= Value_size_t);
  modify (λ l, set_counters sampleCount (m_minibatchCount l) (m_sweepCount l) l);;
  minibatchCount ← lift (at_key checkpoint minibatchCountKey ≫= Value_size_t);
  modify (λ l, set_counters (m_sampleCount l) minibatchCount (m_sweepCount l) l);;
  (if Contains checkpoint noiseInjectionSeedKey then
     seed ← lift (at_key checkpoint noiseInjectionSeedKey ≫= Value_size_t);
     modify (set_noiseInjectionSeed seed)
   else mret tt);;
  serialized ← lift (at_key checkpoint learningRateScheduleKey ≫= Value_Dictionary);
  schedule ← lift (Deserialize serialized);
  modify (set_learningRateSchedule schedule);;
  l ← get;
  for_each (imap pair (Parameters l)) (restore_parameter version checkpoint).

Definition RestoreFromCheckpoint (checkpoint : Dictionary) : StateExn Learner unit :=
  LearnerBase_RestoreFromCheckpoint checkpoint;;
  l ← get;
  if has_smoothedCount (kind l) then
    smoothedCount ← lift (at_key checkpoint smoothedCountKey ≫= Value_double);
    modify (set_smoothedCount smoothedCount)
  else mret tt.

(** *** Construction: [LearnerBase::LearnerBase] (lines 196-220),
    [AllocateNDArrayView] (lines 222-232), [LearnerSGD::LearnerSGD]
    (lines 443-458), [LearnerUniversal] (lines 939-966) *)

Definition AllocateNDArrayView (parameter : Var) (shape : NDShape) : NDArrayView :=
  if decide (var_dtype parameter = Float) then NDArrayView_zeros Float shape
  else NDArrayView_zeros Double shape.

(** [map.emplace(key, value)] and [map.insert({key, value})] keep an
    existing entry. *)
Definition emplace {V} (key : string) (v : V) (m : gmap string V) : gmap string V :=
  match m !! key with Some _ => m | None => <[key := v]> m end.

(** [seed] is what [Internal::GenerateRandomSeed()] returns. *)
Definition LearnerBase_ctor (k : LearnerKind) (parameters : list Var)
    (learningRateSchedule : LearningRateSchedule)
    (additionalOptions : AdditionalLearningOptions)
    (allocateSmoothGradients : bool) (seed : N) : Result Learner :=
  if bool_decide (parameters = []) then
    inl (InvalidArgument "The parameters list specified to a Learner must not be empty.")
  else
    let uniqueParameters : gset string := list_to_set (Uid <$> parameters) in
    if negb (bool_decide (size uniqueParameters = length parameters)) then
      inl (InvalidArgument "Learner's parameters list must not contain duplicates.")
    else
      inr (mkLearner k parameters learningRateSchedule 0 0 0 additionalOptions
             (if allocateSmoothGradients then
                fold_left (λ m parameter,
                             emplace (Uid parameter)
                               (AllocateNDArrayView parameter (var_shape parameter)) m)
                          parameters ∅
              else ∅)
             seed ∅ 0%float 0%float ∅ None).

(** The dummy views of the learners without smoothed gradients: the loop
    of [LearnerSGD]'s constructor, which [AllocateDummySmoothedGradients]
    repeats for the universal learner. *)
Definition AllocateDummySmoothedGradients (parameters : list Var) (l : Learner)
    : Learner :=
  set_smoothedGradientValues
    (fold_left (λ m parameter,
                  emplace (Uid parameter) (AllocateNDArrayView parameter []) m)
               parameters (m_smoothedGradientValues l))
    l.

Definition LearnerSGD_ctor (parameters : list Var)
    (learningRateSchedule : LearningRateSchedule)
    (additionalOptions : AdditionalLearningOptions)
    (allocateSmoothGradients : bool) (seed : N) : Result Learner :=
  l ← LearnerBase_ctor LearnerSGD parameters learningRateSchedule
        additionalOptions allocateSmoothGradients seed;
  if negb allocateSmoothGradients
  then inr (AllocateDummySmoothedGradients parameters l)
  else inr l.

Definition contains_var (inputs : list Var) (v : Var) : bool :=
  existsb (same_var v) inputs.

Definition missing_gradient_warning : string :=
  "WARNING: Update function does not contain the gradient for parameter in its computation".

(** The body of the loop of [ValidateInput] (lines 953-963). *)
Definition validate_pair (updateFunc : Function) (pg : Var * Var)
    : StateExn World unit :=
  let '(param, grad) := pg in
  let inputs := Inputs updateFunc in
  if negb (contains_var inputs param) then
    throw (LogicError "Update function does not contain the parameter in its computation")
  else
    (if negb (contains_var inputs grad) then
       modify (with_stderr (cons missing_gradient_warning))
     else mret tt);;
    modify (with_learner (λ l,
      set_universal (emplace (Uid param) grad (m_parameter_gradient_map l))
                    (m_update_func l) l)).

(** [LearnerUniversal::ValidateInput] (lines 945-966), run on the object
    under construction. *)
Definition ValidateInput (parameters gradients : list Var) (updateFunc : Function)
    : StateExn World unit :=
  if negb (bool_decide (length parameters = length gradients)) then
    throw (LogicError "Number of parameters does not match number of gradients")
  else if bool_decide (length parameters = 0%nat) then
    throw (LogicError "At least 1 parameter is needed in universal learner")
  else
    for_each (zip parameters gradients) (validate_pair updateFunc);;
    modify (with_learner (AllocateDummySmoothedGradients parameters));;
    modify (with_learner (λ l,
      set_universal (m_parameter_gradient_map l) (Some updateFunc) l)).

(** [LearnerUniversal(parameters, gradients, updateFunc)]: the result of
    the construction and what it printed. *)
Definition LearnerUniversal_ctor (parameters gradients : list Var)
    (updateFunc : Function) (seed : N) : Result Learner * list string :=
  match LearnerBase_ctor LearnerUniversal parameters
          (ConstantSchedule (mkRate 1%float 1)) DefaultOptions false seed with
  | inl e => (inl e, [])
  | inr l =>
      let '(r, w) := ValidateInput parameters gradients updateFunc
                       (mkWorld l ∅ ∅ [] []) in
      (r ;; inr (learner w), stderr w)
  end.
End LearnerCpp.

(** ** The learners with a state of their own

    The constructors of [LearnerAdaGrad], [LearnerAdaDelta] and
    [LearnerRMSProp] call [LearnerBase]'s without allocation and allocate
    their smoothed gradients themselves. *)

(** [a * b] on [size_t] operands. *)
Definition size_t_mul (a b : N) : N := size_t.wrap (a * b).

Section LearnerClasses.
Context `{Externals}.

(** What the tensor library reports of a parameter: the rows and columns
    of [GetMatrix<ElementType>(parameter.Value())], and whether
    [parameter.Value()->Device().Type()] is [DeviceKind::GPU]. *)
Variable GetNumRows GetNumCols : DataType → Var → N.
Variable on_GPU : Var → bool.

(** [LearnerBase::GetMatrixShape] (lines 234-247). *)
Definition GetMatrixShape (parameter : Var) : NDShape :=
  if decide (var_dtype parameter = Float)
  then [GetNumRows Float parameter; GetNumCols Float parameter]
  else [GetNumRows Double parameter; GetNumCols Double parameter].

(** The loop that ends the constructors of the adaptive learners: a view
    of [shape[0]] rows and [factor * shape[1]] columns per parameter. *)
Definition allocate_columns (factor : Var → N) (parameters : list Var)
    (l : Learner) : Learner :=
  set_smoothedGradientValues
    (fold_left
       (λ m parameter,
          let shape := GetMatrixShape parameter in
          emplace (Uid parameter)
            (AllocateNDArrayView parameter
               [shape !!! 0%nat; size_t_mul (factor parameter) (shape !!! 1%nat)])
            m)
       parameters (m_smoothedGradientValues l))
    l.

(** [LearnerAdaGrad::LearnerAdaGrad] (lines 524-545). *)
Definition LearnerAdaGrad_ctor (parameters : list Var)
    (learningRateSchedule : LearningRateSchedule) (needAveMultiplier : bool)
    (additionalOptions : AdditionalLearningOptions) (seed : N) : Result Learner :=
  l ← LearnerBase_ctor (LearnerAdaGrad needAveMultiplier) parameters
        learningRateSchedule additionalOptions false seed;
  inr (allocate_columns
         (λ parameter, if needAveMultiplier && on_GPU parameter then 2 else 1)
         parameters l).

(** [LearnerAdaDelta::LearnerAdaDelta] (lines 565-579). *)
Definition LearnerAdaDelta_ctor (parameters : list Var)
    (learningRateSchedule : LearningRateSchedule) (rho epsilon : float)
    (additionalOptions : AdditionalLearningOptions) (seed : N) : Result Learner :=
  l ← LearnerBase_ctor (LearnerAdaDelta rho epsilon) parameters
        learningRateSchedule additionalOptions false seed;
  inr (allocate_columns (λ _, 2) parameters l).

(** [LearnerRMSProp::LearnerRMSProp] (lines 745-783). *)
Definition LearnerRMSProp_ctor (parameters : list Var)
    (learningRateSchedule : LearningRateSchedule)
    (gamma inc dec max min : float) (needAveMultiplier : bool)
    (additionalOptions : AdditionalLearningOptions) (seed : N) : Result Learner :=
  l ← LearnerBase_ctor (LearnerRMSProp gamma inc dec max min needAveMultiplier)
        parameters learningRateSchedule additionalOptions false seed;
  if ((gamma <=? 0) || (1 <=? gamma))%float then
    inl (LogicError "RMSProp gamma must be in range (0.0, 1.0)")
  else if (inc <=? 1)%float then
    inl (LogicError "RMSProp inc must be greater than 1")
  else if ((dec <=? 0) || (1 <=? dec))%float then
    inl (LogicError "RMSProp dec must be in range (0.0, 1.0)")
  else if ((max <=? 0) || (max <=? min))%float then
    inl (LogicError "RMSProp max must be greater than zero and greater than min")
  else if (min <=? 0)%float then
    inl (LogicError "RMSProp min must be greater than zero")
  else
    inr (set_smoothedCount 0%float
           (allocate_columns
              (λ parameter, if needAveMultiplier && on_GPU parameter then 4 else 3)
              parameters l)).
End LearnerClasses.

(** ** A stand-in for what Learner.cpp does not define

    A simple schedule implementation and numeric backend on which the
    learners above run on concrete inputs: schedules are step functions
    looked up with [valueAt], read per sample; every algorithm takes the
    plain SGD step; the noise generator returns its mean. *)

Module Reference.
Definition FullDataSweep : N := 0.

Definition is_sweep_based {T} (s : TrainingParameterSchedule T) : bool :=
  m_epochSize s =? FullDataSweep.

Definition lookup_now {T} `{Inhabited T} (s : TrainingParameterSchedule T)
    (sampleCount sweepCount : N) : T :=
  default inhabitant
    (valueAt s (if is_sweep_based s then sweepCount else sampleCount)).

Definition rate_now (s : LearningRateSchedule)
    (sampleCount sweepCount minibatchSize : N) : float :=
  Value (lookup_now s sampleCount sweepCount).

Definition serialize_entry (kv : N * Rate) : DictionaryValue :=
  DV_Vector [DV_SizeT kv.1; DV_Double (Value kv.2); DV_SizeT (ReferenceMBSize kv.2)].

Definition serialize (s : LearningRateSchedule) : Dictionary :=
  <["epochSize" := DV_SizeT (m_epochSize s)]>
  (<["schedule" := DV_Vector (serialize_entry <$> entries (m_schedule s))]> ∅).

Definition deserialize_entry (v : DictionaryValue) : Result (N * Rate) :=
  match v with
  | DV_Vector [DV_SizeT k; DV_Double x; DV_SizeT r] => inr (k, mkRate x r)
  | _ => inl (LogicError "malformed schedule entry")
  end.

Fixpoint deserialize_entries (vs : list DictionaryValue) : Result (list (N * Rate)) :=
  match vs with
  | [] => inr []
  | v :: vs' =>
      kv ← deserialize_entry v;
      rest ← deserialize_entries vs';
      inr (kv :: rest)
  end.

Definition deserialize (d : Dictionary) : Result LearningRateSchedule :=
  epochSize ← at_key d "epochSize" ≫= Value_size_t;
  vs ← at_key d "schedule" ≫= Value_vector;
  kvs ← deserialize_entries vs;
  inr (mkSchedule (list_to_map kvs) epochSize).

Definition SGDUpdate (et : DataType) (learningRate : float) (p g : Matrix) : Matrix :=
  zip_with (λ x dx, ElementType.cast et (x - ElementType.mul et learningRate dx)%float) p g.

Definition sgd_kernel (et : DataType) (l : Learner) (n : N)
    (p g sg : Matrix) : Matrix * Matrix * Matrix :=
  (SGDUpdate et
     (ElementType.cast et
        (rate_now (m_learningRateSchedule l) (m_sampleCount l)
                           (m_sweepCount l) n)) p g, g, sg).

Definition frobenius_norm (et : DataType) (m : Matrix) : float :=
  ElementType.sqrt et
    (foldl (λ acc x, ElementType.add et acc (ElementType.mul et x x)) 0%float m).

Definition soft_threshold (t x : float) : float :=
  if (t <? x)%float then (x - t)%float
  else if (x <? - t)%float then (x + t)%float
  else 0%float.

Global Instance externals : Externals := {|
  CurrentVersion := 2;
  IsSweepBased := @is_sweep_based;
  schedule_now := @lookup_now;
  learning_rate_now := rate_now;
  variance_momentum_now := rate_now;
  Serialize := serialize;
  Deserialize := deserialize;
  TypedKernel := sgd_kernel;
  FrobeniusNorm := frobenius_norm;
  RandomGaussian := λ et n sigma seed, replicate n 0%float;
  InplaceSoftThreshold := λ et t m, (λ x, ElementType.cast et (soft_threshold t x)) <$> m;
  Forward := λ f vs, inr vs;
  DefaultOptions := mkOptions 0%float 0%float (mkSchedule {[0 := 0%float]} 1) infinity true;
  ConstantSchedule := λ r, mkSchedule {[0 := r]} 1;
|}.
End Reference.

(** ** Sample learners, models and checkpoints *)

Module Examples.
Import Reference.

Definition W : Var := mkVar "Parameter1" Double [2].

Definition frozen : LearningRateSchedule := mkSchedule {[0 := mkRate 0%float 1]} 1.
Definition halving : LearningRateSchedule :=
  mkSchedule {[0 := mkRate 0.5%float 1; 100 := mkRate 0.25%float 1]} 1.

Definition sgd (schedule : LearningRateSchedule) : Learner :=
  mkLearner LearnerSGD [W] schedule 0 0 0 DefaultOptions
    {["Parameter1" := NDArrayView_zeros Double []]} 7 ∅ 0%float 0%float ∅ None.

Definition model : gmap string NDArrayView :=
  {["Parameter1" := mkNDArrayView Double [2] [1%float; 2%float]]}.
Definition gradient : gmap string NDArrayView :=
  {["Parameter1" := mkNDArrayView Double [2] [4%float; 8%float]]}.

Definition world (l : Learner) : World := mkWorld l model ∅ [] [].

(** A learner some way into training. *)
Definition trained : Learner := set_counters 9 2 1 (sgd frozen).

(** An Adam learner with a smoothed gradient and a smoothed count. *)
Definition adam : Learner :=
  mkLearner (LearnerAdam halving true halving 0%float false) [W] halving 9 2 1
    DefaultOptions
    {["Parameter1" := mkNDArrayView Double [2; 2]
                        [0.5%float; 0.25%float; 1%float; 2%float]]}
    7 ∅ 2%float 0%float ∅ None.

(** A checkpoint of the current version whose vector of smoothed
    gradients is empty. *)
Definition truncated_checkpoint : Dictionary :=
  match CreateCheckpoint (sgd halving) with
  | inr checkpoint => <[smoothedGradientsKey := DV_Vector []]> checkpoint
  | inl _ => ∅
  end.

(** A version 1 checkpoint: no seed, the smoothed gradient under the
    parameter's uid. *)
Definition legacy_checkpoint : Dictionary :=
  <["Parameter1" := DV_NDArrayView (mkNDArrayView Double [] [0.5%float])]>
  (<[learningRateScheduleKey := DV_Dictionary (Serialize halving)]>
  (<[minibatchCountKey := DV_SizeT 2]>
  (<[sampleCountKey := DV_SizeT 5]>
  (<[typeKey := DV_String s_learnerTypeValue]>
  (<[versionKey := DV_SizeT 1]> ∅))))).

(** Clipping at 0.125 per sample, by truncation. *)
Definition truncating : AdditionalLearningOptions :=
  mkOptions 0%float 0%float (mkSchedule {[0 := 0%float]} 1) 0.125%float true.

(** A gradient placeholder, and an update function that reads the
    parameter but not the placeholder. *)
Definition G : Var := mkVar "Constant2" Double [2].
Definition update : Function := mkFunction [W] [] 0.
End Examples.

(** ** Further learners, models and checkpoints *)

Module Scenarios.
Import Reference Examples.

Definition V : Var := mkVar "Parameter2" Float [3].

(** Gaussian noise of standard deviation 0.5, nothing else. *)
Definition noisy : AdditionalLearningOptions :=
  mkOptions 0%float 0%float (mkSchedule {[0 := 0.5%float]} 1) infinity false.

Definition noisy_sgd : Learner :=
  mkLearner LearnerSGD [W; V] halving 0 0 0 noisy
    {["Parameter1" := NDArrayView_zeros Double [];
      "Parameter2" := NDArrayView_zeros Float []]} 7 ∅ 0%float 0%float ∅ None.

Definition model2 : gmap string NDArrayView :=
  {["Parameter1" := mkNDArrayView Double [2] [1%float; 2%float];
    "Parameter2" := mkNDArrayView Float [3] [1%float; 2%float; 3%float]]}.
Definition gradient2 : gmap string NDArrayView :=
  {["Parameter1" := mkNDArrayView Double [2] [4%float; 8%float];
    "Parameter2" := mkNDArrayView Float [3] [1%float; 1%float; 1%float]]}.

(** The universal learner of [W], its placeholder [G] and [update]. *)
Definition universal : Learner :=
  match LearnerUniversal_ctor [W] [G] update 7 with
  | (inr l, _) => l
  | _ => sgd frozen
  end.

(** The checkpoint of [adam], and the same with one more tensor and one
    more key. *)
Definition adam_checkpoint : Dictionary :=
  match CreateCheckpoint adam with inr c => c | inl _ => ∅ end.
Definition adam_tensors : list DictionaryValue :=
  [DV_NDArrayView (mkNDArrayView Double [2; 2]
                     [0.5%float; 0.25%float; 1%float; 2%float])].
Definition padded_checkpoint : Dictionary :=
  <["comment" := DV_String "padded"]>
    (<[smoothedGradientsKey := DV_Vector (adam_tensors ++ [DV_SizeT 0])]>
       adam_checkpoint).

(** A parameter seen as a matrix of one column. *)
Definition rows (et : DataType) (p : Var) : N := default 1 (head (var_shape p)).
Definition cols (et : DataType) (p : Var) : N := 1.
Definition on_CPU (p : Var) : bool := false.
End Scenarios.

(** * The vocabulary of the properties *)

Section Vocabulary.
Context `{Externals}.

(** [preserves proj m]: whatever [m] does, returning or throwing, it leaves
    the part [proj] of the state as it was. *)
Definition preserves {S X A} (proj : S → X) (m : StateExn S A) : Prop :=
  ∀ s, proj (m s).2 = proj s.

(** The three elapsed counters of the learner. *)
Definition counters_of (l : Learner) : N * N * N :=
  (m_sampleCount l, m_minibatchCount l, m_sweepCount l).

Definition counters (w : World) : N * N * N := counters_of (learner w).

(** The part of the state that training depends on; what [Update] may
    rewrite on its zero-rate path (the reported values) is not in it. *)
Record training_state := mkTrainingState {
  ts_values : gmap string NDArrayView;
  ts_smoothed : gmap string NDArrayView;
  ts_counters : N * N * N;
  ts_schedule : LearningRateSchedule;
  ts_seed : N;
  ts_smoothedCount : float;
}.

Definition training_state_of (w : World) : training_state :=
  mkTrainingState (values w) (m_smoothedGradientValues (learner w)) (counters w)
    (m_learningRateSchedule (learner w)) (m_noiseInjectionSeed (learner w))
    (m_smoothedCount (learner w)).

(** The counters after an [Update] that got as far as advancing them. *)
Definition advanced (n : N) (sweepEnd : bool) (c : N * N * N) : N * N * N :=
  (size_t.add c.1.1 n, size_t.incr c.1.2,
   if sweepEnd then size_t.incr c.2 else c.2).

(** The counters after an [Update] with outcome [r]. *)
Definition counters_after (n : N) (sweepEnd : bool) (r : Result bool)
    (c : N * N * N) : N * N * N :=
  match r with inr true => advanced n sweepEnd c | _ => c end.

(** What the fold of [greatest_key_le] finds in a list of keys. *)
Definition greatest_in (ks : list N) (t : N) : option N :=
  foldr (λ k acc, if decide (k ≤ t)
                  then Some (from_option (N.max k) k acc) else acc) None ks.

(** The loop of [ResetLearningRate]: entries copied at shifted keys. *)
Definition shift_entries (f : N → N) (kvs : list (N * Rate))
    (active : LearningRateSchedule) : LearningRateSchedule :=
  fold_left (λ (active : LearningRateSchedule) kv,
               mkSchedule (<[f kv.1 := kv.2]> (m_schedule active)) (m_epochSize active))
            kvs active.

(** Every key of the schedule is a [size_t] value. *)
Definition keys_representable (s : LearningRateSchedule) : Prop :=
  map_Forall (λ k _, k < size_t.modulus) (m_schedule s).

(** The counter [ResetLearningRate] reads: [IsSweepBased] is asked of the
    active schedule once it is cleared and has the new epoch size. *)
Definition currentCount (new : LearningRateSchedule) (l : Learner) : N :=
  if IsSweepBased (mkSchedule (∅ : gmap N Rate) (m_epochSize new))
  then m_sweepCount l else m_sampleCount l.

(** Two tensors with the element type and shape of each other. *)
Definition same_layout (a b : NDArrayView) : Prop :=
  GetDataType a = GetDataType b ∧ Shape a = Shape b.

(** What a successful restore leaves: the header fields, then the tensor
    [src uid] for every parameter. *)
Definition restored (schedule : LearningRateSchedule) (sampleCount minibatchCount : N)
    (seed : option N) (smoothedCount : float) (src : string → NDArrayView)
    (l : Learner) : Learner :=
  mkLearner (kind l) (m_parameters l) schedule sampleCount minibatchCount
    (m_sweepCount l) (m_additionalOptions l)
    (foldl (λ m p, <[Uid p := src (Uid p)]> m) (m_smoothedGradientValues l)
           (m_parameters l))
    (default (m_noiseInjectionSeed l) seed) (m_trainingParametersMap l)
    smoothedCount (m_targetAdagradAvDenom_x_sqrtAdagradSqrFrames l)
    (m_parameter_gradient_map l) (m_update_func l).

(** The checkpoint is consistent with the learner: the header is there
    and well typed, and every parameter finds a tensor of the layout of
    its smoothed gradient. *)
Record consistent (checkpoint : Dictionary) (l : Learner) (version : N)
    (schedule : LearningRateSchedule) (sampleCount minibatchCount : N)
    (seed : option N) (smoothedCount : float) (src : string → NDArrayView)
    : Prop := {
  cons_version : checkpoint !! versionKey = Some (DV_SizeT version);
  cons_type : checkpoint !! typeKey = Some (DV_String s_learnerTypeValue);
  cons_sampleCount : checkpoint !! sampleCountKey = Some (DV_SizeT sampleCount);
  cons_minibatchCount :
    checkpoint !! minibatchCountKey = Some (DV_SizeT minibatchCount);
  cons_schedule :
    ∃ d, checkpoint !! learningRateScheduleKey = Some (DV_Dictionary d)
         ∧ Deserialize d = inr schedule;
  cons_seed : checkpoint !! noiseInjectionSeedKey = DV_SizeT <$> seed;
  cons_vector : 2 ≤ version → is_Some (checkpoint !! smoothedGradientsKey);
  cons_tensor : ∀ i p, Parameters l !! i = Some p →
    getSmoothedGradValue version checkpoint i p = inr (DV_NDArrayView (src (Uid p)));
  cons_layout : ∀ p, p ∈ Parameters l →
    ∃ z, m_smoothedGradientValues l !! Uid p = Some z ∧ same_layout z (src (Uid p));
  cons_smoothedCount :
    if has_smoothedCount (kind l)
    then checkpoint !! smoothedCountKey = Some (DV_Double smoothedCount)
    else smoothedCount = m_smoothedCount l;
}.

(** The smoothed gradient stored for a uid. *)
Definition aux_of (l : Learner) (uid : string) : NDArrayView :=
  default (NDArrayView_zeros Double []) (m_smoothedGradientValues l !! uid).

(** Every parameter of the learner has a smoothed gradient. *)
Definition has_aux (l : Learner) : Prop :=
  Forall (λ p, is_Some (m_smoothedGradientValues l !! Uid p)) (Parameters l).

(** The keys a checkpoint may have. *)
Definition checkpoint_keys : list string :=
  [versionKey; typeKey; sampleCountKey; minibatchCountKey;
   learningRateScheduleKey; noiseInjectionSeedKey; smoothedGradientsKey;
   smoothedCountKey].

(** A learner as the constructors leave it: the smoothed gradients are
    those of the parameters, each of element type float or double. *)
Record well_formed (l : Learner) : Prop := {
  wf_has_aux : has_aux l;
  wf_only_aux : ∀ uid, is_Some (m_smoothedGradientValues l !! uid) →
                       uid ∈ Uid <$> Parameters l;
  wf_typed : map_Forall (λ _ v, GetDataType v ≠ Unknown) (m_smoothedGradientValues l);
}.

(** The tensor a legacy checkpoint stores under a uid. *)
Definition legacy_tensor (checkpoint : Dictionary) (uid : string) : NDArrayView :=
  match checkpoint !! uid with
  | Some (DV_NDArrayView a) => a
  | _ => NDArrayView_zeros Double []
  end.

(** The run ended in an exception. *)
Definition fails {S A} (run : Result A * S) : Prop := ∃ e, run.1 = inl e.

(** Why a checkpoint cannot be restored into a learner. *)
Inductive inconsistency :=
| missing_key (key : string)
| missing_tensor (i : nat) (p : Var)
| mismatched_tensor (i : nat) (p : Var).

Definition inconsistent (checkpoint : Dictionary) (l : Learner)
    (why : inconsistency) : Prop :=
  match why with
  | missing_key key =>
      checkpoint !! key = None
      ∧ (key ∈ versionKey :: s_requiredDictionaryKeys
         ∨ key = smoothedGradientsKey
           ∧ ∃ version, checkpoint !! versionKey = Some (DV_SizeT version)
                        ∧ 2 ≤ version)
  | missing_tensor i p =>
      Parameters l !! i = Some p
      ∧ ∃ version, checkpoint !! versionKey = Some (DV_SizeT version)
        ∧ if 2 <=? version
          then ∃ vs, checkpoint !! smoothedGradientsKey = Some (DV_Vector vs)
                     ∧ (length vs ≤ i)%nat
          else checkpoint !! Uid p = None
  | mismatched_tensor i p =>
      Parameters l !! i = Some p
      ∧ ∃ version a z,
          checkpoint !! versionKey = Some (DV_SizeT version)
          ∧ getSmoothedGradValue version checkpoint i p = inr (DV_NDArrayView a)
          ∧ m_smoothedGradientValues l !! Uid p = Some z
          ∧ ¬ same_layout z a
  end.

(** The element type and shape of every smoothed gradient of [l0] are
    still those in [l], and the parameters are the same. *)
Definition layout_kept (l0 l : Learner) : Prop :=
  m_parameters l = m_parameters l0
  ∧ ∀ uid z, m_smoothedGradientValues l0 !! uid = Some z →
             ∃ z', m_smoothedGradientValues l !! uid = Some z' ∧ same_layout z' z.

(** What the header part of a restore does not write. *)
Definition layout_of (l : Learner) : list Var * gmap string NDArrayView :=
  (m_parameters l, m_smoothedGradientValues l).

(** An ordered pair of numbers: neither is a NaN. *)
Definition comparable (x y : float) : Prop :=
  is_Some (SFcompare (Prim2SF x) (Prim2SF y)).

(** The gradient placeholder is not an input of the update function. *)
Definition gradient_missing (updateFunc : Function) (grad : Var) : bool :=
  negb (contains_var (Inputs updateFunc) grad).

(** What the loop of [ValidateInput] prints and records when every
    parameter is an input of the update function. *)
Definition validated (updateFunc : Function) (pgs : list (Var * Var)) (w : World)
    : World :=
  World_with
    (set_universal
       (foldl (λ m pg, emplace (Uid pg.1) pg.2 m)
              (m_parameter_gradient_map (learner w)) pgs)
       (m_update_func (learner w)) (learner w))
    (values w) (gradientValues w) (progress w)
    (replicate (length (filter (λ pg, gradient_missing updateFunc pg.2) pgs))
               missing_gradient_warning ++ stderr w)
    (valueUpdates w).
End Vocabulary.

(** * The vocabulary of the further properties *)

Section MoreVocabulary.
Context `{Externals}.
Local Open Scope float_scope.

(** The body of the loop of [LearnerBase::Update] for one parameter. *)
Definition update_each (n : N) (parameter : Var) : StateExn World unit :=
  smoothedGradientValue ← smoothed_of parameter;
  gradientValue ← gradient_of parameter;
  DISPATCH_TO_TYPED_UPDATE_FUNCTION
    (λ et, LearnerBase_Update_typed et parameter n) parameter.

(** The body of the loop of [LearnerUniversal::Update] for one parameter,
    [l] being the learner. *)
Definition bind_gradient (l : Learner) (parameter : Var) : StateExn World unit :=
  gradientValue ← gradient_of parameter;
  match m_parameter_gradient_map l !! Uid parameter with
  | None =>
      modify (with_stderr
                (cons "Parameter does not found in universal learner's list."));;
      throw (out_of_range "m_parameter_gradient_map.end()")
  | Some grad => modify (with_values (<[Uid grad := gradientValue]>))
  end.

(** The state once [Update] has reported the learning rate. *)
Definition reported (w : World) : World :=
  (ReportTrainingParameterValue (m_learningRateSchedule (learner w))
     "Learning rate" w).2.

(** What an [Update] never rewrites: the class of the learner with its
    constants, its parameters, its learning-rate schedule, its options and
    the bindings of a universal learner. *)
Definition configuration (l : Learner) :=
  (kind l, m_parameters l, m_learningRateSchedule l, m_additionalOptions l,
   m_parameter_gradient_map l, m_update_func l).

(** The element type and shape of a tensor, and those of every tensor of
    a map. *)
Definition layout (v : NDArrayView) : DataType * NDShape := (GetDataType v, Shape v).
Definition layouts (m : gmap string NDArrayView) : gmap string (DataType * NDShape) :=
  layout <$> m.

(** What decides whether [PostProcess] draws noise, and the seed. *)
Definition noise_state (w : World) :=
  (counters w, m_additionalOptions (learner w)).

(** The noise seed of the learner. *)
Definition noise_seed (w : World) : N := m_noiseInjectionSeed (learner w).

(** The standard deviation of the injected noise at the current counters. *)
Definition noise_stdDev (l : Learner) : float :=
  GetCurrentTrainingParameterValue l
    (gaussianNoiseInjectionStdDev (m_additionalOptions l)).

(** The seed after one [PostProcess]: the next one when noise is drawn. *)
Definition next_seed (l : Learner) (s : N) : N :=
  if (0 <? noise_stdDev l)%float then size_t.incr s else s.

(** The smoothed count once [UpdateOnMinibatch] has run. *)
Definition smoothedCount_after (n : N) (l : Learner) : float :=
  match kind l with
  | LearnerFSAdaGrad _ _ _ =>
      let varMomentum := VarianceMomentumValueForMB l n in
      varMomentum * m_smoothedCount l + (1 - varMomentum) * size_t.to_double n
  | LearnerAdam _ _ _ _ _ | LearnerRMSProp _ _ _ _ _ _ => m_smoothedCount l + 1
  | _ => m_smoothedCount l
  end.

(** The model once the loop of [LearnerUniversal::Update] has stored
    every gradient in its placeholder. *)
Definition bound_values (l : Learner) (gradients vals : gmap string NDArrayView)
    : gmap string NDArrayView :=
  foldl (λ m p, match m_parameter_gradient_map l !! Uid p, gradients !! Uid p with
                | Some grad, Some g => <[Uid grad := g]> m
                | _, _ => m
                end) vals (Parameters l).

(** The keys of the header of a checkpoint. *)
Definition header_keys : list string :=
  [versionKey; typeKey; sampleCountKey; minibatchCountKey;
   learningRateScheduleKey; noiseInjectionSeedKey; smoothedCountKey].

(** The settings an RMSProp learner can be built with. *)
Definition RMSProp_settings (gamma inc dec max min : float) : Prop :=
  (0 <? gamma) = true ∧ (gamma <? 1) = true ∧ (1 <? inc) = true
  ∧ (0 <? dec) = true ∧ (dec <? 1) = true
  ∧ (0 <? max) = true ∧ (min <? max) = true ∧ (0 <? min) = true.

(** No clipping, no regularization and no noise are configured. *)
Definition plain (l : Learner) : Prop :=
  (gradientClippingThresholdPerSample (m_additionalOptions l) =? infinity) = true
  ∧ (0 <? l2RegularizationWeight (m_additionalOptions l)) = false
  ∧ (0 <? noise_stdDev l) = false
  ∧ (0 <? l1RegularizationWeight (m_additionalOptions l)) = false.
End MoreVocabulary.

(** * Properties *)

(** ** Running computations; frame conditions *)

Lemma bind_run {S A B} (m : StateExn S A) (f : A → StateExn S B) (s : S) :
  (m ≫= f) s =
  match m s with
  | (inr a, s') => f a s'
  | (inl e, s') => (inl e, s')
  end.
Proof. reflexivity. Qed.

Create HintDb frame discriminated.

Section Frame.
Context {S X : Type} (proj : S → X).

Lemma preserves_ret {A} (a : A) : preserves proj (mret a).
Proof. by intros s. Qed.

Lemma preserves_throw {A} (e : Exception) : preserves proj (@throw S A e).
Proof. by intros s. Qed.

Lemma preserves_lift {A} (r : Result A) : preserves proj (@lift S A r).
Proof. by intros s. Qed.

Lemma preserves_get : preserves proj (@get S).
Proof. by intros s. Qed.

Lemma preserves_modify (f : S → S) :
  (∀ s, proj (f s) = proj s) → preserves proj (modify f).
Proof. intros Hf s. apply Hf. Qed.

Lemma preserves_bind {A B} (m : StateExn S A) (f : A → StateExn S B) :
  preserves proj m → (∀ a, preserves proj (f a)) → preserves proj (m ≫= f).
Proof.
  intros Hm Hf s. rewrite bind_run. specialize (Hm s).
  destruct (m s) as [[e|a] s']; simpl in *; [done|].
  rewrite Hf. done.
Qed.

Lemma preserves_for_each {A} (xs : list A) (body : A → StateExn S unit) :
  (∀ x, preserves proj (body x)) → preserves proj (for_each xs body).
Proof.
  intros Hbody. induction xs as [|x xs IH]; simpl.
  - apply preserves_ret.
  - apply preserves_bind; auto.
Qed.
End Frame.

Lemma preserves_this {X} (proj : World → X) : preserves proj this.
Proof. by intros w. Qed.

Global Hint Resolve preserves_ret preserves_throw preserves_lift preserves_get
  preserves_this preserves_modify preserves_bind preserves_for_each : frame.

(** Splits a computation along its binds and branches, leaving the state
    updates to [tac]. *)
Ltac frame_with tac :=
  repeat match goal with
    | |- preserves _ (let _ := _ in _) => cbv zeta
    | |- preserves _ (mret _) => apply preserves_ret
    | |- preserves _ (throw _) => apply preserves_throw
    | |- preserves _ (lift _) => apply preserves_lift
    | |- preserves _ get => apply preserves_get
    | |- preserves _ this => apply preserves_this
    | |- preserves _ (mbind _ _) => apply preserves_bind; [|intros ?]
    | |- preserves _ (for_each _ _) => apply preserves_for_each; intros ?
    | |- preserves _ (modify _) => apply preserves_modify; intros ?; tac
    | |- preserves _ (if ?c then _ else _) => destruct c
    | |- preserves _ (match ?x with _ => _ end) => destruct x
    end.

Lemma RecordValueUpdate_preserves {X} (proj : World → X) paramRef :
  (∀ f w, proj (with_valueUpdates f w) = proj w) →
  preserves proj (RecordValueUpdate paramRef).
Proof.
  intros Hproj. unfold RecordValueUpdate. apply preserves_modify.
  intros w. apply Hproj.
Qed.

Section UpdateProperties.
Context `{Externals}.

Lemma Report_preserves_training_state schedule name :
  preserves training_state_of (ReportTrainingParameterValue schedule name).
Proof. unfold ReportTrainingParameterValue. frame_with done. Qed.

Lemma Report_returns schedule name w :
  (ReportTrainingParameterValue schedule name w).1 = inr tt.
Proof.
  unfold ReportTrainingParameterValue. rewrite bind_run. simpl.
  destruct (m_trainingParametersMap (learner w) !! name) as [r|]; [|done].
  by destruct (negb _).
Qed.

Lemma Report_run schedule name w :
  ∃ w', ReportTrainingParameterValue schedule name w = (inr tt, w')
        ∧ training_state_of w' = training_state_of w
        ∧ kind (learner w') = kind (learner w).
Proof.
  pose proof (Report_returns schedule name w) as Hr.
  pose proof (Report_preserves_training_state schedule name w) as Hp.
  assert (Hk : preserves (λ w, kind (learner w))
                 (ReportTrainingParameterValue schedule name)).
  { unfold ReportTrainingParameterValue. frame_with done. }
  specialize (Hk w).
  destruct (ReportTrainingParameterValue schedule name w) as [r w'].
  simpl in *. subst r. eauto.
Qed.

Lemma LearningRatePerSample_training_state w w' n :
  training_state_of w' = training_state_of w →
  LearningRatePerSample (learner w') n = LearningRatePerSample (learner w) n.
Proof.
  unfold training_state_of, counters, counters_of, LearningRatePerSample.
  intros [= _ _ -> _ -> -> _ _]. done.
Qed.

Lemma LearnerBase_Update_zero_rate n sweepEnd w :
  (LearningRatePerSample (learner w) n =? 0)%float = true →
  ∃ w', LearnerBase_Update n sweepEnd w = (inr false, w')
        ∧ training_state_of w' = training_state_of w.
Proof.
  intros Hrate. unfold LearnerBase_Update.
  rewrite bind_run. unfold this at 1. rewrite bind_run.
  destruct (Report_run (m_learningRateSchedule (learner w)) "Learning rate" w)
    as (w' & -> & Hts & _).
  rewrite bind_run. unfold this at 1.
  rewrite (LearningRatePerSample_training_state _ _ _ Hts), Hrate.
  exists w'. split; [reflexivity | exact Hts].
Qed.

Lemma LearnerUniversal_Update_zero_rate n sweepEnd w :
  (LearningRatePerSample (learner w) n =? 0)%float = true →
  ∃ w', LearnerUniversal_Update n sweepEnd w = (inr false, w')
        ∧ training_state_of w' = training_state_of w.
Proof.
  intros Hrate. unfold LearnerUniversal_Update.
  rewrite bind_run. unfold this at 1. rewrite bind_run.
  destruct (Report_run (m_learningRateSchedule (learner w)) "Learning rate" w)
    as (w' & -> & Hts & _).
  rewrite bind_run. unfold this at 1.
  rewrite (LearningRatePerSample_training_state _ _ _ Hts), Hrate.
  exists w'. split; [reflexivity | exact Hts].
Qed.

(** Binding the caller's gradient map and dispatching on the class. *)
Lemma Update_dispatch gradients n sweepEnd w :
  Update gradients n sweepEnd w =
  let w0 := with_gradientValues (λ _, gradients) w in
  match kind (learner w) with
  | LearnerUniversal => LearnerUniversal_Update n sweepEnd w0
  | _ => LearnerBase_Update n sweepEnd w0
  end.
Proof.
  unfold Update, mbind, StateExn_bind, modify, this. cbn [learner with_gradientValues].
  destruct (kind (learner w)); reflexivity.
Qed.

Lemma Update_zero_rate gradients n sweepEnd w :
  (LearningRatePerSample (learner w) n =? 0)%float = true →
  ∃ w', Update gradients n sweepEnd w = (inr false, w')
        ∧ training_state_of w' = training_state_of w.
Proof.
  intros Hrate. rewrite Update_dispatch. cbv zeta.
  set (w0 := with_gradientValues (λ _, gradients) w).
  assert (Hrate0 : (LearningRatePerSample (learner w0) n =? 0)%float = true) by done.
  change (training_state_of w) with (training_state_of w0).
  destruct (kind (learner w));
    auto using LearnerBase_Update_zero_rate, LearnerUniversal_Update_zero_rate.
Qed.

(** C1. If the learning rate per sample that [Update] computes from the
    schedule at the current counters is exactly zero, then
    [Update(gradients, sampleCount, sweepEnd)] returns [false], for every
    class of learner, and the parameter values, the smoothed-gradient
    tensors and the sample, minibatch and sweep counts are what they were
    before the call. *)
Theorem Update_zero_learning_rate_is_noop gradients n sweepEnd w :
  (LearningRatePerSample (learner w) n =? 0)%float = true →
  ∃ w', Update gradients n sweepEnd w = (inr false, w')
        ∧ values w' = values w
        ∧ m_smoothedGradientValues (learner w') = m_smoothedGradientValues (learner w)
        ∧ m_sampleCount (learner w') = m_sampleCount (learner w)
        ∧ m_minibatchCount (learner w') = m_minibatchCount (learner w)
        ∧ m_sweepCount (learner w') = m_sweepCount (learner w).
Proof.
  intros Hrate.
  destruct (Update_zero_rate gradients n sweepEnd w Hrate) as (w' & -> & Hts).
  exists w'. split; [done|].
  unfold training_state_of, counters, counters_of in Hts.
  injection Hts as Hv Hs Hc1 Hc2 Hc3 _ _ _. auto.
Qed.

(** C2 (as amended). [Update] with [sampleCount == 0] tests the learning
    rate first: when the rate per sample at the current counters is not
    exactly zero the call fails with [InvalidArgument]; when it is
    exactly zero the call returns [false] and raises nothing.  Either
    way the parameters, smoothed gradients and counters are untouched. *)
Theorem Update_empty_minibatch gradients sweepEnd w :
  ∃ w', Update gradients 0 sweepEnd w
        = (if (LearningRatePerSample (learner w) 0 =? 0)%float
           then inr false
           else inl (InvalidArgument
                  "Learner::Update() cannot perform an update with an empty minibatch."),
           w')
        ∧ training_state_of w' = training_state_of w.
Proof.
  destruct (LearningRatePerSample (learner w) 0 =? 0)%float eqn:Hrate.
  { by apply Update_zero_rate. }
  rewrite Update_dispatch. cbv zeta.
  set (w0 := with_gradientValues (λ _, gradients) w).
  destruct (Report_run (m_learningRateSchedule (learner w0)) "Learning rate" w0)
    as (w' & Hrep & Hts & _).
  assert (Hrate' : (LearningRatePerSample (learner w') 0 =? 0)%float = false).
  { by rewrite (LearningRatePerSample_training_state _ _ _ Hts). }
  exists w'. split; [|done].
  destruct (kind (learner w));
    unfold LearnerBase_Update, LearnerUniversal_Update;
    rewrite bind_run; unfold this at 1; rewrite bind_run, Hrep;
    rewrite bind_run; unfold this at 1; rewrite Hrate'; reflexivity.
Qed.

(** *** The counters across [Update] *)

Lemma UpdateOnMinibatch_counters n l :
  counters_of (UpdateOnMinibatch n l) = counters_of l.
Proof. unfold UpdateOnMinibatch. by destruct (kind l). Qed.

Lemma ReportTrainingParameterValue_counters schedule name :
  preserves counters (ReportTrainingParameterValue schedule name).
Proof. unfold ReportTrainingParameterValue. frame_with done. Qed.

Lemma PreProcess_counters et parameter n :
  preserves counters (PreProcess et parameter n).
Proof.
  unfold PreProcess, gradient_of, value_of, write_gradient. frame_with done.
Qed.

Lemma PostProcess_counters et parameter n :
  preserves counters (PostProcess et parameter n).
Proof. unfold PostProcess, value_of, write_value. frame_with done. Qed.

Lemma Update_kernel_counters et parameter n :
  preserves counters (Update_kernel et parameter n).
Proof.
  unfold Update_kernel, gradient_of, value_of, smoothed_of,
    write_value, write_gradient, write_smoothed.
  frame_with done.
Qed.

Lemma DISPATCH_counters typed parameter :
  (∀ et, preserves counters (typed et)) →
  preserves counters (DISPATCH_TO_TYPED_UPDATE_FUNCTION typed parameter).
Proof.
  intros Htyped. unfold DISPATCH_TO_TYPED_UPDATE_FUNCTION, smoothed_of.
  frame_with done; apply Htyped.
Qed.

Lemma Update_parameter_counters parameter n :
  preserves counters (Update_parameter parameter n).
Proof.
  unfold Update_parameter.
  frame_with done;
    try apply ReportTrainingParameterValue_counters;
    apply DISPATCH_counters; intros; apply Update_kernel_counters.
Qed.

Lemma LearnerBase_Update_typed_counters et parameter n :
  preserves counters (LearnerBase_Update_typed et parameter n).
Proof.
  unfold LearnerBase_Update_typed. cbv zeta.
  assert (preserves counters (RecordValueUpdate parameter))
    by by apply RecordValueUpdate_preserves.
  auto using PreProcess_counters, Update_parameter_counters,
    PostProcess_counters with frame.
Qed.

Lemma LearnerBase_Update_counters n sweepEnd w r w' :
  LearnerBase_Update n sweepEnd w = (r, w') →
  counters w' = counters_after n sweepEnd r (counters w).
Proof.
  unfold LearnerBase_Update.
  rewrite bind_run. unfold this at 1. rewrite bind_run.
  pose proof (ReportTrainingParameterValue_counters
                (m_learningRateSchedule (learner w)) "Learning rate" w) as Hrep.
  destruct (ReportTrainingParameterValue _ _ w) as [[e|[]] w1]; simpl in Hrep;
    [intros [= <- <-]; by rewrite <- Hrep|].
  rewrite bind_run. unfold this at 1.
  destruct (_ =? 0)%float; [intros [= <- <-]; by rewrite <- Hrep|].
  destruct (n =? 0); [intros [= <- <-]; by rewrite <- Hrep|].
  rewrite bind_run. unfold modify at 1.
  set (w2 := with_learner (UpdateOnMinibatch n) w1).
  assert (Hw2 : counters w2 = counters w).
  { rewrite <- Hrep. apply UpdateOnMinibatch_counters. }
  rewrite bind_run. unfold this at 1. rewrite bind_run.
  match goal with |- context [for_each ?xs ?body w2] =>
    assert (Hloop : preserves counters (for_each xs body));
    [|specialize (Hloop w2); destruct (for_each xs body w2) as [[e|[]] w3]]
  end.
  { unfold smoothed_of, gradient_of. frame_with done.
    apply DISPATCH_counters. intros. apply LearnerBase_Update_typed_counters. }
  - intros [= <- <-]. simpl in *. congruence.
  - simpl in Hloop. rewrite bind_run. unfold modify at 1.
    intros [= <- <-]. rewrite <- Hw2, <- Hloop. reflexivity.
Qed.

Lemma LearnerUniversal_Update_counters n sweepEnd w r w' :
  LearnerUniversal_Update n sweepEnd w = (r, w') →
  counters w' = counters_after n sweepEnd r (counters w).
Proof.
  unfold LearnerUniversal_Update.
  rewrite bind_run. unfold this at 1. rewrite bind_run.
  pose proof (ReportTrainingParameterValue_counters
                (m_learningRateSchedule (learner w)) "Learning rate" w) as Hrep.
  destruct (ReportTrainingParameterValue _ _ w) as [[e|[]] w1]; simpl in Hrep;
    [intros [= <- <-]; by rewrite <- Hrep|].
  rewrite bind_run. unfold this at 1.
  destruct (_ =? 0)%float; [intros [= <- <-]; by rewrite <- Hrep|].
  destruct (n =? 0); [intros [= <- <-]; by rewrite <- Hrep|].
  rewrite bind_run.
  match goal with |- context [for_each ?xs ?body w1] =>
    assert (Hloop : preserves counters (for_each xs body));
    [|specialize (Hloop w1); destruct (for_each xs body w1) as [[e|[]] w2]]
  end.
  { unfold gradient_of. frame_with done. }
  { intros [= <- <-]. simpl in *. congruence. }
  simpl in Hloop. rewrite bind_run.
  destruct (m_update_func (learner w1)) as [f|];
    [|intros [= <- <-]; simpl; congruence].
  unfold mret at 1, StateExn_ret at 1.
  rewrite bind_run. unfold get at 1. rewrite bind_run. unfold lift at 1.
  destruct (Forward f (values w2)) as [e|values'];
    [intros [= <- <-]; simpl; congruence|].
  rewrite bind_run. unfold modify at 1. rewrite bind_run. unfold modify at 1.
  intros [= <- <-]. rewrite <- Hrep, <- Hloop. reflexivity.
Qed.

Lemma Update_counters gradients n sweepEnd w r w' :
  Update gradients n sweepEnd w = (r, w') →
  counters w' = counters_after n sweepEnd r (counters w).
Proof.
  rewrite Update_dispatch. cbv zeta.
  destruct (kind (learner w)); intros Hrun;
    first [apply LearnerBase_Update_counters in Hrun
          |apply LearnerUniversal_Update_counters in Hrun]; exact Hrun.
Qed.
End UpdateProperties.

(** ** Replacing the learning-rate schedule *)

Lemma size_t_add_small a b :
  a + b < size_t.modulus → size_t.add a b = a + b.
Proof. intros. unfold size_t.add, size_t.wrap. by apply N.mod_small. Qed.

Lemma size_t_add_cases a b :
  a < size_t.modulus → b < size_t.modulus →
  size_t.add a b = a + b ∨ size_t.add a b + size_t.modulus = a + b.
Proof.
  intros Ha Hb. destruct (decide (a + b < size_t.modulus)) as [Hs|Hs].
  - left. by apply size_t_add_small.
  - right. unfold size_t.add, size_t.wrap.
    assert (Hm : size_t.modulus ≠ 0) by done.
    assert (Heq : a + b = (a + b - size_t.modulus) + 1 * size_t.modulus) by lia.
    rewrite Heq at 1. rewrite N.Div0.mod_add.
    rewrite N.mod_small; lia.
Qed.

Lemma size_t_add_inj a b b' :
  a < size_t.modulus → b < size_t.modulus → b' < size_t.modulus →
  size_t.add a b = size_t.add a b' → b = b'.
Proof.
  intros Ha Hb Hb' Heq.
  destruct (size_t_add_cases a b Ha Hb), (size_t_add_cases a b' Ha Hb'); lia.
Qed.

Lemma size_t_add_0_r a : a < size_t.modulus → size_t.add a 0 = a.
Proof. intros. rewrite size_t_add_small; lia. Qed.

Section Lookup.
Context {T : Type}.

Lemma greatest_in_Some ks t k :
  greatest_in ks t = Some k →
  k ∈ ks ∧ k ≤ t ∧ ∀ k', k' ∈ ks → k' ≤ t → k' ≤ k.
Proof.
  revert k. induction ks as [|k0 ks IH]; intros k; simpl; [done|].
  destruct (decide (k0 ≤ t)) as [Hle|Hgt].
  - destruct (greatest_in ks t) as [g|] eqn:Hg; simpl; intros [= <-].
    + destruct (IH g eq_refl) as (Hin & Hgt & Hmax).
      split_and!.
      * destruct (N.max_spec k0 g) as [[_ ->]|[_ ->]]; [by right|by left].
      * lia.
      * intros k' [->|Hk']%elem_of_cons Hk't; [lia|].
        specialize (Hmax k' Hk' Hk't). lia.
    + split_and!; [by left|done|].
      intros k' [->|Hk']%elem_of_cons Hk't; [done|].
      exfalso. clear IH. induction ks as [|k1 ks IH]; [by inversion Hk'|].
      simpl in Hg. destruct (decide (k1 ≤ t)); [done|].
      apply elem_of_cons in Hk' as [->|Hk']; [done|]. by apply IH.
  - intros Hg. destruct (IH k Hg) as (Hin & Hkt & Hmax).
    split_and!; [by right|done|].
    intros k' [->|Hk']%elem_of_cons Hk't; [done|]. by apply Hmax.
Qed.

Lemma greatest_in_is_Some ks t :
  t ∈ ks → greatest_in ks t = Some t.
Proof.
  intros Hin.
  assert (is_Some (greatest_in ks t)) as [k Hk].
  { induction ks as [|k0 ks IH]; [by inversion Hin|]. simpl.
    destruct (decide (k0 ≤ t)); [by eexists|].
    apply elem_of_cons in Hin as [->|Hin]; [lia|by apply IH]. }
  rewrite Hk. f_equal.
  apply greatest_in_Some in Hk as (_ & Hle & Hmax).
  specialize (Hmax t Hin). lia.
Qed.

(** The lookup returns the value at the greatest key not above [t]. *)
Lemma valueAt_spec (s : TrainingParameterSchedule T) t v :
  valueAt s t = Some v ↔
  ∃ k, m_schedule s !! k = Some v ∧ k ≤ t
       ∧ ∀ k', is_Some (m_schedule s !! k') → k' ≤ t → k' ≤ k.
Proof.
  unfold valueAt, greatest_key_le. fold (greatest_in (map_to_list (m_schedule s)).*1 t).
  assert (Hkeys : ∀ k, k ∈ (map_to_list (m_schedule s)).*1 ↔ is_Some (m_schedule s !! k)).
  { intros k. rewrite list_elem_of_fmap. split.
    - intros ([k' v'] & -> & Hin). apply elem_of_map_to_list in Hin. by eexists.
    - intros [v' Hv']. exists (k, v'). split; [done|]. by apply elem_of_map_to_list. }
  split.
  - destruct (greatest_in _ t) as [k|] eqn:Hg; simpl; [|done].
    intros Hv. exists k. apply greatest_in_Some in Hg as (_ & Hle & Hmax).
    split_and!; [done..|]. intros k' Hk'. apply Hmax. by apply Hkeys.
  - intros (k & Hv & Hle & Hmax).
    destruct (greatest_in _ t) as [g|] eqn:Hg; simpl.
    + apply greatest_in_Some in Hg as (Hin & Hgle & Hgmax).
      assert (g = k) as ->; [|done].
      apply Hkeys in Hin. specialize (Hmax g Hin Hgle).
      assert (k ≤ g); [|lia]. apply Hgmax; [|done]. apply Hkeys. by eexists.
    + exfalso. assert (Hin : k ∈ (map_to_list (m_schedule s)).*1).
      { apply Hkeys. by eexists. }
      clear -Hg Hin Hle. induction (map_to_list (m_schedule s)).*1 as [|k0 ks IH];
        [by inversion Hin|].
      simpl in Hg. destruct (decide (k0 ≤ t)); [done|].
      apply elem_of_cons in Hin as [->|Hin]; [done|]. by apply IH.
Qed.

Lemma valueAt_at_key (s : TrainingParameterSchedule T) t v :
  m_schedule s !! t = Some v → valueAt s t = Some v.
Proof.
  intros Hv. apply valueAt_spec. exists t. split_and!; [done|lia|auto].
Qed.
End Lookup.

Lemma shift_entries_epochSize f kvs active :
  m_epochSize (shift_entries f kvs active) = m_epochSize active.
Proof. revert active. induction kvs as [|kv kvs IH]; intros; simpl; [done|]. by rewrite IH. Qed.

Lemma shift_entries_other f kvs active j :
  (∀ k, k ∈ kvs.*1 → f k ≠ j) →
  m_schedule (shift_entries f kvs active) !! j = m_schedule active !! j.
Proof.
  revert active. induction kvs as [|[k v] kvs IH]; intros active Hj; simpl; [done|].
  rewrite IH.
  - simpl. apply lookup_insert_ne, Hj. by left.
  - intros k' Hk'. apply Hj. by right.
Qed.

Lemma shift_entries_lookup f kvs active k v :
  NoDup (f <$> kvs.*1) → (k, v) ∈ kvs →
  m_schedule (shift_entries f kvs active) !! f k = Some v.
Proof.
  revert active. induction kvs as [|[k0 v0] kvs IH]; intros active Hnd Hin; simpl.
  { by inversion Hin. }
  simpl in Hnd. apply NoDup_cons in Hnd as [Hk0 Hnd].
  apply elem_of_cons in Hin as [[= -> ->]|Hin]; [|by apply IH].
  rewrite shift_entries_other.
  - simpl. apply lookup_insert_eq.
  - intros k' Hk' Heq. apply Hk0. rewrite <- Heq. by apply list_elem_of_fmap_2.
Qed.

Lemma entries_elem_of (m : gmap N Rate) k v :
  (k, v) ∈ entries m ↔ m !! k = Some v.
Proof.
  unfold entries. rewrite merge_sort_Permutation. apply elem_of_map_to_list.
Qed.

Lemma elem_of_keys {V} (kvs : list (N * V)) k :
  k ∈ kvs.*1 → ∃ v, (k, v) ∈ kvs.
Proof. intros ([k' v] & -> & Hin)%list_elem_of_fmap. by exists v. Qed.

Lemma entries_NoDup_keys (m : gmap N Rate) : NoDup (entries m).*1.
Proof.
  unfold entries. rewrite merge_sort_Permutation. apply NoDup_fst_map_to_list.
Qed.

Section ScheduleReplacement.
Context `{Externals}.

Lemma ResetLearningRate_schedule new l :
  m_learningRateSchedule (ResetLearningRate (other_schedule new) l)
  = shift_entries (size_t.add (currentCount new l)) (entries (m_schedule new))
                  (mkSchedule ∅ (m_epochSize new)).
Proof. reflexivity. Qed.

Lemma ResetLearningRate_counters new l :
  counters_of (ResetLearningRate new l) = counters_of l.
Proof. reflexivity. Qed.

Lemma shifted_keys_NoDup new t0 :
  keys_representable new → t0 < size_t.modulus →
  NoDup (size_t.add t0 <$> (entries (m_schedule new)).*1).
Proof.
  intros Hkeys Ht0. apply NoDup_fmap_2_strong; [|apply entries_NoDup_keys].
  intros k k' [v Hk]%elem_of_keys [v' Hk']%elem_of_keys.
  apply entries_elem_of in Hk, Hk'.
  apply size_t_add_inj; [done|by eapply Hkeys..].
Qed.

(** C6. [ResetLearningRate(newSchedule)], called with a schedule object
    other than the learner's own [m_learningRateSchedule], leaves as the
    active schedule exactly the entries of the new one, each stored at
    the key [currentCount + relativeTime] computed on [size_t], where
    [currentCount] is the sweep count if the schedule is sweep-based and
    the sample count otherwise; the key is the plain sum whenever that
    fits a [size_t].  Consequently, when the new schedule has an entry at
    relative time 0, looking the active schedule up at the current count
    gives that entry's value. *)
Theorem ResetLearningRate_shifts_schedule (new : LearningRateSchedule) (l : Learner) :
  let currentElapsedUnits := currentCount new l in
  let active :=
    m_learningRateSchedule (ResetLearningRate (other_schedule new) l) in
  keys_representable new →
  currentElapsedUnits < size_t.modulus →
  (∀ key v, m_schedule active !! key = Some v ↔
            ∃ relativeTime, m_schedule new !! relativeTime = Some v
                            ∧ key = size_t.add currentElapsedUnits relativeTime)
  ∧ (∀ relativeTime v,
       m_schedule new !! relativeTime = Some v →
       currentElapsedUnits + relativeTime < size_t.modulus →
       m_schedule active !! (currentElapsedUnits + relativeTime) = Some v)
  ∧ (∀ v, m_schedule new !! 0 = Some v →
          valueAt active currentElapsedUnits = Some v)
  ∧ m_epochSize active = m_epochSize new.
Proof.
  intros t0 active Hkeys Ht0. subst active. rewrite ResetLearningRate_schedule.
  fold t0. pose proof (shifted_keys_NoDup new t0 Hkeys Ht0) as Hnd.
  assert (Hfwd : ∀ k v, m_schedule new !! k = Some v →
            m_schedule (shift_entries (size_t.add t0) (entries (m_schedule new))
                          (mkSchedule ∅ (m_epochSize new))) !! size_t.add t0 k = Some v).
  { intros k v Hk. apply shift_entries_lookup; [done|]. by apply entries_elem_of. }
  split_and!.
  - intros key v. split; [|by intros (k & Hk & ->); apply Hfwd].
    intros Hkey.
    destruct (decide (key ∈ size_t.add t0 <$> (entries (m_schedule new)).*1))
      as [Hin|Hout].
    + apply list_elem_of_fmap in Hin as (k & -> & [v' Hk]%elem_of_keys).
      apply entries_elem_of in Hk. exists k. split; [|done].
      rewrite (Hfwd k v' Hk) in Hkey. congruence.
    + rewrite shift_entries_other in Hkey; [done|].
      intros k Hk <-. apply Hout. by apply list_elem_of_fmap_2.
  - intros k v Hk Hfit. rewrite <- (size_t_add_small t0 k Hfit). by apply Hfwd.
  - intros v Hv. apply valueAt_at_key.
    specialize (Hfwd 0 v Hv). by rewrite (size_t_add_0_r t0 Ht0) in Hfwd.
  - by rewrite shift_entries_epochSize.
Qed.
End ScheduleReplacement.

(** ** The elapsed counters *)

Section Counters.
Context `{Externals}.

Lemma ResetSmoothedGradients_counters :
  preserves counters_of ResetSmoothedGradients.
Proof.
  unfold ResetSmoothedGradients, LearnerBase_ResetSmoothedGradients.
  frame_with done. unfold reset_entry. frame_with done.
Qed.

(** C7 (as amended). Whatever [Update] does, it changes the counters only
    when it returns [true], and then the sample count grows by
    [sampleCount], the minibatch count by 1 and the sweep count by 1
    exactly when [sweepEnd] is set (the sums being those of [size_t],
    exact as long as no counter wraps).  [ResetLearningRate] and
    [ResetSmoothedGradients] leave the counters alone.  So across these
    operations the counters never decrease; [RestoreFromCheckpoint] is
    the operation that may set them back. *)
Theorem Update_advances_counters gradients n sweepEnd w r w' new :
  Update gradients n sweepEnd w = (r, w') →
  m_sampleCount (learner w) + n < size_t.modulus →
  m_minibatchCount (learner w) + 1 < size_t.modulus →
  m_sweepCount (learner w) + 1 < size_t.modulus →
  match r with
  | inr true =>
      m_sampleCount (learner w') = m_sampleCount (learner w) + n
      ∧ m_minibatchCount (learner w') = m_minibatchCount (learner w) + 1
      ∧ m_sweepCount (learner w')
        = m_sweepCount (learner w) + (if sweepEnd then 1 else 0)
  | _ => counters w' = counters w
  end
  ∧ (m_sampleCount (learner w) ≤ m_sampleCount (learner w')
     ∧ m_minibatchCount (learner w) ≤ m_minibatchCount (learner w')
     ∧ m_sweepCount (learner w) ≤ m_sweepCount (learner w'))
  ∧ counters_of (ResetLearningRate new (learner w)) = counters w
  ∧ counters_of (ResetSmoothedGradients (learner w)).2 = counters w.
Proof.
  intros Hrun Hs Hmb Hsw. apply Update_counters in Hrun.
  assert (Hadv : counters_after n sweepEnd (inr true) (counters w)
                 = (m_sampleCount (learner w) + n,
                    m_minibatchCount (learner w) + 1,
                    m_sweepCount (learner w) + (if sweepEnd then 1 else 0))).
  { unfold counters_after, advanced, counters, counters_of, size_t.incr. simpl.
    rewrite !size_t_add_small by done.
    destruct sweepEnd; [done|]. by rewrite N.add_0_r. }
  split; [|split; [|split]].
  - destruct r as [e|[|]]; [done| |done].
    rewrite Hadv in Hrun. by injection Hrun as E1 E2 E3.
  - destruct r as [e|[|]]; [|rewrite Hadv in Hrun|];
      injection Hrun as E1 E2 E3; rewrite E1, E2, E3;
      try destruct sweepEnd; lia.
  - apply ResetLearningRate_counters.
  - apply ResetSmoothedGradients_counters.
Qed.
End Counters.

(** ** Checkpoints *)

Lemma for_each_fails {S A} (Inv : S → Prop) (xs : list A)
    (body : A → StateExn S unit) (x0 : A) :
  x0 ∈ xs →
  (∀ x s, Inv s → Inv (body x s).2) →
  (∀ s, Inv s → ∃ e, (body x0 s).1 = inl e) →
  ∀ s, Inv s → ∃ e, (for_each xs body s).1 = inl e.
Proof.
  intros Hin Hinv Hfail. induction xs as [|x xs IH]; intros s Hs.
  { by inversion Hin. }
  simpl. rewrite bind_run.
  pose proof (Hinv x s Hs) as Hs'.
  destruct (body x s) as [[e|[]] s'] eqn:Hrun; [by exists e|].
  apply elem_of_cons in Hin as [->|Hin].
  - destruct (Hfail s Hs) as [e He]. rewrite Hrun in He. done.
  - by apply IH.
Qed.

Lemma CopyFrom_same_layout src dst :
  same_layout dst src → CopyFrom src dst = src.
Proof. destruct src, dst. intros [Hd Hs]. simpl in *. by subst. Qed.

Lemma SetValue_same_layout x v : same_layout (SetValue x v) v.
Proof. done. Qed.

Lemma SetValue_idemp x v : SetValue x (SetValue x v) = SetValue x v.
Proof.
  unfold SetValue. simpl. f_equal. rewrite <- list_fmap_compose.
  by apply list_fmap_ext.
Qed.

Lemma foldl_alter_lookup {V} (f : V → V) (kvs : list (string * V))
    (m : gmap string V) (i : string) :
  (∀ v, f (f v) = f v) →
  foldl (λ m kv, alter f kv.1 m) m kvs !! i
  = if decide (i ∈ kvs.*1) then f <$> m !! i else m !! i.
Proof.
  intros Hf. revert m. induction kvs as [|[k v] kvs IH]; intros m.
  { destruct (decide _) as [Hin|]; [by apply elem_of_nil in Hin|done]. }
  cbn [foldl]. rewrite IH, fmap_cons. cbn [fst].
  destruct (decide (k = i)) as [->|Hne].
  - rewrite lookup_alter_eq. rewrite (decide_True (P := i ∈ i :: kvs.*1)) by (by left).
    destruct (decide (i ∈ kvs.*1)); [|done].
    destruct (m !! i); simpl; [|done]. by rewrite Hf.
  - rewrite lookup_alter_ne by done.
    destruct (decide (i ∈ kvs.*1)) as [Hin|Hin].
    + rewrite decide_True; [done|]. by right.
    + rewrite decide_False; [done|].
      intros [->|?]%elem_of_cons; done.
Qed.

Lemma at_key_Some {V} (m : gmap string V) key v :
  m !! key = Some v → at_key m key = inr v.
Proof. unfold at_key. by intros ->. Qed.

Lemma at_key_None {V} (m : gmap string V) key :
  m !! key = None → at_key m key = inl (out_of_range key).
Proof. unfold at_key. by intros ->. Qed.

Lemma Learner_eq (l l' : Learner) :
  kind l = kind l' → m_parameters l = m_parameters l' →
  m_learningRateSchedule l = m_learningRateSchedule l' →
  m_sampleCount l = m_sampleCount l' → m_minibatchCount l = m_minibatchCount l' →
  m_sweepCount l = m_sweepCount l' →
  m_additionalOptions l = m_additionalOptions l' →
  m_smoothedGradientValues l = m_smoothedGradientValues l' →
  m_noiseInjectionSeed l = m_noiseInjectionSeed l' →
  m_trainingParametersMap l = m_trainingParametersMap l' →
  m_smoothedCount l = m_smoothedCount l' →
  m_targetAdagradAvDenom_x_sqrtAdagradSqrFrames l
  = m_targetAdagradAvDenom_x_sqrtAdagradSqrFrames l' →
  m_parameter_gradient_map l = m_parameter_gradient_map l' →
  m_update_func l = m_update_func l' →
  l = l'.
Proof. destruct l, l'. simpl. by intros; subst. Qed.

Lemma set_smoothedGradientValues_id l :
  set_smoothedGradientValues (m_smoothedGradientValues l) l = l.
Proof. by destruct l. Qed.

Section Checkpoint.
Context `{Externals}.

(** *** Zeroing the smoothed gradients *)

Lemma reset_loop kvs l :
  Forall (λ kv : string * NDArrayView, GetDataType kv.2 ≠ Unknown) kvs →
  for_each kvs reset_entry l
  = (inr tt,
     set_smoothedGradientValues
       (foldl (λ m kv, alter (SetValue 0%float) kv.1 m)
              (m_smoothedGradientValues l) kvs) l).
Proof.
  intros Hty. revert l. induction Hty as [|kv kvs Hkv _ IH]; intros l.
  { simpl. by rewrite set_smoothedGradientValues_id. }
  cbn [for_each foldl]. rewrite bind_run.
  assert (reset_entry kv l
          = (inr tt, set_smoothedGradientValues
                       (alter (SetValue 0%float) kv.1 (m_smoothedGradientValues l)) l))
    as ->.
  { unfold reset_entry. destruct (GetDataType kv.2); by repeat case_decide. }
  by rewrite IH.
Qed.

Lemma LearnerBase_ResetSmoothedGradients_run l :
  map_Forall (λ _ v, GetDataType v ≠ Unknown) (m_smoothedGradientValues l) →
  LearnerBase_ResetSmoothedGradients l
  = (inr tt, set_smoothedGradientValues
               (SetValue 0%float <$> m_smoothedGradientValues l) l).
Proof.
  intros Hty. unfold LearnerBase_ResetSmoothedGradients.
  rewrite bind_run. unfold get at 1. rewrite reset_loop.
  - do 2 f_equal. apply map_eq. intros i.
    rewrite foldl_alter_lookup by apply SetValue_idemp.
    rewrite lookup_fmap. case_decide as Hin; [done|].
    destruct (m_smoothedGradientValues l !! i) as [v|] eqn:Hi; [|done].
    exfalso. apply Hin. apply list_elem_of_fmap. exists (i, v).
    split; [done|]. by apply elem_of_map_to_list.
  - apply Forall_forall. intros [k v] Hkv%elem_of_map_to_list. by eapply Hty.
Qed.

Lemma ResetSmoothedGradients_run l :
  map_Forall (λ _ v, GetDataType v ≠ Unknown) (m_smoothedGradientValues l) →
  ResetSmoothedGradients l
  = (inr tt,
     let zeroed := set_smoothedGradientValues
                     (SetValue 0%float <$> m_smoothedGradientValues l) l in
     if has_smoothedCount (kind l) then set_smoothedCount 0%float zeroed else zeroed).
Proof.
  intros Hty. unfold ResetSmoothedGradients.
  rewrite bind_run. unfold get at 1. rewrite bind_run.
  rewrite LearnerBase_ResetSmoothedGradients_run by done.
  by destruct (has_smoothedCount (kind l)).
Qed.

(** *** Restoring one parameter, then all of them *)

Lemma restore_parameter_run version checkpoint i parameter a z l :
  getSmoothedGradValue version checkpoint i parameter = inr (DV_NDArrayView a) →
  m_smoothedGradientValues l !! Uid parameter = Some z →
  same_layout z a →
  restore_parameter version checkpoint (i, parameter) l
  = (inr tt, set_smoothedGradientValues
               (<[Uid parameter := a]> (m_smoothedGradientValues l)) l).
Proof.
  intros Hget Hz [Hd Hs]. unfold restore_parameter.
  rewrite bind_run. unfold lift at 1. rewrite Hget.
  rewrite bind_run. unfold lift at 1. cbn [Value_NDArrayView].
  rewrite bind_run. unfold get at 1.
  rewrite bind_run. unfold lift at 1, at_key. rewrite Hz.
  rewrite !bool_decide_eq_true_2 by done. cbn [negb].
  unfold modify. by rewrite CopyFrom_same_layout.
Qed.

Lemma restore_loop version checkpoint (src : string → NDArrayView) ps n l :
  (∀ i p, ps !! i = Some p →
          getSmoothedGradValue version checkpoint (n + i) p
          = inr (DV_NDArrayView (src (Uid p)))) →
  (∀ p, p ∈ ps → ∃ z, m_smoothedGradientValues l !! Uid p = Some z
                      ∧ same_layout z (src (Uid p))) →
  for_each (imap (λ i, pair (n + i)%nat) ps) (restore_parameter version checkpoint) l
  = (inr tt, set_smoothedGradientValues
               (foldl (λ m p, <[Uid p := src (Uid p)]> m)
                      (m_smoothedGradientValues l) ps) l).
Proof.
  revert n l. induction ps as [|p ps IH]; intros n l Hget Hlay.
  { simpl. by rewrite set_smoothedGradientValues_id. }
  rewrite imap_cons. cbn [for_each foldl]. rewrite bind_run.
  destruct (Hlay p) as (z & Hz & Hzl); [by left|].
  rewrite Nat.add_0_r.
  rewrite (restore_parameter_run version checkpoint n p (src (Uid p)) z l);
    [|by rewrite <- (Hget 0%nat p), Nat.add_0_r|done..].
  rewrite (imap_ext _ (λ i, pair (S n + i)%nat)).
  2: { intros i q _. simpl. f_equal. lia. }
  rewrite IH; [done|..].
  - intros i q Hq. rewrite <- (Hget (S i) q Hq). f_equal. lia.
  - intros q Hq. cbn [m_smoothedGradientValues set_smoothedGradientValues].
    destruct (decide (Uid p = Uid q)) as [Heq|Hne].
    + rewrite Heq, lookup_insert_eq. by eexists.
    + rewrite lookup_insert_ne by done. apply Hlay. by right.
Qed.
(** *** A whole restore from a consistent checkpoint *)

Lemma ValidateDictionary_ok (checkpoint : Dictionary) keys version :
  checkpoint !! versionKey = Some (DV_SizeT version) →
  checkpoint !! typeKey = Some (DV_String s_learnerTypeValue) →
  Forall (λ k, is_Some (checkpoint !! k)) keys →
  ValidateDictionary checkpoint keys s_learnerTypeValue CurrentVersion = inr version.
Proof.
  intros Hv Ht Hkeys. unfold ValidateDictionary. rewrite Hv. simpl.
  assert (forallb (Contains checkpoint) keys = true) as ->.
  { apply forallb_forall. intros k Hk%list_elem_of_In.
    apply bool_decide_eq_true_2. by eapply Forall_forall in Hkeys. }
  rewrite Ht. cbn [Value_wstring mbind Result_bind]. by rewrite bool_decide_eq_true_2.
Qed.

Lemma RestoreFromCheckpoint_run checkpoint l version schedule sampleCount
    minibatchCount seed smoothedCount src :
  consistent checkpoint l version schedule sampleCount minibatchCount seed
             smoothedCount src →
  RestoreFromCheckpoint checkpoint l
  = (inr tt, restored schedule sampleCount minibatchCount seed smoothedCount src l).
Proof.
  intros [Hv Ht Hsc Hmc (d & Hd & Hdes) Hseed Hvec Hsrc Hlay Hcnt].
  unfold RestoreFromCheckpoint. rewrite bind_run.
  assert (LearnerBase_RestoreFromCheckpoint checkpoint l
          = (inr tt, restored schedule sampleCount minibatchCount seed
                              (m_smoothedCount l) src l)) as ->.
  { unfold LearnerBase_RestoreFromCheckpoint.
    rewrite bind_run. unfold lift at 1.
    rewrite (ValidateDictionary_ok checkpoint _ version Hv Ht).
    2: { unfold s_requiredDictionaryKeys. repeat constructor; by eexists. }
    rewrite bind_run.
    assert ((if 2 <=? version
             then lift (ValidateDictionary checkpoint [smoothedGradientsKey]
                          s_learnerTypeValue CurrentVersion);; mret ()
             else mret ()) l = (inr tt, l)) as ->.
    { destruct (2 <=? version) eqn:Hge; [|done].
      rewrite bind_run. unfold lift at 1.
      rewrite (ValidateDictionary_ok checkpoint _ version Hv Ht); [done|].
      repeat constructor. apply Hvec. by apply N.leb_le. }
    rewrite bind_run. unfold lift at 1. rewrite (at_key_Some _ _ _ Hsc). cbn [mbind Result_bind Value_size_t].
    rewrite bind_run. unfold modify at 1.
    rewrite bind_run. unfold lift at 1. rewrite (at_key_Some _ _ _ Hmc). cbn [mbind Result_bind Value_size_t].
    rewrite bind_run. unfold modify at 1.
    rewrite bind_run.
    set (l2 := set_counters _ minibatchCount _ _).
    assert ((if Contains checkpoint noiseInjectionSeedKey
             then seed0 ← lift (at_key checkpoint noiseInjectionSeedKey ≫= Value_size_t);
                  modify (set_noiseInjectionSeed seed0)
             else mret ()) l2
            = (inr tt, set_noiseInjectionSeed
                         (default (m_noiseInjectionSeed l) seed) l2)) as ->.
    { unfold Contains. destruct seed as [x|]; simpl in Hseed.
      - rewrite bool_decide_eq_true_2 by (by eexists).
        rewrite bind_run. unfold lift at 1. by rewrite (at_key_Some _ _ _ Hseed).
      - rewrite bool_decide_eq_false_2 by (rewrite Hseed; by intros [? ?]).
        subst l2. by destruct l. }
    rewrite bind_run. unfold lift at 1. rewrite (at_key_Some _ _ _ Hd).
    cbn [mbind Result_bind Value_Dictionary].
    rewrite bind_run. unfold lift at 1. rewrite Hdes.
    rewrite bind_run. unfold modify at 1.
    rewrite bind_run. unfold get at 1.
    set (l3 := set_learningRateSchedule schedule _).
    change (imap pair (Parameters l3))
      with (imap (λ i, pair (0 + i)%nat) (m_parameters l)).
    rewrite (restore_loop version checkpoint src (m_parameters l) 0 l3); [done|..].
    - intros i p Hp. by apply Hsrc.
    - intros p Hp. by apply Hlay. }
  rewrite bind_run. unfold get at 1.
  change (kind (restored _ _ _ _ _ _ l)) with (kind l).
  destruct (has_smoothedCount (kind l)).
  - rewrite bind_run. unfold lift at 1. by rewrite (at_key_Some _ _ _ Hcnt).
  - by rewrite Hcnt.
Qed.
(** *** What a checkpoint holds *)

Lemma serializeSmoothedGradients_run l ps :
  Forall (λ p, is_Some (m_smoothedGradientValues l !! Uid p)) ps →
  serializeSmoothedGradients (m_smoothedGradientValues l) ps
  = inr ((λ p, DV_NDArrayView (aux_of l (Uid p))) <$> ps).
Proof.
  induction 1 as [|p ps [a Ha] _ IH]; [done|].
  cbn [serializeSmoothedGradients]. rewrite (at_key_Some _ _ _ Ha).
  cbn [mbind Result_bind]. rewrite IH. cbn [mbind Result_bind].
  rewrite fmap_cons. do 3 f_equal. unfold aux_of. by rewrite Ha.
Qed.

Lemma CreateCheckpoint_run l :
  has_aux l →
  ∃ checkpoint,
    CreateCheckpoint l = inr checkpoint
    ∧ checkpoint !! versionKey = Some (DV_SizeT CurrentVersion)
    ∧ checkpoint !! typeKey = Some (DV_String s_learnerTypeValue)
    ∧ checkpoint !! sampleCountKey = Some (DV_SizeT (m_sampleCount l))
    ∧ checkpoint !! minibatchCountKey = Some (DV_SizeT (m_minibatchCount l))
    ∧ checkpoint !! learningRateScheduleKey
      = Some (DV_Dictionary (Serialize (m_learningRateSchedule l)))
    ∧ checkpoint !! noiseInjectionSeedKey = Some (DV_SizeT (m_noiseInjectionSeed l))
    ∧ checkpoint !! smoothedGradientsKey
      = Some (DV_Vector ((λ p, DV_NDArrayView (aux_of l (Uid p))) <$> Parameters l))
    ∧ (if has_smoothedCount (kind l)
       then checkpoint !! smoothedCountKey = Some (DV_Double (m_smoothedCount l))
       else checkpoint !! smoothedCountKey = None)
    ∧ (∀ key, is_Some (checkpoint !! key) → key ∈ checkpoint_keys).
Proof.
  intros Haux. unfold CreateCheckpoint, LearnerBase_CreateCheckpoint.
  rewrite (serializeSmoothedGradients_run l _ Haux). cbn [mbind Result_bind].
  unfold checkpoint_keys, versionKey, typeKey, sampleCountKey, minibatchCountKey,
    learningRateScheduleKey, noiseInjectionSeedKey, smoothedGradientsKey,
    smoothedCountKey.
  destruct (has_smoothedCount (kind l)); eexists; (split; [reflexivity|]);
    split_and!; try (by simplify_map_eq);
    intros key [v Hkey]; rewrite !lookup_insert, lookup_empty in Hkey;
    repeat case_decide; subst; try done; set_solver.
Qed.
(** C3 (as amended). For a learner holding a smoothed gradient for each of
    its parameters, [CreateCheckpoint] returns a dictionary with the
    format version, the type tag, the sample count, the minibatch count,
    the serialized learning-rate schedule, the noise-injection seed and
    the vector of the smoothed gradients, one per parameter in the order
    of [Parameters()]; the classes that carry a smoothed count
    (FSAdaGrad, Adam, RMSProp) add it under [smoothedCount] and the
    others have no such key; the dictionary has no other key than these,
    and in particular the sweep count is not written: the checkpoint is
    the same whatever the sweep count. *)
Theorem CreateCheckpoint_contents l :
  has_aux l →
  ∃ checkpoint,
    CreateCheckpoint l = inr checkpoint
    ∧ checkpoint !! versionKey = Some (DV_SizeT CurrentVersion)
    ∧ checkpoint !! typeKey = Some (DV_String s_learnerTypeValue)
    ∧ checkpoint !! sampleCountKey = Some (DV_SizeT (m_sampleCount l))
    ∧ checkpoint !! minibatchCountKey = Some (DV_SizeT (m_minibatchCount l))
    ∧ checkpoint !! learningRateScheduleKey
      = Some (DV_Dictionary (Serialize (m_learningRateSchedule l)))
    ∧ checkpoint !! noiseInjectionSeedKey = Some (DV_SizeT (m_noiseInjectionSeed l))
    ∧ (∃ serialized,
         checkpoint !! smoothedGradientsKey = Some (DV_Vector serialized)
         ∧ Forall2 (λ p v, ∃ a, m_smoothedGradientValues l !! Uid p = Some a
                                 ∧ v = DV_NDArrayView a)
                   (Parameters l) serialized)
    ∧ (if has_smoothedCount (kind l)
       then checkpoint !! smoothedCountKey = Some (DV_Double (m_smoothedCount l))
       else checkpoint !! smoothedCountKey = None)
    ∧ (∀ key, is_Some (checkpoint !! key) → key ∈ checkpoint_keys)
    ∧ (∀ sweepCount,
         CreateCheckpoint (set_counters (m_sampleCount l) (m_minibatchCount l)
                                        sweepCount l) = inr checkpoint).
Proof.
  intros Haux.
  destruct (CreateCheckpoint_run l Haux)
    as (checkpoint & Hrun & Hv & Ht & Hsc & Hmc & Hlr & Hseed & Hvec & Hcount
        & Hkeys).
  exists checkpoint. split_and!; try done.
  exists ((λ p, DV_NDArrayView (aux_of l (Uid p))) <$> Parameters l).
  split; [done|]. apply Forall2_fmap_r, Forall_Forall2_diag.
  eapply Forall_impl; [exact Haux|]. intros p [a Ha]. exists a.
  unfold aux_of. by rewrite Ha.
Qed.

(** *** Checkpoint, reset, restore *)

Lemma foldl_insert_lookup (src : string → NDArrayView) ps
    (m : gmap string NDArrayView) uid :
  foldl (λ m p, <[Uid p := src (Uid p)]> m) m ps !! uid
  = if decide (uid ∈ Uid <$> ps) then Some (src uid) else m !! uid.
Proof.
  revert m. induction ps as [|p ps IH]; intros m.
  { destruct (decide _) as [Hin|]; [by apply elem_of_nil in Hin|done]. }
  cbn [foldl]. rewrite IH, fmap_cons.
  destruct (decide (uid ∈ Uid <$> ps)) as [Hin|Hin].
  - rewrite decide_True; [done|]. by right.
  - destruct (decide (Uid p = uid)) as [<-|Hne].
    + rewrite lookup_insert_eq. rewrite decide_True; [done|]. by left.
    + rewrite lookup_insert_ne by done.
      rewrite decide_False; [done|]. intros [->|?]%elem_of_cons; done.
Qed.

Lemma restore_all_aux l (m0 : gmap string NDArrayView) :
  well_formed l →
  (∀ uid, m0 !! uid = None ↔ m_smoothedGradientValues l !! uid = None) →
  foldl (λ m p, <[Uid p := aux_of l (Uid p)]> m) m0 (Parameters l)
  = m_smoothedGradientValues l.
Proof.
  intros [Haux Honly _] Hdom. apply map_eq. intros uid.
  rewrite foldl_insert_lookup. case_decide as Hin.
  - apply list_elem_of_fmap in Hin as (p & -> & Hp).
    eapply Forall_forall in Haux as [a Ha]; [|done].
    unfold aux_of. by rewrite Ha.
  - destruct (m_smoothedGradientValues l !! uid) as [a|] eqn:Ha.
    + exfalso. apply Hin, Honly. by eexists.
    + by apply Hdom.
Qed.
Lemma getSmoothedGradValue_vector version (checkpoint : Dictionary) vs i p v :
  2 ≤ version →
  checkpoint !! smoothedGradientsKey = Some (DV_Vector vs) →
  vs !! i = Some v →
  getSmoothedGradValue version checkpoint i p = inr v.
Proof.
  intros Hge Hvec Hi. unfold getSmoothedGradValue.
  apply N.leb_le in Hge. rewrite Hge, (at_key_Some _ _ _ Hvec).
  cbn [mbind Result_bind Value_vector].
  rewrite bool_decide_eq_false_2, Hi; [done|].
  apply lookup_lt_Some in Hi. lia.
Qed.

(** The constructors build well-formed learners: the allocation loop gives
    every parameter a float or double tensor and nothing else. *)
Lemma allocate_loop (shape_of : Var → NDShape) ps (m0 : gmap string NDArrayView) :
  let m := fold_left (λ m p, emplace (Uid p) (AllocateNDArrayView p (shape_of p)) m)
                     ps m0 in
  (∀ p, p ∈ ps → is_Some (m !! Uid p))
  ∧ (∀ uid v, m !! uid = Some v →
              m0 !! uid = Some v ∨ uid ∈ Uid <$> ps ∧ GetDataType v ≠ Unknown)
  ∧ (∀ uid, is_Some (m0 !! uid) → is_Some (m !! uid)).
Proof.
  revert m0. induction ps as [|p ps IH]; intros m0; cbn [fold_left].
  { split_and!; [by intros p Hp%elem_of_nil|auto..]. }
  set (m1 := emplace (Uid p) (AllocateNDArrayView p (shape_of p)) m0).
  destruct (IH m1) as (Hhas & Honly & Hmono). cbv zeta.
  assert (Hp : is_Some (m1 !! Uid p)).
  { subst m1. unfold emplace. destruct (m0 !! Uid p) eqn:Hm0; [by rewrite Hm0|].
    rewrite lookup_insert_eq. by eexists. }
  assert (Hm1 : ∀ uid v, m1 !! uid = Some v →
                m0 !! uid = Some v ∨ uid = Uid p ∧ GetDataType v ≠ Unknown).
  { subst m1. unfold emplace. intros uid v. destruct (m0 !! Uid p) eqn:Hm0; [auto|].
    destruct (decide (Uid p = uid)) as [<-|Hne].
    - rewrite lookup_insert_eq. intros [= <-]. right. split; [done|].
      unfold AllocateNDArrayView. by case_decide.
    - rewrite lookup_insert_ne by done. auto. }
  split_and!.
  - intros q [->|Hq]%elem_of_cons; [by apply Hmono|by apply Hhas].
  - intros uid v Hv. rewrite fmap_cons.
    destruct (Honly uid v Hv) as [Hv1|[Hin Hty]].
    + destruct (Hm1 uid v Hv1) as [?|[-> ?]]; [by left|]. right. split; [by left|done].
    + right. split; [by right|done].
  - intros uid [v Hv]. apply Hmono. subst m1. unfold emplace.
    destruct (m0 !! Uid p) eqn:Hm0; [by eexists|].
    destruct (decide (Uid p = uid)) as [<-|Hne]; [congruence|].
    rewrite lookup_insert_ne by done. by eexists.
Qed.

Lemma LearnerSGD_ctor_well_formed parameters schedule options allocate seed l :
  LearnerSGD_ctor parameters schedule options allocate seed = inr l →
  well_formed l.
Proof.
  unfold LearnerSGD_ctor, LearnerBase_ctor.
  case_bool_decide; [done|]. case_bool_decide; [|done]. cbn [negb mbind Result_bind].
  destruct allocate; cbn [negb]; intros [= <-];
    unfold AllocateDummySmoothedGradients, has_aux;
    cbn [Parameters m_parameters m_smoothedGradientValues set_smoothedGradientValues].
  - destruct (allocate_loop var_shape parameters ∅) as (Hhas & Honly & _).
    split; cbn [Parameters m_parameters m_smoothedGradientValues].
    + by apply Forall_forall.
    + intros uid [v Hv]. by destruct (Honly uid v Hv) as [?|[? _]].
    + intros uid v Hv. by destruct (Honly uid v Hv) as [?|[_ ?]].
  - destruct (allocate_loop (λ _, []) parameters ∅) as (Hhas & Honly & _).
    split; cbn [Parameters m_parameters m_smoothedGradientValues].
    + by apply Forall_forall.
    + intros uid [v Hv]. by destruct (Honly uid v Hv) as [?|[? _]].
    + intros uid v Hv. by destruct (Honly uid v Hv) as [?|[_ ?]].
Qed.

(** C4. For a learner whose smoothed gradients are exactly those of its
    parameters, of element type float or double, with a checkpoint
    format of version 2 or later and a schedule that its serialization
    round-trips: [CreateCheckpoint()] succeeds,
    [ResetSmoothedGradients()] then zeroes every smoothed gradient (and
    the smoothed count of the classes that carry one), and
    [RestoreFromCheckpoint] of that checkpoint succeeds and leaves the
    learner exactly as it was before the reset: smoothed gradients,
    counters, schedule, seed and smoothed count. *)
Theorem checkpoint_reset_restore l :
  well_formed l →
  2 ≤ CurrentVersion →
  Deserialize (Serialize (m_learningRateSchedule l)) = inr (m_learningRateSchedule l) →
  ∃ checkpoint zeroed,
    CreateCheckpoint l = inr checkpoint
    ∧ ResetSmoothedGradients l = (inr tt, zeroed)
    ∧ m_smoothedGradientValues zeroed
      = SetValue 0%float <$> m_smoothedGradientValues l
    ∧ (has_smoothedCount (kind l) = true → m_smoothedCount zeroed = 0%float)
    ∧ RestoreFromCheckpoint checkpoint zeroed = (inr tt, l).
Proof.
  intros Hwf Hversion Hschedule.
  destruct (CreateCheckpoint_run l (wf_has_aux l Hwf))
    as (checkpoint & Hrun & Hv & Ht & Hsc & Hmc & Hlr & Hseed & Hvec & Hcnt & _).
  pose proof (ResetSmoothedGradients_run l (wf_typed l Hwf)) as Hreset.
  cbv zeta in Hreset.
  set (zeroed := if has_smoothedCount (kind l)
                 then set_smoothedCount 0%float _ else _) in Hreset.
  assert (Hparams : m_parameters zeroed = m_parameters l).
  { subst zeroed. by destruct (has_smoothedCount (kind l)). }
  assert (Hkind : kind zeroed = kind l).
  { subst zeroed. by destruct (has_smoothedCount (kind l)). }
  assert (Haux : m_smoothedGradientValues zeroed
                 = SetValue 0%float <$> m_smoothedGradientValues l).
  { subst zeroed. by destruct (has_smoothedCount (kind l)). }
  exists checkpoint, zeroed. split_and!; [done..| |].
  { subst zeroed. by intros ->. }
  rewrite (RestoreFromCheckpoint_run checkpoint zeroed CurrentVersion
             (m_learningRateSchedule l) (m_sampleCount l) (m_minibatchCount l)
             (Some (m_noiseInjectionSeed l)) (m_smoothedCount l) (aux_of l)).
  - f_equal. unfold restored. rewrite Haux, Hparams, Hkind.
    rewrite (restore_all_aux l _ Hwf).
    2: { intros uid. rewrite lookup_fmap. apply fmap_None. }
    subst zeroed.
    apply Learner_eq; simpl; try done; by destruct (has_smoothedCount _).
  - split; try done.
    + eauto.
    + unfold Parameters. rewrite Hparams. intros i p Hp.
      eapply getSmoothedGradValue_vector; [done..|].
      unfold Parameters. by rewrite list_lookup_fmap, Hp.
    + unfold Parameters. rewrite Hparams, Haux. intros p Hp.
      pose proof (wf_has_aux l Hwf) as Hall.
      eapply Forall_forall in Hall as [a Ha]; [|done].
      exists (SetValue 0%float a). rewrite lookup_fmap, Ha. split; [done|].
      unfold aux_of. by rewrite Ha.
    + rewrite Hkind. destruct (has_smoothedCount (kind l)); [done|].
      subst zeroed. done.
Qed.
(** *** Restoring a legacy checkpoint *)

Lemma getSmoothedGradValue_legacy version (checkpoint : Dictionary) i p v :
  version < 2 → checkpoint !! Uid p = Some v →
  getSmoothedGradValue version checkpoint i p = inr v.
Proof.
  intros Hlt Hp. unfold getSmoothedGradValue.
  apply N.leb_gt in Hlt. rewrite Hlt. unfold Contains.
  rewrite bool_decide_eq_true_2 by (by eexists). cbn [negb].
  by apply at_key_Some.
Qed.

(** C9. A checkpoint of version below 2 that has the required header
    fields, no noise-injection seed, and under each parameter's uid a
    tensor of the element type and shape of that parameter's smoothed
    gradient, is restored successfully: the smoothed gradients are read
    by uid, the counters and schedule are taken from the checkpoint, and
    the noise-injection seed stays what the learner had. *)
Theorem legacy_restore_keeps_seed checkpoint l version sampleCount
    minibatchCount d schedule :
  checkpoint !! versionKey = Some (DV_SizeT version) →
  version < 2 →
  checkpoint !! typeKey = Some (DV_String s_learnerTypeValue) →
  checkpoint !! sampleCountKey = Some (DV_SizeT sampleCount) →
  checkpoint !! minibatchCountKey = Some (DV_SizeT minibatchCount) →
  checkpoint !! learningRateScheduleKey = Some (DV_Dictionary d) →
  Deserialize d = inr schedule →
  checkpoint !! noiseInjectionSeedKey = None →
  Forall (λ p, ∃ a z, checkpoint !! Uid p = Some (DV_NDArrayView a)
                      ∧ m_smoothedGradientValues l !! Uid p = Some z
                      ∧ same_layout z a) (Parameters l) →
  (has_smoothedCount (kind l) = true →
   ∃ c, checkpoint !! smoothedCountKey = Some (DV_Double c)) →
  ∃ l', RestoreFromCheckpoint checkpoint l = (inr tt, l')
        ∧ m_noiseInjectionSeed l' = m_noiseInjectionSeed l
        ∧ m_sampleCount l' = sampleCount
        ∧ m_minibatchCount l' = minibatchCount
        ∧ m_learningRateSchedule l' = schedule
        ∧ Forall (λ p, ∃ a, checkpoint !! Uid p = Some (DV_NDArrayView a)
                            ∧ m_smoothedGradientValues l' !! Uid p = Some a)
                 (Parameters l).
Proof.
  intros Hv Hlt Ht Hsc Hmc Hd Hdes Hseed Htensors Hcnt.
  set (c := if has_smoothedCount (kind l)
            then match checkpoint !! smoothedCountKey with
                 | Some (DV_Double c) => c
                 | _ => 0%float
                 end
            else m_smoothedCount l).
  eexists. split.
  - apply (RestoreFromCheckpoint_run checkpoint l version schedule sampleCount
             minibatchCount None c (legacy_tensor checkpoint)).
    split; try done.
    + eauto.
    + intros Hge. lia.
    + intros i p Hp. apply list_elem_of_lookup_2 in Hp.
      eapply Forall_forall in Htensors as (a & z & Ha & _); [|done].
      unfold legacy_tensor. rewrite Ha. by apply getSmoothedGradValue_legacy.
    + intros p Hp.
      eapply Forall_forall in Htensors as (a & z & Ha & Hz & Hlay); [|done].
      exists z. unfold legacy_tensor. by rewrite Ha.
    + subst c. destruct (has_smoothedCount (kind l)); [|done].
      destruct Hcnt as [c Hc]; [done|]. by rewrite Hc.
  - unfold restored. cbn. split_and!; try done.
    apply Forall_forall. intros p Hp.
    eapply Forall_forall in Htensors as (a & z & Ha & _); [|done].
    exists a. split; [done|]. rewrite foldl_insert_lookup.
    rewrite decide_True by (by apply list_elem_of_fmap_2).
    unfold legacy_tensor. by rewrite Ha.
Qed.
(** *** Restoring an inconsistent checkpoint *)

Lemma bind_fails {S A B} (Inv : S → Prop) (m : StateExn S A)
    (f : A → StateExn S B) s :
  Inv s → (∀ s, Inv s → Inv (m s).2) →
  (∀ a s', Inv s' → fails (f a s')) →
  fails ((m ≫= f) s).
Proof.
  intros Hs Hinv Hf. rewrite bind_run. specialize (Hinv s Hs).
  destruct (m s) as [[e|a] s']; [by exists e|]. by apply Hf.
Qed.

Lemma ValidateDictionary_missing (checkpoint : Dictionary) keys key typeValue cv :
  key ∈ keys → checkpoint !! key = None →
  ∃ e, ValidateDictionary checkpoint keys typeValue cv = inl e.
Proof.
  intros Hin Hkey. unfold ValidateDictionary.
  destruct (checkpoint !! versionKey) as [v|]; [|by eexists].
  destruct (Value_size_t v) as [e|version]; [by eexists|].
  cbn [mbind Result_bind].
  assert (forallb (Contains checkpoint) keys = false) as ->; [|by eexists].
  apply not_true_is_false. intros Hall.
  apply forallb_forall with (x := key) in Hall; [|by apply list_elem_of_In].
  apply bool_decide_eq_true_1 in Hall as [? ?]. congruence.
Qed.

Lemma ValidateDictionary_version (checkpoint : Dictionary) keys typeValue cv version :
  ValidateDictionary checkpoint keys typeValue cv = inr version →
  checkpoint !! versionKey = Some (DV_SizeT version).
Proof.
  unfold ValidateDictionary.
  destruct (checkpoint !! versionKey) as [[]|]; try done.
  cbn [Value_size_t mbind Result_bind].
  destruct (forallb _ _); [|done].
  destruct (checkpoint !! typeKey) as [tv|]; [|done].
  destruct (Value_wstring tv) as [|t]; [done|]. cbn [mbind Result_bind].
  case_bool_decide; [|done]. by intros [= ->].
Qed.

Lemma restore_parameter_layout_kept l0 version checkpoint ip l :
  layout_kept l0 l →
  layout_kept l0 (restore_parameter version checkpoint ip l).2.
Proof.
  intros [Hps Hlay]. destruct ip as [i p]. unfold restore_parameter.
  rewrite bind_run. unfold lift at 1.
  destruct (getSmoothedGradValue version checkpoint i p) as [e|stored]; [done|].
  rewrite bind_run. unfold lift at 1.
  destruct (Value_NDArrayView stored) as [e|a]; [done|].
  rewrite bind_run. unfold get at 1. rewrite bind_run. unfold lift at 1.
  destruct (at_key (m_smoothedGradientValues l) (Uid p)) as [e|z0] eqn:Hz0; [done|].
  destruct (negb _); [done|]. destruct (negb _); [done|].
  split; [done|]. intros uid z Hz. cbn.
  destruct (decide (Uid p = uid)) as [<-|Hne].
  - rewrite lookup_insert_eq. eexists. split; [done|].
    destruct (Hlay _ _ Hz) as (z' & Hz' & Hl).
    unfold at_key in Hz0. rewrite Hz' in Hz0. by injection Hz0 as <-.
  - rewrite lookup_insert_ne by done. by apply Hlay.
Qed.

Lemma restore_parameter_rejects l0 version checkpoint i p l :
  inconsistent checkpoint l0 (missing_tensor i p)
  ∨ inconsistent checkpoint l0 (mismatched_tensor i p) →
  checkpoint !! versionKey = Some (DV_SizeT version) →
  layout_kept l0 l →
  fails (restore_parameter version checkpoint (i, p) l).
Proof.
  intros Hwhy Hv [_ Hlay]. unfold fails, restore_parameter.
  rewrite bind_run. unfold lift at 1.
  destruct Hwhy as [(_ & version' & Hv' & Hmiss)
                   |(_ & version' & a & z & Hv' & Hget & Hz & Hnot)];
    (assert (version' = version) as -> by congruence).
  - assert (getSmoothedGradValue version checkpoint i p = inl missing_smoothed_gradient)
      as ->; [|by eexists].
    unfold getSmoothedGradValue. destruct (2 <=? version).
    + destruct Hmiss as (vs & Hvs & Hlen). rewrite (at_key_Some _ _ _ Hvs).
      cbn [mbind Result_bind Value_vector]. by rewrite bool_decide_eq_true_2.
    + unfold Contains. rewrite Hmiss.
      by rewrite bool_decide_eq_false_2 by (by intros [? ?]).
  - rewrite Hget. rewrite bind_run. unfold lift at 1. cbn [Value_NDArrayView].
    rewrite bind_run. unfold get at 1. rewrite bind_run. unfold lift at 1.
    destruct (Hlay _ _ Hz) as (z' & Hz' & Hd & Hs).
    rewrite (at_key_Some _ _ _ Hz').
    case_bool_decide as Hdt; cbn [negb]; [|by eexists].
    case_bool_decide as Hsh; cbn [negb]; [|by eexists].
    exfalso. apply Hnot. split; congruence.
Qed.
Lemma bind_fails_frame {S X A B} (proj : S → X) (m : StateExn S A)
    (f : A → StateExn S B) s :
  preserves proj m →
  (∀ a s', proj s' = proj s → fails (f a s')) →
  fails ((m ≫= f) s).
Proof.
  intros Hm Hf. apply (bind_fails (λ s', proj s' = proj s)); [done| |done].
  intros s' Hs'. by rewrite Hm.
Qed.

Lemma layout_kept_of l l' : layout_of l' = layout_of l → layout_kept l l'.
Proof.
  intros [= Hps Hsm]. split; [done|]. intros uid z Hz.
  exists z. by rewrite Hsm.
Qed.

Lemma LearnerBase_RestoreFromCheckpoint_rejects checkpoint l i p :
  inconsistent checkpoint l (missing_tensor i p)
  ∨ inconsistent checkpoint l (mismatched_tensor i p) →
  fails (LearnerBase_RestoreFromCheckpoint checkpoint l).
Proof.
  intros Hwhy.
  assert (Hp : Parameters l !! i = Some p).
  { by destruct Hwhy as [[? _]|[? _]]. }
  assert (∃ version, checkpoint !! versionKey = Some (DV_SizeT version))
    as [version Hv].
  { destruct Hwhy as [(_ & v & ? & _)|(_ & v & ? & ? & ? & _)]; by exists v. }
  unfold LearnerBase_RestoreFromCheckpoint.
  rewrite bind_run. unfold lift at 1.
  destruct (ValidateDictionary checkpoint s_requiredDictionaryKeys _ _)
    as [e|version'] eqn:Hval; [by exists e|].
  apply ValidateDictionary_version in Hval.
  assert (version' = version) as -> by congruence.
  do 9 (apply (bind_fails_frame layout_of); [frame_with done|intros ? ? ?]).
  rewrite bind_run. unfold get at 1.
  assert (Hlay : layout_of s'7 = layout_of l) by congruence.
  apply (for_each_fails (layout_kept l) _ _ (i, p)).
  - apply list_elem_of_lookup. exists i.
    injection Hlay as Hps _. unfold Parameters in *.
    by rewrite list_lookup_imap, Hps, Hp.
  - intros. by apply restore_parameter_layout_kept.
  - intros. by eapply restore_parameter_rejects.
  - by apply layout_kept_of.
Qed.

(** C5 (as amended). [RestoreFromCheckpoint] fails when the version or a
    required key is missing (the smoothed-gradient vector is required
    from version 2 on), when some parameter finds no smoothed gradient in
    the checkpoint, and when the tensor found for a parameter has another
    element type or shape than the parameter's smoothed gradient.  When
    the failure is a missing key, the learner is left as it was. *)
Theorem RestoreFromCheckpoint_rejects checkpoint l why :
  inconsistent checkpoint l why →
  ∃ e l', RestoreFromCheckpoint checkpoint l = (inl e, l')
          ∧ (∀ key, why = missing_key key → l' = l).
Proof.
  intros Hwhy. unfold RestoreFromCheckpoint. rewrite bind_run.
  destruct why as [key|i p|i p].
  - assert (∃ e, LearnerBase_RestoreFromCheckpoint checkpoint l = (inl e, l))
      as [e ->]; [|by exists e, l].
    destruct Hwhy as [Hkey Hwhich].
    unfold LearnerBase_RestoreFromCheckpoint. rewrite bind_run. unfold lift at 1.
    destruct Hwhich as [[->|Hreq]%elem_of_cons|(-> & version & Hv & Hge)].
    + unfold ValidateDictionary. rewrite Hkey. by eexists.
    + destruct (ValidateDictionary_missing checkpoint _ key s_learnerTypeValue
                  CurrentVersion Hreq Hkey) as [e ->]. by exists e.
    + destruct (ValidateDictionary checkpoint s_requiredDictionaryKeys _ _)
        as [e|version'] eqn:Hval; [by exists e|].
      apply ValidateDictionary_version in Hval.
      assert (version' = version) as -> by congruence.
      rewrite bind_run. apply N.leb_le in Hge. rewrite Hge.
      rewrite bind_run. unfold lift at 1.
      destruct (ValidateDictionary_missing checkpoint [smoothedGradientsKey]
                  smoothedGradientsKey s_learnerTypeValue CurrentVersion)
        as [e ->]; [by left|done|]. by exists e.
  - destruct (LearnerBase_RestoreFromCheckpoint_rejects checkpoint l i p)
      as [e He]; [by left|].
    destruct (LearnerBase_RestoreFromCheckpoint checkpoint l) as [r l'].
    simpl in He. subst r. by exists e, l'.
  - destruct (LearnerBase_RestoreFromCheckpoint_rejects checkpoint l i p)
      as [e He]; [by right|].
    destruct (LearnerBase_RestoreFromCheckpoint checkpoint l) as [r l'].
    simpl in He. subst r. by exists e, l'.
Qed.
End Checkpoint.

(** ** Gradient clipping *)

(** The order of binary64 numbers, from the specification of the primitive
    comparisons. *)
Section FloatOrder.
Local Open Scope float_scope.

Lemma SFcompare_antisym x y :
  SFcompare y x = option_map CompOpp (SFcompare x y).
Proof.
  destruct x as [sx|sx| |sx mx ex], y as [sy|sy| |sy my ey]; simpl;
    try reflexivity; try (by destruct sx); try (by destruct sy);
    try (by destruct sx, sy).
  rewrite (Z.compare_antisym ex ey).
  change (Pos.compare_cont Eq my mx) with (my ?= mx)%positive.
  change (Pos.compare_cont Eq mx my) with (mx ?= my)%positive.
  rewrite (Pos.compare_antisym mx my).
  destruct sx, sy; try reflexivity;
    destruct (ex ?= ey)%Z; simpl; try reflexivity;
    by destruct (mx ?= my)%positive.
Qed.

Lemma comparable_sym x y : comparable x y → comparable y x.
Proof.
  unfold comparable. rewrite (SFcompare_antisym (Prim2SF x) (Prim2SF y)).
  by intros [c ->].
Qed.

Lemma comparable_trans x y z : comparable x y → comparable y z → comparable x z.
Proof.
  unfold comparable.
  destruct (Prim2SF x) as [[]|[]| |[] ? ?], (Prim2SF y) as [[]|[]| |[] ? ?],
    (Prim2SF z) as [[]|[]| |[] ? ?]; simpl; intros [? ?] [? ?]; by eexists.
Qed.

Lemma leb_comparable x y : (x <=? y) = true → comparable x y.
Proof.
  rewrite leb_spec. unfold SFleb, comparable.
  by destruct (SFcompare _ _) as [c|]; [eexists|].
Qed.

Lemma ltb_comparable x y : (x <? y) = true → comparable x y.
Proof.
  rewrite ltb_spec. unfold SFltb, comparable.
  by destruct (SFcompare _ _) as [c|]; [eexists|].
Qed.

Lemma not_nan_comparable x : is_nan x = false → comparable x x.
Proof.
  unfold is_nan. rewrite negb_false_iff, FloatAxioms.eqb_spec.
  unfold SFeqb, comparable.
  by destruct (SFcompare _ _) as [c|]; [eexists|].
Qed.

Lemma leb_refl x : comparable x x → (x <=? x) = true.
Proof.
  rewrite leb_spec. unfold SFleb, comparable. intros [c Hc].
  pose proof (SFcompare_antisym (Prim2SF x) (Prim2SF x)) as Hanti.
  rewrite Hc in *. by destruct c.
Qed.

Lemma not_ltb_leb x y : comparable x y → (y <? x) = false → (x <=? y) = true.
Proof.
  rewrite ltb_spec, leb_spec. unfold SFltb, SFleb, comparable. intros [c Hc].
  rewrite (SFcompare_antisym (Prim2SF x) (Prim2SF y)), Hc. by destruct c.
Qed.
End FloatOrder.

Lemma leb_not_ltb (x y : float) : (x <=? y)%float = true → (y <? x)%float = false.
Proof.
  rewrite ltb_spec, leb_spec. unfold SFltb, SFleb.
  rewrite (SFcompare_antisym (Prim2SF x) (Prim2SF y)).
  by destruct (SFcompare _ _) as [[]|].
Qed.

(** The order of binary64 numbers is transitive: below a number that is
    at most a third one is below the third. *)
Lemma SFcompare_lt_le_trans x y z :
  SFcompare x y = Some Lt →
  SFcompare y z = Some Lt ∨ SFcompare y z = Some Eq →
  SFcompare x z = Some Lt.
Proof.
  destruct x as [sx|sx| |sx mx ex], y as [sy|sy| |sy my ey],
           z as [sz|sz| |sz mz ez]; simpl;
    try destruct sx; try destruct sy; try destruct sz; simpl;
    intros Hxy [Hyz|Hyz]; try discriminate; try reflexivity;
    revert Hxy Hyz;
    repeat match goal with
    | |- context [(?a ?= ?b)%Z] => destruct (Z.compare_spec a b)
    | |- context [Pos.compare_cont Eq ?a ?b] =>
        change (Pos.compare_cont Eq a b) with (a ?= b)%positive;
        destruct (Pos.compare_spec a b)
    end; simpl; intros; try discriminate; try reflexivity; try lia.
Qed.

Lemma ltb_leb_not_ltb (x y z : float) :
  (x <? y)%float = true → (y <=? z)%float = true → (z <? x)%float = false.
Proof.
  rewrite !ltb_spec, leb_spec. unfold SFltb, SFleb.
  destruct (SFcompare (Prim2SF x) (Prim2SF y)) as [[]|] eqn:Hxy; try done.
  destruct (SFcompare (Prim2SF y) (Prim2SF z)) as [[]|] eqn:Hyz; try done;
    intros _ _;
    rewrite (SFcompare_antisym (Prim2SF x) (Prim2SF z)),
      (SFcompare_lt_le_trans _ _ _ Hxy); auto.
Qed.

Section Truncate.
Local Open Scope float_scope.

Lemma truncate_cases b x : truncate b x = x ∨ truncate b x = b ∨ truncate b x = - b.
Proof. unfold truncate. destruct (b <? x), (x <? - b); auto. Qed.

Lemma truncate_within b x :
  (x <=? b) = true → (- b <=? x) = true → truncate b x = x.
Proof.
  intros Hub%leb_not_ltb Hlb%leb_not_ltb. unfold truncate. by rewrite Hub, Hlb.
Qed.

Lemma truncate_above b x : (b <? x) = true → truncate b x = b.
Proof. intros Hhigh. unfold truncate. by rewrite Hhigh. Qed.

Lemma truncate_not_above b x :
  (b <? x) = false → (x <? - b) = true → truncate b x = - b.
Proof. intros Hhigh Hlow. unfold truncate. by rewrite Hhigh, Hlow. Qed.

Lemma truncate_below b x :
  (x <? - b) = true → (- b <=? b) = true → truncate b x = - b.
Proof.
  intros Hlow Hb. apply truncate_not_above; [|done].
  by apply (ltb_leb_not_ltb x (- b) b).
Qed.

(** The magnitude of a clamped number is at most the bound. *)
Lemma truncate_bounded b x :
  is_nan x = false → (- b <=? b) = true →
  (truncate b x <=? b) = true ∧ (- b <=? truncate b x) = true.
Proof.
  intros Hx%not_nan_comparable Hb.
  pose proof (leb_comparable _ _ Hb) as Hbb.
  assert (Hb_b : comparable b b).
  { eapply comparable_trans; [by apply comparable_sym|done]. }
  assert (Hnb_nb : comparable (- b) (- b)).
  { eapply comparable_trans; [done|by apply comparable_sym]. }
  unfold truncate. destruct (b <? x) eqn:Hhigh.
  { split; [by apply leb_refl|done]. }
  destruct (x <? - b) eqn:Hlow.
  { split; [done|by apply leb_refl]. }
  assert (Hxb : comparable x b).
  { destruct (decide (comparable x b)) as [|Hn]; [done|]. exfalso.
    revert Hn Hx Hb_b. unfold comparable.
    destruct (Prim2SF x) as [[]|[]| |[] ? ?], (Prim2SF b) as [[]|[]| |[] ? ?];
      simpl; intros Hn [? ?] [? ?]; try done; by destruct Hn. }
  split.
  - by apply not_ltb_leb.
  - apply not_ltb_leb; [|done].
    eapply comparable_trans; [exact Hbb|by apply comparable_sym].
Qed.
End Truncate.

Section Clipping.
Context `{Externals}.
Local Open Scope float_scope.

(** C8. [ClipGradient] with per-sample threshold [t] on a minibatch of
    [n] samples, with bound [t * n]: (1) when [t] is [+infinity] the
    gradient is unchanged; (2) otherwise, in truncation mode, every
    element becomes itself, the bound or minus the bound (the bound cast
    to the element type): an element between minus the bound and the
    bound is unchanged, an element above the bound becomes the bound, an
    element below minus the bound becomes minus the bound, and every
    element that is a number ends up between minus the bound and the
    bound; (3) otherwise the gradient is
    multiplied by [bound / norm] exactly when its Frobenius norm exceeds
    the bound, and left unchanged when it does not. *)
Theorem ClipGradient_clips et opts (gradient : Matrix) (n : N) :
  let threshold := gradientClippingThresholdPerSample opts in
  let bound := threshold * size_t.to_double n in
  let clipped := ClipGradient et opts gradient n in
  ((threshold =? infinity) = true → clipped = gradient)
  ∧ ((threshold =? infinity) = false →
     gradientClippingWithTruncation opts = true →
     let b := ElementType.cast et bound in
     length clipped = length gradient
     ∧ ∀ i x, gradient !! i = Some x →
         ∃ r, clipped !! i = Some r
              ∧ (r = x ∨ r = b ∨ r = - b)
              ∧ ((x <=? b) = true → (- b <=? x) = true → r = x)
              ∧ (is_nan x = false → (- b <=? b) = true →
                 (r <=? b) = true ∧ (- b <=? r) = true)
              ∧ ((b <? x) = true → r = b)
              ∧ ((x <? - b) = true → (- b <=? b) = true → r = - b)
              ∧ ((b <? x) = false → (x <? - b) = true → r = - b)
              ∧ ((b <? x) = false → (x <? - b) = false → r = x))
  ∧ ((threshold =? infinity) = false →
     gradientClippingWithTruncation opts = false →
     let norm := FrobeniusNorm et gradient in
     ((bound <? norm) = true →
      clipped = scale et (ElementType.cast et (bound / norm)) gradient)
     ∧ ((bound <? norm) = false → clipped = gradient)).
Proof.
  intros threshold bound clipped. subst clipped. unfold ClipGradient.
  fold threshold. fold bound. split_and!.
  - by intros ->.
  - intros -> ->. cbn [negb]. set (b := ElementType.cast et bound).
    unfold InplaceTruncate. split.
    { by rewrite length_fmap. }
    intros i x Hx. exists (truncate b x). rewrite list_lookup_fmap, Hx.
    split_and!; [done|apply truncate_cases|apply truncate_within
                |apply truncate_bounded|apply truncate_above
                |apply truncate_below|apply truncate_not_above|].
    intros Hhigh Hlow. unfold truncate. by rewrite Hhigh, Hlow.
  - intros -> ->. cbv zeta. cbn [negb]. split; by intros ->.
Qed.
End Clipping.

(** ** Constructing a universal learner *)

Section Universal.
Context `{Externals}.

Lemma set_universal_id l :
  set_universal (m_parameter_gradient_map l) (m_update_func l) l = l.
Proof. by destruct l. Qed.

Lemma validate_loop updateFunc pgs w :
  Forall (λ pg, contains_var (Inputs updateFunc) pg.1 = true) pgs →
  for_each pgs (validate_pair updateFunc) w = (inr tt, validated updateFunc pgs w).
Proof.
  intros Hall. revert w. induction Hall as [|[p g] pgs Hp _ IH]; intros w.
  { unfold validated. simpl. rewrite set_universal_id. by destruct w. }
  cbn [for_each]. rewrite bind_run. unfold validate_pair at 1. cbv zeta.
  simpl in Hp. rewrite Hp. cbn [negb]. rewrite bind_run.
  unfold validated. rewrite filter_cons. cbn [snd foldl fst].
  unfold gradient_missing.
  destruct (negb (contains_var (Inputs updateFunc) g)) eqn:Hg.
  - unfold modify at 1 2. rewrite IH. unfold validated, gradient_missing. cbn.
    by rewrite cons_middle, (app_assoc _ [_]), <- replicate_cons_app.
  - unfold mret at 1, StateExn_ret at 1, modify at 1. rewrite IH.
    by unfold validated, gradient_missing.
Qed.

Lemma validate_loop_fails updateFunc pgs p g w :
  (p, g) ∈ pgs → contains_var (Inputs updateFunc) p = false →
  ∃ e, (for_each pgs (validate_pair updateFunc) w).1 = inl e.
Proof.
  intros Hin Hp.
  apply (for_each_fails (λ _, True) pgs _ (p, g)); [done..| |done].
  intros w' _. unfold validate_pair. rewrite Hp. by eexists.
Qed.

Lemma LearnerBase_ctor_run k parameters schedule options allocate seed :
  parameters ≠ [] → NoDup (Uid <$> parameters) →
  ∃ l, LearnerBase_ctor k parameters schedule options allocate seed = inr l
       ∧ kind l = k ∧ m_parameters l = parameters
       ∧ m_noiseInjectionSeed l = seed ∧ counters_of l = (0, 0, 0)
       ∧ m_learningRateSchedule l = schedule
       ∧ (allocate = false → m_smoothedGradientValues l = ∅).
Proof.
  intros Hne Hnd. unfold LearnerBase_ctor.
  rewrite bool_decide_eq_false_2 by done.
  rewrite bool_decide_eq_true_2.
  2: { rewrite size_list_to_set by done. by rewrite length_fmap. }
  eexists. split; [reflexivity|]. split_and!; try done. by intros ->.
Qed.
Lemma filter_snd_zip_length (f : Var → bool) (ps gs : list Var) :
  length ps = length gs →
  length (filter (λ pg : Var * Var, f pg.2) (zip ps gs)) = length (filter f gs).
Proof.
  revert gs. induction ps as [|p ps IH]; intros [|g gs] [=]; [done|].
  cbn [zip zip_with]. rewrite !filter_cons. cbn [snd].
  destruct (decide (f g)); cbn [length]; by rewrite IH.
Qed.

Lemma zip_Forall_fst (P : Var → Prop) (ps gs : list Var) :
  Forall P ps → Forall (λ pg : Var * Var, P pg.1) (zip ps gs).
Proof.
  intros Hall. revert gs. induction Hall as [|p ps Hp _ IH]; intros [|g gs];
    cbn [zip zip_with]; constructor; auto.
Qed.

Lemma zip_elem_of_fst (ps gs : list Var) p :
  length ps = length gs → p ∈ ps → ∃ g, (p, g) ∈ zip ps gs.
Proof.
  intros Hlen [i Hi]%list_elem_of_lookup.
  destruct (lookup_lt_is_Some_2 gs i) as [g Hg].
  { rewrite <- Hlen. by eapply lookup_lt_Some. }
  exists g. apply list_elem_of_lookup. exists i.
  apply lookup_zip_with_Some. by exists p, g.
Qed.

Lemma ValidateInput_run parameters gradients updateFunc w :
  length parameters = length gradients → parameters ≠ [] →
  Forall (λ p, contains_var (Inputs updateFunc) p = true) parameters →
  ValidateInput parameters gradients updateFunc w
  = (inr tt,
     with_learner
       (λ l, set_universal (m_parameter_gradient_map l) (Some updateFunc)
               (AllocateDummySmoothedGradients parameters l))
       (validated updateFunc (zip parameters gradients) w)).
Proof.
  intros Hlen Hne Hall. unfold ValidateInput.
  rewrite bool_decide_eq_true_2 by done. cbn [negb].
  rewrite bool_decide_eq_false_2 by (by destruct parameters).
  rewrite bind_run, validate_loop.
  2: { by apply (zip_Forall_fst (λ p, contains_var (Inputs updateFunc) p = true)). }
  by rewrite bind_run.
Qed.

Lemma ValidateInput_rejects parameters gradients updateFunc w :
  length parameters ≠ length gradients
  ∨ parameters = []
  ∨ (∃ p, p ∈ parameters ∧ contains_var (Inputs updateFunc) p = false) →
  ∃ msg, (ValidateInput parameters gradients updateFunc w).1 = inl (LogicError msg).
Proof.
  intros Hwhy. unfold ValidateInput.
  case_bool_decide as Hlen; cbn [negb]; [|by eexists].
  case_bool_decide as Hempty; [by eexists|].
  destruct Hwhy as [?|[->|(p & Hp & Hmissing)]]; try done.
  destruct (zip_elem_of_fst parameters gradients p Hlen Hp) as [g Hpg].
  rewrite bind_run.
  assert (∃ msg w', for_each (zip parameters gradients) (validate_pair updateFunc) w
                    = (inl (LogicError msg), w')) as (msg & w' & ->);
    [|by exists msg].
  clear Hlen Hempty Hp. revert w.
  induction (zip parameters gradients) as [|[p0 g0] pgs IH]; intros w.
  { by apply elem_of_nil in Hpg. }
  cbn [for_each]. rewrite bind_run. unfold validate_pair at 1. cbv zeta.
  destruct (contains_var (Inputs updateFunc) p0) eqn:Hp0; cbn [negb];
    [|by do 2 eexists].
  apply elem_of_cons in Hpg as [[= -> ->]|Hpg]; [congruence|].
  rewrite bind_run.
  destruct (negb (contains_var (Inputs updateFunc) g0)); by apply IH.
Qed.

(** C10. The construction [LearnerUniversal(parameters, gradients,
    updateFunc)] fails when the two lists differ in length, when the
    parameter list is empty, and when some parameter is not among the
    inputs of the update function.  Otherwise (the parameters being
    distinct) it succeeds, whether or not the gradient placeholders are
    inputs of the update function: each missing one only costs a warning
    line on stderr. *)
Theorem LearnerUniversal_ctor_validates parameters gradients updateFunc seed :
  let constructed := LearnerUniversal_ctor parameters gradients updateFunc seed in
  (length parameters ≠ length gradients → ∃ e, constructed.1 = inl e)
  ∧ (parameters = [] → ∃ e, constructed.1 = inl e)
  ∧ (∀ p, p ∈ parameters → contains_var (Inputs updateFunc) p = false →
          ∃ e, constructed.1 = inl e)
  ∧ (length parameters = length gradients → parameters ≠ [] →
     NoDup (Uid <$> parameters) →
     Forall (λ p, contains_var (Inputs updateFunc) p = true) parameters →
     ∃ l, constructed.1 = inr l
          ∧ constructed.2
            = replicate (length (filter (gradient_missing updateFunc) gradients))
                        missing_gradient_warning
          ∧ kind l = LearnerUniversal
          ∧ Parameters l = parameters
          ∧ m_update_func l = Some updateFunc
          ∧ m_noiseInjectionSeed l = seed).
Proof.
  intros constructed. subst constructed. unfold LearnerUniversal_ctor.
  assert (Hreject :
    length parameters ≠ length gradients ∨ parameters = []
    ∨ (∃ p, p ∈ parameters ∧ contains_var (Inputs updateFunc) p = false) →
    ∃ e, (match LearnerBase_ctor LearnerUniversal parameters
                  (ConstantSchedule (mkRate 1%float 1)) DefaultOptions false seed with
          | inl e => (inl e, [])
          | inr l =>
              let '(r, w) := ValidateInput parameters gradients updateFunc
                               (mkWorld l ∅ ∅ [] []) in
              (r ;; inr (learner w), stderr w)
          end).1 = inl e).
  { intros Hwhy. destruct (LearnerBase_ctor _ _ _ _ _ _) as [e|l]; [by exists e|].
    destruct (ValidateInput_rejects parameters gradients updateFunc
                (mkWorld l ∅ ∅ [] []) Hwhy) as [msg Hmsg].
    destruct (ValidateInput _ _ _ _) as [r w]. simpl in Hmsg. subst r.
    by eexists. }
  split_and!.
  - intros Hlen. apply Hreject. by left.
  - intros Hempty. apply Hreject. right. by left.
  - intros p Hp Hmissing. apply Hreject. right. right. by exists p.
  - intros Hlen Hne Hnd Hall.
    destruct (LearnerBase_ctor_run LearnerUniversal parameters
                (ConstantSchedule (mkRate 1%float 1)) DefaultOptions false seed
                Hne Hnd) as (l0 & -> & Hkind & Hps & Hseed & _).
    rewrite ValidateInput_run by done.
    eexists. split; [reflexivity|]. cbn.
    rewrite app_nil_r, (filter_snd_zip_length (gradient_missing updateFunc)) by done.
    by rewrite Hkind, Hps, Hseed.
Qed.
End Universal.

Lemma Update_zero_learning_rate_is_noop_witness :
  (LearningRatePerSample (learner (Examples.world (Examples.sgd Examples.frozen))) 3 =? 0)%float = true
  ∧ ∃ w', Update Examples.gradient 3 true (Examples.world (Examples.sgd Examples.frozen)) = (inr false, w')
          ∧ values w' = Examples.model
          ∧ m_smoothedGradientValues (learner w')
            = m_smoothedGradientValues (Examples.sgd Examples.frozen)
          ∧ m_sampleCount (learner w') = 0
          ∧ m_minibatchCount (learner w') = 0
          ∧ m_sweepCount (learner w') = 0.
Proof.
  split; [reflexivity|].
  apply (Update_zero_learning_rate_is_noop Examples.gradient 3 true
           (Examples.world (Examples.sgd Examples.frozen))).
  reflexivity.
Defined.

Lemma halving_keys_representable : keys_representable Examples.halving.
Proof.
  intros k v Hk. apply elem_of_map_to_list in Hk. vm_compute in Hk.
  repeat (apply elem_of_cons in Hk as [[= -> ->]|Hk]; [reflexivity|]).
  by apply elem_of_nil in Hk.
Defined.

Lemma ResetLearningRate_shifts_schedule_witness :
  keys_representable Examples.halving
  ∧ currentCount Examples.halving Examples.trained < size_t.modulus
  ∧ m_schedule
      (m_learningRateSchedule
         (ResetLearningRate (other_schedule Examples.halving) Examples.trained))
    !! 109
    = Some (mkRate 0.25%float 1)
  ∧ valueAt
      (m_learningRateSchedule
         (ResetLearningRate (other_schedule Examples.halving) Examples.trained))
      9
    = Some (mkRate 0.5%float 1).
Proof.
  pose proof (ResetLearningRate_shifts_schedule Examples.halving Examples.trained
                halving_keys_representable eq_refl) as (_ & Hsum & Hnow & _).
  split_and!.
  - exact halving_keys_representable.
  - reflexivity.
  - apply (Hsum 100); reflexivity.
  - apply Hnow. reflexivity.
Defined.

Lemma Update_advances_counters_witness :
  Update Examples.gradient 3 true (Examples.world (Examples.sgd Examples.halving))
  = (inr true,
     (Update Examples.gradient 3 true (Examples.world (Examples.sgd Examples.halving))).2)
  ∧ counters (Update Examples.gradient 3 true
                (Examples.world (Examples.sgd Examples.halving))).2 = (3, 1, 1).
Proof.
  assert (Hrun : Update Examples.gradient 3 true
                   (Examples.world (Examples.sgd Examples.halving))
                 = (inr true,
                    (Update Examples.gradient 3 true
                       (Examples.world (Examples.sgd Examples.halving))).2)).
  { vm_compute. reflexivity. }
  split; [exact Hrun|].
  destruct (Update_advances_counters _ _ _ _ _ _ (other_schedule Examples.halving)
              Hrun)
    as ((Hs & Hmb & Hsw) & _); [reflexivity..|].
  unfold counters, counters_of. rewrite Hs, Hmb, Hsw. reflexivity.
Defined.

(** C2, as stated, fails: with a learning rate of zero at the current
    counters, [Update] on an empty minibatch returns [false]. *)
Lemma Update_empty_minibatch_not_always_rejected :
  ¬ ∀ (E : Externals) gradients sweepEnd w,
      ∃ msg w', Update gradients 0 sweepEnd w = (inl (InvalidArgument msg), w').
Proof.
  intros Hclaim.
  destruct (Hclaim Reference.externals Examples.gradient true
              (Examples.world (Examples.sgd Examples.frozen))) as (msg & w' & Hrun).
  destruct (Update_zero_rate Examples.gradient 0 true
              (Examples.world (Examples.sgd Examples.frozen)))
    as (w'' & Hfalse & _); [reflexivity|].
  rewrite Hfalse in Hrun. discriminate Hrun.
Qed.

(** C3, as stated, fails: the sweep count cannot be read off a checkpoint,
    two learners that differ in it only have the same checkpoint. *)
Lemma checkpoint_omits_sweep_count :
  ¬ ∀ E : Externals, ∃ read : Dictionary → N,
      ∀ l checkpoint, CreateCheckpoint l = inr checkpoint →
                      read checkpoint = m_sweepCount l.
Proof.
  intros Hclaim. destruct (Hclaim Reference.externals) as [read Hread].
  pose proof (Hread (set_counters 0 0 1 (Examples.sgd Examples.frozen))) as H1.
  pose proof (Hread (set_counters 0 0 2 (Examples.sgd Examples.frozen))) as H2.
  destruct (CreateCheckpoint_run (set_counters 0 0 1 (Examples.sgd Examples.frozen)))
    as (checkpoint & Hrun & _).
  { repeat constructor. by eexists. }
  specialize (H1 checkpoint Hrun). specialize (H2 checkpoint Hrun).
  cbn [m_sweepCount set_counters] in H1, H2. congruence.
Qed.

Lemma CreateCheckpoint_contents_witness :
  has_aux (Examples.sgd Examples.halving)
  ∧ ∃ checkpoint,
      CreateCheckpoint (Examples.sgd Examples.halving) = inr checkpoint
      ∧ checkpoint !! sampleCountKey = Some (DV_SizeT 0)
      ∧ checkpoint !! minibatchCountKey = Some (DV_SizeT 0)
      ∧ checkpoint !! noiseInjectionSeedKey = Some (DV_SizeT 7)
      ∧ checkpoint !! smoothedCountKey = None.
Proof.
  assert (Haux : has_aux (Examples.sgd Examples.halving)).
  { repeat constructor. by eexists. }
  split; [exact Haux|].
  destruct (CreateCheckpoint_contents (Examples.sgd Examples.halving) Haux)
    as (checkpoint & Hrun & _ & _ & Hsc & Hmc & _ & Hseed & _ & Hcount & _).
  exists checkpoint. split_and!; [exact Hrun|exact Hsc|exact Hmc|exact Hseed|].
  exact Hcount.
Defined.

Lemma adam_well_formed : well_formed Examples.adam.
Proof.
  split.
  - repeat constructor. by eexists.
  - intros uid [v Hv]. unfold Examples.adam in Hv. cbn [m_smoothedGradientValues] in Hv.
    apply lookup_singleton_Some in Hv as [<- _]. by left.
  - intros uid v Hv. unfold Examples.adam in Hv. cbn [m_smoothedGradientValues] in Hv.
    apply lookup_singleton_Some in Hv as [_ <-]. done.
Defined.

Lemma checkpoint_reset_restore_witness :
  well_formed Examples.adam
  ∧ 2 ≤ CurrentVersion
  ∧ Deserialize (Serialize (m_learningRateSchedule Examples.adam))
    = inr (m_learningRateSchedule Examples.adam)
  ∧ ∃ checkpoint zeroed,
      CreateCheckpoint Examples.adam = inr checkpoint
      ∧ ResetSmoothedGradients Examples.adam = (inr tt, zeroed)
      ∧ m_smoothedGradientValues zeroed !! "Parameter1"
        = Some (mkNDArrayView Double [2; 2] [0%float; 0%float; 0%float; 0%float])
      ∧ RestoreFromCheckpoint checkpoint zeroed = (inr tt, Examples.adam).
Proof.
  assert (Hround : Deserialize (Serialize (m_learningRateSchedule Examples.adam))
                   = inr (m_learningRateSchedule Examples.adam)).
  { vm_compute. reflexivity. }
  assert (Hversion : 2 ≤ CurrentVersion) by reflexivity.
  split_and!; [exact adam_well_formed|exact Hversion|exact Hround|].
  destruct (checkpoint_reset_restore Examples.adam adam_well_formed Hversion Hround)
    as (checkpoint & zeroed & Hc & Hz & Haux & _ & Hr).
  exists checkpoint, zeroed. split_and!; [done..| |done].
  rewrite Haux. reflexivity.
Defined.

Lemma truncated_checkpoint_inconsistent :
  inconsistent Examples.truncated_checkpoint Examples.trained
               (missing_tensor 0 Examples.W).
Proof.
  split; [reflexivity|]. exists 2. split; [reflexivity|].
  exists []. split; [reflexivity|]. simpl. lia.
Defined.

(** C5, as stated, fails in its last part: a restore that fails on a
    parameter has already overwritten the counters and the schedule. *)
Lemma failed_restore_is_partial :
  ¬ ∀ (E : Externals) checkpoint l why e l',
      inconsistent checkpoint l why →
      RestoreFromCheckpoint checkpoint l = (inl e, l') → l' = l.
Proof.
  intros Hclaim.
  assert (Hrun : RestoreFromCheckpoint Examples.truncated_checkpoint Examples.trained
                 = (inl missing_smoothed_gradient,
                    (RestoreFromCheckpoint Examples.truncated_checkpoint
                       Examples.trained).2)).
  { vm_compute. reflexivity. }
  specialize (Hclaim Reference.externals _ _ _ _ _
                truncated_checkpoint_inconsistent Hrun).
  apply (f_equal m_sampleCount) in Hclaim. vm_compute in Hclaim. discriminate Hclaim.
Qed.

Lemma RestoreFromCheckpoint_rejects_witness :
  inconsistent Examples.truncated_checkpoint Examples.trained
               (missing_tensor 0 Examples.W)
  ∧ ∃ e l', RestoreFromCheckpoint Examples.truncated_checkpoint Examples.trained
            = (inl e, l').
Proof.
  split; [exact truncated_checkpoint_inconsistent|].
  destruct (RestoreFromCheckpoint_rejects Examples.truncated_checkpoint
              Examples.trained (missing_tensor 0 Examples.W)
              truncated_checkpoint_inconsistent) as (e & l' & Hrun & _).
  by exists e, l'.
Defined.

(** C7, as stated, fails in its last part: restoring a checkpoint taken
    earlier sets the sample count back. *)
Lemma restore_rewinds_counters :
  ¬ ∀ (E : Externals) checkpoint l,
      m_sampleCount l ≤ m_sampleCount (RestoreFromCheckpoint checkpoint l).2.
Proof.
  intros Hclaim.
  specialize (Hclaim Reference.externals Examples.legacy_checkpoint Examples.trained).
  vm_compute in Hclaim. by apply Hclaim.
Qed.

Lemma ClipGradient_clips_witness :
  (gradientClippingThresholdPerSample Examples.truncating =? infinity)%float = false
  ∧ gradientClippingWithTruncation Examples.truncating = true
  ∧ (∃ r, ClipGradient Float Examples.truncating
            [1%float; (-3)%float; 0.25%float; 7%float] 3 !! 1%nat = Some r
          ∧ (- 0.375 <=? r)%float = true ∧ (r <=? 0.375)%float = true)
  ∧ ClipGradient Float Examples.truncating
      [1%float; (-3)%float; 0.25%float; 7%float] 3 !! 0%nat = Some 0.375%float
  ∧ ClipGradient Float Examples.truncating
      [1%float; (-3)%float; 0.25%float; 7%float] 3 !! 1%nat = Some (-0.375)%float
  ∧ ClipGradient Float Examples.truncating
      [1%float; (-3)%float; 0.25%float; 7%float] 3 !! 2%nat = Some 0.25%float
  ∧ ClipGradient Float Examples.truncating
      [1%float; (-3)%float; 0.25%float; 7%float] 3 !! 3%nat = Some 0.375%float.
Proof.
  split; [reflexivity|]. split; [reflexivity|].
  destruct (ClipGradient_clips Float Examples.truncating
              [1%float; (-3)%float; 0.25%float; 7%float] 3)
    as (_ & Htruncation & _).
  destruct (Htruncation eq_refl eq_refl) as [_ Helements].
  destruct (Helements 0%nat 1%float eq_refl)
    as (r0 & Hr0 & _ & _ & _ & Habove0 & _).
  destruct (Helements 1%nat (-3)%float eq_refl)
    as (r1 & Hr1 & _ & _ & Hbounded & _ & Hbelow1 & _).
  destruct (Helements 2%nat 0.25%float eq_refl)
    as (r2 & Hr2 & _ & Hwithin2 & _).
  destruct (Helements 3%nat 7%float eq_refl)
    as (r3 & Hr3 & _ & _ & _ & Habove3 & _).
  destruct (Hbounded eq_refl eq_refl) as [Hupper Hlower].
  split_and!.
  - exists r1. split; [exact Hr1|]. split; [exact Hlower|exact Hupper].
  - rewrite Hr0. f_equal. exact (Habove0 eq_refl).
  - rewrite Hr1. f_equal. exact (Hbelow1 eq_refl eq_refl).
  - rewrite Hr2. f_equal. exact (Hwithin2 eq_refl eq_refl).
  - rewrite Hr3. f_equal. exact (Habove3 eq_refl).
Defined.

Lemma legacy_restore_keeps_seed_witness :
  ∃ l', RestoreFromCheckpoint Examples.legacy_checkpoint
          (Examples.sgd Examples.frozen) = (inr tt, l')
        ∧ m_noiseInjectionSeed l' = 7
        ∧ m_sampleCount l' = 5
        ∧ m_smoothedGradientValues l' !! "Parameter1"
          = Some (mkNDArrayView Double [] [0.5%float]).
Proof.
  destruct (legacy_restore_keeps_seed Examples.legacy_checkpoint
              (Examples.sgd Examples.frozen) 1 5 2
              (Reference.serialize Examples.halving) Examples.halving)
    as (l' & Hrun & Hseed & Hsc & _ & _ & Htensors).
  - reflexivity.
  - reflexivity.
  - reflexivity.
  - reflexivity.
  - reflexivity.
  - reflexivity.
  - vm_compute. reflexivity.
  - reflexivity.
  - repeat constructor. eexists _, _.
    split_and!; [reflexivity|reflexivity|split; reflexivity].
  - discriminate.
  - exists l'. split_and!; [done..|].
    apply Forall_inv in Htensors as (a & Ha & Hl').
    change (Uid Examples.W) with "Parameter1" in Hl'. rewrite Hl'.
    assert (Hstored : Examples.legacy_checkpoint !! Uid Examples.W
                      = Some (DV_NDArrayView (mkNDArrayView Double [] [0.5%float])))
      by reflexivity.
    rewrite Hstored in Ha. by injection Ha as <-.
Defined.

Lemma LearnerUniversal_ctor_validates_witness :
  length [Examples.W] = length [Examples.G]
  ∧ [Examples.W] ≠ []
  ∧ NoDup (Uid <$> [Examples.W])
  ∧ Forall (λ p, contains_var (Inputs Examples.update) p = true) [Examples.W]
  ∧ ∃ l, (LearnerUniversal_ctor [Examples.W] [Examples.G] Examples.update 7).1 = inr l
         ∧ (LearnerUniversal_ctor [Examples.W] [Examples.G] Examples.update 7).2
           = [missing_gradient_warning]
         ∧ m_update_func l = Some Examples.update.
Proof.
  assert (Hnd : NoDup (Uid <$> [Examples.W])).
  { apply NoDup_singleton. }
  assert (Hall : Forall (λ p, contains_var (Inputs Examples.update) p = true)
                        [Examples.W]).
  { repeat constructor. }
  split_and!; [reflexivity|discriminate|exact Hnd|exact Hall|].
  destruct (LearnerUniversal_ctor_validates [Examples.W] [Examples.G]
              Examples.update 7) as (_ & _ & _ & Hok).
  destruct (Hok eq_refl ltac:(discriminate) Hnd Hall)
    as (l & Hl & Hprinted & _ & _ & Hfunc & _).
  exists l. split_and!; [exact Hl|exact Hprinted|exact Hfunc].
Defined.

(** * Further properties *)

Section StepFrame.
Context `{Externals} {X : Type} (proj : World → X).
Hypothesis proj_value : ∀ uid m w,
  proj (with_values (alter (λ v, with_data v m) uid) w) = proj w.
Hypothesis proj_gradient : ∀ uid m w,
  proj (with_gradientValues (alter (λ v, with_data v m) uid) w) = proj w.
Hypothesis proj_smoothed : ∀ uid m w,
  proj (with_learner (λ l, set_smoothedGradientValues
          (alter (λ v, with_data v m) uid (m_smoothedGradientValues l)) l) w) = proj w.
Hypothesis proj_seed : ∀ w,
  proj (with_learner (λ l, set_noiseInjectionSeed
          (size_t.incr (m_noiseInjectionSeed l)) l) w) = proj w.
Hypothesis proj_reported : ∀ name x w,
  proj (with_learner (λ l, set_trainingParametersMap
          (<[name := x]> (m_trainingParametersMap l)) l) w) = proj w.
Hypothesis proj_progress : ∀ x w, proj (with_progress (cons x) w) = proj w.
Hypothesis proj_recorded : ∀ f w, proj (with_valueUpdates f w) = proj w.

Ltac step := first [apply proj_value | apply proj_gradient | apply proj_smoothed
                   | apply proj_seed | apply proj_reported | apply proj_progress].

Lemma Report_preserves schedule name :
  preserves proj (ReportTrainingParameterValue schedule name).
Proof. unfold ReportTrainingParameterValue. frame_with step. Qed.

Lemma PreProcess_preserves et parameter n :
  preserves proj (PreProcess et parameter n).
Proof.
  unfold PreProcess, gradient_of, value_of, write_gradient. frame_with step.
Qed.

Lemma PostProcess_preserves et parameter n :
  preserves proj (PostProcess et parameter n).
Proof. unfold PostProcess, value_of, write_value. frame_with step. Qed.

Lemma Update_kernel_preserves et parameter n :
  preserves proj (Update_kernel et parameter n).
Proof.
  unfold Update_kernel, gradient_of, value_of, smoothed_of,
    write_value, write_gradient, write_smoothed.
  frame_with step.
Qed.

Lemma DISPATCH_preserves typed parameter :
  (∀ et, preserves proj (typed et)) →
  preserves proj (DISPATCH_TO_TYPED_UPDATE_FUNCTION typed parameter).
Proof.
  intros Htyped. unfold DISPATCH_TO_TYPED_UPDATE_FUNCTION, smoothed_of.
  frame_with step; apply Htyped.
Qed.

Lemma Update_parameter_preserves parameter n :
  preserves proj (Update_parameter parameter n).
Proof.
  unfold Update_parameter.
  frame_with step;
    try apply Report_preserves;
    apply DISPATCH_preserves; intros; apply Update_kernel_preserves.
Qed.

Lemma update_each_preserves n parameter :
  preserves proj (update_each n parameter).
Proof.
  unfold update_each, smoothed_of, gradient_of. frame_with step.
  apply DISPATCH_preserves. intros et. unfold LearnerBase_Update_typed.
  cbv zeta.
  auto using PreProcess_preserves, Update_parameter_preserves,
    PostProcess_preserves, RecordValueUpdate_preserves with frame.
Qed.

Lemma reported_preserves w : proj (reported w) = proj w.
Proof. apply Report_preserves. Qed.
End StepFrame.

Section UpdateRuns.
Context `{Externals}.

Lemma reported_run w :
  ReportTrainingParameterValue (m_learningRateSchedule (learner w))
    "Learning rate" w = (inr tt, reported w).
Proof.
  unfold reported.
  pose proof (Report_returns (m_learningRateSchedule (learner w))
                "Learning rate" w) as Hr.
  destruct (ReportTrainingParameterValue _ _ w) as [r w']. simpl in *. by subst.
Qed.

Lemma reported_training_state w :
  training_state_of (reported w) = training_state_of w.
Proof. apply Report_preserves_training_state. Qed.

Lemma reported_configuration w :
  configuration (learner (reported w)) = configuration (learner w).
Proof.
  unfold reported, ReportTrainingParameterValue.
  match goal with |- context [(?m w).2] =>
    assert (Hp : preserves (λ w, configuration (learner w)) m) end.
  { frame_with done. }
  apply Hp.
Qed.

Lemma LearnerBase_Update_run n sweepEnd w :
  LearnerBase_Update n sweepEnd w
  = if (LearningRatePerSample (learner w) n =? 0)%float
    then (inr false, reported w)
    else if n =? 0
    then (inl (InvalidArgument
                 "Learner::Update() cannot perform an update with an empty minibatch."),
          reported w)
    else match for_each (Parameters (learner w)) (update_each n)
                 (with_learner (UpdateOnMinibatch n) (reported w)) with
         | (inr _, w') => (inr true, with_learner (advance_counters n sweepEnd) w')
         | (inl e, w') => (inl e, w')
         end.
Proof.
  unfold LearnerBase_Update.
  rewrite bind_run. unfold this at 1. rewrite bind_run, reported_run.
  rewrite bind_run. unfold this at 1.
  rewrite (LearningRatePerSample_training_state w (reported w))
    by apply reported_training_state.
  destruct (_ =? 0)%float; [done|]. destruct (n =? 0); [done|].
  rewrite bind_run. unfold modify at 1.
  rewrite bind_run. unfold this at 1. rewrite bind_run.
  assert (Parameters (learner (with_learner (UpdateOnMinibatch n) (reported w)))
          = Parameters (learner w)) as ->.
  { pose proof (reported_configuration w) as Hc. unfold configuration in Hc.
    unfold Parameters. cbn [learner with_learner].
    transitivity (m_parameters (learner (reported w))); [|congruence].
    unfold UpdateOnMinibatch. by destruct (kind _). }
  fold (update_each n).
  change (λ parameter : Var, update_each n parameter) with (update_each n).
  destruct (for_each _ _ _) as [[e|[]] w']; [done|].
  by rewrite bind_run.
Qed.

Lemma LearnerUniversal_Update_run n sweepEnd w :
  LearnerUniversal_Update n sweepEnd w
  = if (LearningRatePerSample (learner w) n =? 0)%float
    then (inr false, reported w)
    else if n =? 0
    then (inl (InvalidArgument
                 "Learner::Update() cannot perform an update with an empty minibatch."),
          reported w)
    else match for_each (Parameters (learner w)) (bind_gradient (learner w))
                 (reported w) with
         | (inl e, w') => (inl e, w')
         | (inr _, w') =>
             match m_update_func (learner w) with
             | None => (inl (LogicError "m_update_func is null"), w')
             | Some update =>
                 match Forward update (values w') with
                 | inl e => (inl e, w')
                 | inr values' =>
                     (inr true, with_learner (advance_counters n sweepEnd)
                                  (with_values (λ _, values') w'))
                 end
             end
         end.
Proof.
  unfold LearnerUniversal_Update.
  rewrite bind_run. unfold this at 1. rewrite bind_run, reported_run.
  rewrite bind_run. unfold this at 1.
  rewrite (LearningRatePerSample_training_state w (reported w))
    by apply reported_training_state.
  destruct (_ =? 0)%float; [done|]. destruct (n =? 0); [done|].
  pose proof (reported_configuration w) as Hc. unfold configuration in Hc.
  injection Hc as Hk Hp Hs Ho Hm Hf.
  rewrite bind_run. unfold Parameters. rewrite Hp, Hm, Hf.
  change (for_each (m_parameters (learner w)) _ (reported w))
    with (for_each (m_parameters (learner w)) (bind_gradient (learner w)) (reported w)).
  destruct (for_each _ _ _) as [[e|[]] w']; [done|].
  rewrite bind_run. destruct (m_update_func (learner w)) as [f|]; [|done].
  unfold mret at 1, StateExn_ret at 1.
  rewrite bind_run. unfold get at 1. rewrite bind_run. unfold lift at 1.
  destruct (Forward f (values w')) as [e|values']; [done|].
  rewrite bind_run. unfold modify at 1. rewrite bind_run. by unfold modify at 1.
Qed.
End UpdateRuns.

Lemma layouts_alter_data (m : gmap string NDArrayView) uid (d : Matrix) :
  layouts (alter (λ v, with_data v d) uid m) = layouts m.
Proof.
  unfold layouts. apply map_eq. intros i. rewrite !lookup_fmap.
  destruct (decide (uid = i)) as [->|Hne].
  - rewrite lookup_alter_eq. by destruct (m !! i).
  - by rewrite lookup_alter_ne.
Qed.

Section UpdateFrame.
Context `{Externals}.

Lemma UpdateOnMinibatch_configuration n l :
  configuration (UpdateOnMinibatch n l) = configuration l
  ∧ m_smoothedGradientValues (UpdateOnMinibatch n l) = m_smoothedGradientValues l
  ∧ m_noiseInjectionSeed (UpdateOnMinibatch n l) = m_noiseInjectionSeed l
  ∧ counters_of (UpdateOnMinibatch n l) = counters_of l.
Proof. unfold UpdateOnMinibatch. by destruct (kind l). Qed.

Lemma Update_cases gradients n sweepEnd w :
  let w0 := with_gradientValues (λ _, gradients) w in
  kind (learner w) = LearnerUniversal
  ∧ Update gradients n sweepEnd w = LearnerUniversal_Update n sweepEnd w0
  ∨ kind (learner w) ≠ LearnerUniversal
    ∧ Update gradients n sweepEnd w = LearnerBase_Update n sweepEnd w0.
Proof.
  rewrite Update_dispatch. cbv zeta.
  destruct (kind (learner w)); first [by left|by right].
Qed.

Lemma bind_gradient_preserves {X} (proj : World → X) l parameter :
  (∀ f w, proj (with_values f w) = proj w) →
  (∀ f w, proj (with_stderr f w) = proj w) →
  preserves proj (bind_gradient l parameter).
Proof.
  intros Hv He. unfold bind_gradient, gradient_of.
  frame_with ltac:(first [apply Hv | apply He]).
Qed.

Lemma Update_frame gradients n sweepEnd w :
  let w' := (Update gradients n sweepEnd w).2 in
  configuration (learner w') = configuration (learner w)
  ∧ layouts (m_smoothedGradientValues (learner w'))
    = layouts (m_smoothedGradientValues (learner w))
  ∧ (kind (learner w) ≠ LearnerUniversal →
     layouts (values w') = layouts (values w)).
Proof.
  set (proj := λ w : World,
         (configuration (learner w),
          layouts (m_smoothedGradientValues (learner w)))).
  cbv zeta. pose proof (Update_cases gradients n sweepEnd w) as Hcases.
  cbv zeta in Hcases.
  set (w0 := with_gradientValues (λ _, gradients) w) in *.
  assert (Hrep : proj (reported w0) = proj w).
  { transitivity (proj w0); [|done]. by apply reported_preserves. }
  assert (Hrep' : layouts (values (reported w0)) = layouts (values w)).
  { transitivity (layouts (values w0)); [|done].
    by apply (reported_preserves (λ w, layouts (values w))). }
  assert (Hstep : ∀ p, preserves proj (update_each n p)).
  { intros p. apply update_each_preserves; try done.
    intros uid m s. unfold proj. cbn. by rewrite layouts_alter_data. }
  assert (Hstep' : ∀ p, preserves (λ w, layouts (values w)) (update_each n p)).
  { intros p. apply update_each_preserves; try done.
    intros uid m s. cbn. by rewrite layouts_alter_data. }
  assert (Hbase :
    let w' := (LearnerBase_Update n sweepEnd w0).2 in
    proj w' = proj w ∧ layouts (values w') = layouts (values w)).
  { cbv zeta. rewrite LearnerBase_Update_run.
    destruct (_ =? 0)%float; [done|]. destruct (n =? 0); [done|].
    set (w2 := with_learner (UpdateOnMinibatch n) (reported w0)).
    assert (Hw2 : proj w2 = proj w).
    { rewrite <- Hrep. unfold proj, w2. cbn [learner with_learner].
      destruct (UpdateOnMinibatch_configuration n (learner (reported w0)))
        as (-> & -> & _). done. }
    pose proof (preserves_for_each proj (Parameters (learner w0)) _ Hstep w2) as Hloop.
    pose proof (preserves_for_each (λ w, layouts (values w))
                  (Parameters (learner w0)) _ Hstep' w2) as Hloop'.
    destruct (for_each _ _ w2) as [[e|[]] w3]; simpl in *.
    - split; [congruence|]. by rewrite Hloop'.
    - split; [|by rewrite Hloop']. rewrite <- Hw2, <- Hloop. done. }
  assert (Huniv : proj (LearnerUniversal_Update n sweepEnd w0).2 = proj w).
  { rewrite LearnerUniversal_Update_run.
    destruct (_ =? 0)%float; [done|]. destruct (n =? 0); [done|].
    assert (Hstepu : ∀ p, preserves proj (bind_gradient (learner w0) p)).
    { intros p. by apply bind_gradient_preserves. }
    pose proof (preserves_for_each proj (Parameters (learner w0)) _ Hstepu
                  (reported w0)) as Hloop.
    destruct (for_each _ _ (reported w0)) as [[e|[]] w3]; simpl in *;
      [congruence|].
    destruct (m_update_func _); [|simpl; congruence].
    destruct (Forward _ _); simpl; [congruence|].
    rewrite <- Hrep, <- Hloop. done. }
  cbv zeta in Hbase. destruct Hbase as [Hbase Hvalues].
  destruct Hcases as [[Hu ->]|[Hu ->]].
  - pose proof (f_equal fst Huniv) as Hc.
    pose proof (f_equal snd Huniv) as Hl. by split_and!.
  - pose proof (f_equal fst Hbase) as Hc.
    pose proof (f_equal snd Hbase) as Hl. by split_and!.
Qed.

(** X1. Whatever its outcome, [Update] leaves the class of the learner and its
    constants, the parameter list, the learning-rate schedule, the
    additional options and the bindings of a universal learner as they
    were, and every smoothed gradient keeps its key, element type and
    shape; a learner that is not universal also keeps key, element type
    and shape of every tensor of the model. *)
Theorem Update_keeps_configuration gradients n sweepEnd w :
  let w' := (Update gradients n sweepEnd w).2 in
  configuration (learner w') = configuration (learner w)
  ∧ layouts (m_smoothedGradientValues (learner w'))
    = layouts (m_smoothedGradientValues (learner w))
  ∧ (kind (learner w) ≠ LearnerUniversal →
     layouts (values w') = layouts (values w)).
Proof. apply Update_frame. Qed.
End UpdateFrame.

Lemma bind_returns {S A B} (m : StateExn S A) (f : A → StateExn S B) s b s' :
  (m ≫= f) s = (inr b, s') →
  ∃ a s1, m s = (inr a, s1) ∧ f a s1 = (inr b, s').
Proof.
  rewrite bind_run. destruct (m s) as [[e|a] s1]; [done|]. eauto.
Qed.

Lemma for_each_iter {S A X} (Inv : S → Prop) (proj : S → X) (f : X → X)
    (xs : list A) (body : A → StateExn S unit) :
  (∀ x s s', Inv s → body x s = (inr tt, s') → Inv s' ∧ proj s' = f (proj s)) →
  ∀ s s', Inv s → for_each xs body s = (inr tt, s') →
          Inv s' ∧ proj s' = Nat.iter (length xs) f (proj s).
Proof.
  intros Hbody. induction xs as [|x xs IH]; intros s s' Hs.
  { by intros [= <-]. }
  cbn [for_each]. intros ([] & s1 & Hx & Hrest)%bind_returns.
  destruct (Hbody x s s1 Hs Hx) as [Hs1 Hp].
  destruct (IH s1 s' Hs1 Hrest) as [Hs' Hp'].
  split; [done|]. rewrite Hp', Hp. cbn [length]. by rewrite Nat.iter_succ_r.
Qed.

Section UpdateOutcome.
Context `{Externals}.

Lemma update_each_needs_gradient n p w :
  gradientValues w !! Uid p = None → ∃ e, (update_each n p w).1 = inl e.
Proof.
  intros Hg. unfold update_each. rewrite bind_run.
  destruct (smoothed_of p w) as [[e|a] w1] eqn:Hs; [by eexists|].
  assert (w1 = w) as ->.
  { revert Hs. unfold smoothed_of. rewrite bind_run. unfold this at 1, lift.
    by intros [= _ <-]. }
  rewrite bind_run. unfold gradient_of at 1. rewrite bind_run. unfold get at 1, lift.
  rewrite (at_key_None _ _ Hg). by eexists.
Qed.

Lemma bind_gradient_needs_gradient l p w :
  gradientValues w !! Uid p = None → ∃ e, (bind_gradient l p w).1 = inl e.
Proof.
  intros Hg. unfold bind_gradient. rewrite bind_run.
  unfold gradient_of at 1. rewrite bind_run. unfold get at 1, lift.
  rewrite (at_key_None _ _ Hg). by eexists.
Qed.

(** X2. An [Update] that returns [true] was given a minibatch that is not
    empty, at a learning rate that is not zero, and a gradient for every
    parameter of the learner. *)
Theorem Update_true_had_gradients gradients n sweepEnd w w' :
  Update gradients n sweepEnd w = (inr true, w') →
  n ≠ 0
  ∧ (LearningRatePerSample (learner w) n =? 0)%float = false
  ∧ Forall (λ p, is_Some (gradients !! Uid p)) (Parameters (learner w)).
Proof.
  intros Hrun.
  pose proof (Update_cases gradients n sweepEnd w) as Hcases. cbv zeta in Hcases.
  set (w0 := with_gradientValues (λ _, gradients) w) in *.
  assert (Hrate : LearningRatePerSample (learner w0) n
                  = LearningRatePerSample (learner w) n) by done.
  assert (Hloop : ∀ body s,
    (∀ p, preserves (λ s, dom (gradientValues s)) (body p)) →
    (∀ p s, gradientValues s !! Uid p = None → ∃ e, (body p s).1 = inl e) →
    dom (gradientValues s) = dom gradients →
    (for_each (Parameters (learner w)) body s).1 = inr tt →
    Forall (λ p, is_Some (gradients !! Uid p)) (Parameters (learner w))).
  { intros body s Hdom Hneeds Hs Hok. apply Forall_forall. intros p Hp.
    destruct (gradients !! Uid p) as [g|] eqn:Hg; [by eexists|]. exfalso.
    destruct (for_each_fails (λ s, dom (gradientValues s) = dom gradients)
                (Parameters (learner w)) body p Hp) with (s := s) as [e He];
      [| |done|congruence].
    - intros x t Ht. by rewrite (Hdom x t).
    - intros t Ht. apply Hneeds. apply not_elem_of_dom. rewrite Ht.
      by apply not_elem_of_dom. }
  destruct Hcases as [[Hu Heq]|[Hu Heq]]; rewrite Heq in Hrun; clear Heq.
  - rewrite LearnerUniversal_Update_run, Hrate in Hrun.
    destruct (_ =? 0)%float; [done|]. destruct (n =? 0) eqn:Hn; [done|].
    apply N.eqb_neq in Hn. split_and!; [done..|].
    destruct (for_each _ _ (reported w0)) as [[e|[]] w3] eqn:Hfor; [done|].
    apply (Hloop (bind_gradient (learner w0)) (reported w0)).
    + intros p. by apply bind_gradient_preserves.
    + apply bind_gradient_needs_gradient.
    + by rewrite (reported_preserves (λ s, dom (gradientValues s))).
    + change (Parameters (learner w)) with (Parameters (learner w0)).
      by rewrite Hfor.
  - rewrite LearnerBase_Update_run, Hrate in Hrun.
    destruct (_ =? 0)%float; [done|]. destruct (n =? 0) eqn:Hn; [done|].
    apply N.eqb_neq in Hn. split_and!; [done..|].
    destruct (for_each _ _ _) as [[e|[]] w3] eqn:Hfor; [done|].
    apply (Hloop (update_each n) (with_learner (UpdateOnMinibatch n) (reported w0))).
    + intros p. apply update_each_preserves; try done.
      intros uid m s. cbn. by rewrite dom_alter_L.
    + apply update_each_needs_gradient.
    + cbn. by rewrite (reported_preserves (λ s, dom (gradientValues s))).
    + change (Parameters (learner w)) with (Parameters (learner w0)).
      by rewrite Hfor.
Qed.
End UpdateOutcome.

Section NoiseSeed.
Context `{Externals}.


Lemma noise_stdDev_state w w' :
  noise_state w' = noise_state w →
  noise_stdDev (learner w') = noise_stdDev (learner w).
Proof.
  unfold noise_state, counters, counters_of, noise_stdDev,
    GetCurrentTrainingParameterValue.
  intros [= ? ? ? ?]. congruence.
Qed.

Lemma PostProcess_seed et p n w w' :
  PostProcess et p n w = (inr tt, w') →
  noise_state w' = noise_state w
  ∧ noise_seed w' = next_seed (learner w) (noise_seed w).
Proof.
  unfold PostProcess. intros Hrun.
  apply bind_returns in Hrun as (pv & w1 & Hpv & Hrun).
  assert (w1 = w) as ->.
  { assert (Hp : preserves (λ w, w) (value_of p)) by (unfold value_of; frame_with done).
    specialize (Hp w). by rewrite Hpv in Hp. }
  apply bind_returns in Hrun as (pm & w1 & Hpm & Hrun).
  injection Hpm as _ <-.
  apply bind_returns in Hrun as (l & w1 & Hl & Hrun).
  injection Hl as <- <-.
  apply bind_returns in Hrun as ([] & w1 & Hnoise & Hrun).
  assert (Hrest : noise_state w' = noise_state w1 ∧ noise_seed w' = noise_seed w1).
  { revert Hrun.
    match goal with |- ?m w1 = _ → _ =>
      assert (Hp : preserves (λ w, (noise_state w, noise_seed w)) m) end.
    { unfold value_of, write_value. frame_with done. }
    intros Hrun. specialize (Hp w1). rewrite Hrun in Hp.
    split; [exact (f_equal fst Hp)|exact (f_equal snd Hp)]. }
  destruct Hrest as [-> ->]. revert Hnoise. unfold next_seed, noise_stdDev.
  destruct (0 <? _)%float.
  - unfold write_value. rewrite bind_run. unfold modify. by intros [= <-].
  - by intros [= <-].
Qed.

Lemma update_each_seed n p w w' :
  update_each n p w = (inr tt, w') →
  noise_state w' = noise_state w
  ∧ noise_seed w' = next_seed (learner w) (noise_seed w).
Proof.
  unfold update_each. intros Hrun.
  apply bind_returns in Hrun as (sg & w1 & Hsg & Hrun).
  assert (w1 = w) as ->.
  { assert (Hp : preserves (λ w, w) (smoothed_of p)) by (unfold smoothed_of; frame_with done).
    specialize (Hp w). by rewrite Hsg in Hp. }
  apply bind_returns in Hrun as (g & w1 & Hg & Hrun).
  assert (w1 = w) as ->.
  { assert (Hp : preserves (λ w, w) (gradient_of p)) by (unfold gradient_of; frame_with done).
    specialize (Hp w). by rewrite Hg in Hp. }
  clear sg Hsg g Hg. revert Hrun. unfold DISPATCH_TO_TYPED_UPDATE_FUNCTION.
  intros (sg & w1 & Hsg & Hrun)%bind_returns.
  assert (w1 = w) as ->.
  { assert (Hp : preserves (λ w, w) (smoothed_of p)) by (unfold smoothed_of; frame_with done).
    specialize (Hp w). by rewrite Hsg in Hp. }
  assert (Htyped : ∀ et, LearnerBase_Update_typed et p n w = (inr tt, w') →
            noise_state w' = noise_state w ∧ noise_seed w' = next_seed (learner w) (noise_seed w)).
  { intros et. unfold LearnerBase_Update_typed.
    intros ([] & w1 & Hpre & Hrest)%bind_returns.
    apply bind_returns in Hrest as ([] & w2 & Hupd & Hpost).
    apply bind_returns in Hpost as ([] & w3 & Hpost & Hrec).
    cbv zeta in Hrec. unfold RecordValueUpdate, modify in Hrec.
    injection Hrec as <-.
    enough (noise_state w3 = noise_state w
            ∧ noise_seed w3 = next_seed (learner w) (noise_seed w)) as Hgoal
      by exact Hgoal.
    apply PostProcess_seed in Hpost as [Hns Hseed].
    assert (Hw1 : (noise_state w1, noise_seed w1) = (noise_state w, noise_seed w)).
    { pose proof (PreProcess_preserves (λ w, (noise_state w, noise_seed w))) as Hp.
      specialize (Hp (λ _ _ _, eq_refl) et p n w). by rewrite Hpre in Hp. }
    assert (Hw2 : (noise_state w2, noise_seed w2) = (noise_state w1, noise_seed w1)).
    { pose proof (Update_parameter_preserves (λ w, (noise_state w, noise_seed w))) as Hp.
      specialize (Hp (λ _ _ _, eq_refl) (λ _ _ _, eq_refl) (λ _ _ _, eq_refl)
                     (λ _ _ _, eq_refl) (λ _ _, eq_refl) p n w1).
      by rewrite Hupd in Hp. }
    pose proof (f_equal fst Hw1) as Hn1. pose proof (f_equal snd Hw1) as Hs1.
    pose proof (f_equal fst Hw2) as Hn2. pose proof (f_equal snd Hw2) as Hs2.
    cbn [fst snd] in Hn1, Hs1, Hn2, Hs2.
    rewrite Hns, Hseed, Hs2, Hs1, Hn2, Hn1. split; [done|].
    unfold next_seed. rewrite (noise_stdDev_state w2 w); [done|congruence]. }
  destruct (GetDataType sg); [done|by apply (Htyped Float)|by apply (Htyped Double)].
Qed.

(** X3. A successful [Update] of a learner that is not universal draws noise
    once per parameter when the standard deviation of the noise at the
    current counters is positive, each draw taking the next noise_seed; when
    it is not positive the noise_seed stays. *)
Theorem Update_advances_seed gradients n sweepEnd w w' :
  Update gradients n sweepEnd w = (inr true, w') →
  kind (learner w) ≠ LearnerUniversal →
  m_noiseInjectionSeed (learner w')
  = if (0 <? noise_stdDev (learner w))%float
    then Nat.iter (length (Parameters (learner w))) size_t.incr
                  (m_noiseInjectionSeed (learner w))
    else m_noiseInjectionSeed (learner w).
Proof.
  intros Hrun Hkind.
  destruct (Update_cases gradients n sweepEnd w) as [[Hu _]|[_ Heq]]; [done|].
  rewrite Heq in Hrun. clear Heq.
  set (w0 := with_gradientValues (λ _, gradients) w) in *.
  rewrite LearnerBase_Update_run in Hrun.
  destruct (_ =? 0)%float; [done|]. destruct (n =? 0); [done|].
  set (w2 := with_learner (UpdateOnMinibatch n) (reported w0)) in *.
  destruct (for_each _ _ w2) as [[e|[]] w3] eqn:Hfor; [done|].
  injection Hrun as <-.
  assert (Hw2 : noise_state w2 = noise_state w ∧ noise_seed w2 = noise_seed w).
  { pose proof (reported_preserves (λ w, (noise_state w, noise_seed w))
                  (λ _ _ _, eq_refl) (λ _ _, eq_refl) w0) as Hr.
    pose proof (f_equal fst Hr) as Hn. pose proof (f_equal snd Hr) as Hs.
    cbn [fst snd] in Hn, Hs. unfold w2, noise_state, noise_seed, counters in *.
    cbn [learner with_learner] in *.
    destruct (UpdateOnMinibatch_configuration n (learner (reported w0)))
      as (Hc & _ & -> & ->).
    unfold configuration in Hc. injection Hc as _ _ _ -> _ _. by rewrite Hn, Hs. }
  destruct Hw2 as [Hn2 Hs2].
  destruct (for_each_iter (λ s, noise_state s = noise_state w) noise_seed
              (next_seed (learner w)) (Parameters (learner w0)) (update_each n))
    with (s := w2) (s' := w3) as [_ Hseed]; [|done..|].
  { intros p s s' Hs Hstep. apply update_each_seed in Hstep as [Hn' Hs'].
    split; [congruence|]. rewrite Hs'. unfold next_seed.
    by rewrite (noise_stdDev_state s w). }
  change (m_noiseInjectionSeed (learner (with_learner _ w3))) with (noise_seed w3).
  rewrite Hseed, Hs2. unfold next_seed, noise_seed.
  change (Parameters (learner w0)) with (Parameters (learner w)).
  destruct (0 <? _)%float; [done|].
  clear. induction (length _) as [|k IH]; [done|]. simpl. exact IH.
Qed.
End NoiseSeed.

Section SmoothedCount.
Context `{Externals}.
Local Open Scope float_scope.


Lemma UpdateOnMinibatch_smoothedCount n l :
  m_smoothedCount (UpdateOnMinibatch n l) = smoothedCount_after n l.
Proof. unfold UpdateOnMinibatch, smoothedCount_after. by destruct (kind l). Qed.

Lemma smoothedCount_after_ext n l l' :
  kind l = kind l' → counters_of l = counters_of l' →
  m_smoothedCount l = m_smoothedCount l' →
  smoothedCount_after n l = smoothedCount_after n l'.
Proof.
  unfold smoothedCount_after, VarianceMomentumValueForMB, counters_of.
  intros -> [= -> _ ->] ->. done.
Qed.

Lemma Update_smoothedCount gradients n sweepEnd w :
  m_smoothedCount (learner (Update gradients n sweepEnd w).2)
  = if (LearningRatePerSample (learner w) n =? 0) || (n =? 0)%N
    then m_smoothedCount (learner w)
    else smoothedCount_after n (learner w).
Proof.
  set (proj := λ w : World, m_smoothedCount (learner w)).
  pose proof (Update_cases gradients n sweepEnd w) as Hcases. cbv zeta in Hcases.
  set (w0 := with_gradientValues (λ _, gradients) w) in *.
  change (LearningRatePerSample (learner w) n)
    with (LearningRatePerSample (learner w0) n).
  pose proof (reported_training_state w0) as Hts.
  pose proof (reported_configuration w0) as Hc.
  assert (Hrep : proj (reported w0) = proj w).
  { exact (f_equal ts_smoothedCount Hts). }
  destruct Hcases as [[Hu ->]|[Hu ->]].
  - rewrite LearnerUniversal_Update_run.
    destruct (_ =? 0); [done|]. destruct (n =? 0)%N; [done|]. cbn [orb].
    pose proof (preserves_for_each proj (Parameters (learner w0))
                  (bind_gradient (learner w0))
                  (λ p, bind_gradient_preserves proj (learner w0) p
                          (λ _ _, eq_refl) (λ _ _, eq_refl))
                  (reported w0)) as Hloop.
    unfold smoothedCount_after. rewrite Hu. unfold proj in *.
    destruct (for_each _ _ (reported w0)) as [[e|[]] w3]; simpl in *; [congruence|].
    destruct (m_update_func _); [|simpl; congruence].
    destruct (Forward _ _); simpl; congruence.
  - rewrite LearnerBase_Update_run.
    destruct (_ =? 0); [done|]. destruct (n =? 0)%N; [done|]. cbn [orb].
    set (w2 := with_learner (UpdateOnMinibatch n) (reported w0)).
    pose proof (preserves_for_each proj (Parameters (learner w0)) (update_each n)
                  (λ p, update_each_preserves proj
                          (λ _ _ _, eq_refl) (λ _ _ _, eq_refl) (λ _ _ _, eq_refl)
                          (λ _, eq_refl) (λ _ _ _, eq_refl) (λ _ _, eq_refl)
                          (λ _ _, eq_refl) n p)
                  w2) as Hloop.
    assert (Hw2 : proj w2 = smoothedCount_after n (learner w)).
    { unfold proj, w2. cbn [learner with_learner].
      rewrite UpdateOnMinibatch_smoothedCount.
      apply smoothedCount_after_ext.
      - exact (f_equal (λ c, c.1.1.1.1.1) Hc).
      - exact (f_equal ts_counters Hts).
      - exact (f_equal ts_smoothedCount Hts). }
    unfold proj in *.
    destruct (for_each _ _ w2) as [[e|[]] w3]; simpl in *; congruence.
Qed.

(** X4. An [Update] that gets past its two guards (the rate is not zero, the
    minibatch is not empty) advances the smoothed count of an Adam or
    RMSProp learner by one and averages that of an FSAdaGrad learner,
    before it looks at any gradient: the count has moved even when the
    call then throws.  The other learners keep theirs. *)
Theorem Update_advances_smoothedCount gradients n sweepEnd w :
  (LearningRatePerSample (learner w) n =? 0) = false → n ≠ 0%N →
  m_smoothedCount (learner (Update gradients n sweepEnd w).2)
  = smoothedCount_after n (learner w).
Proof.
  intros Hrate Hn%N.eqb_neq. by rewrite Update_smoothedCount, Hrate, Hn.
Qed.
End SmoothedCount.

Section UniversalUpdate.
Context `{Externals}.


Lemma bind_gradient_loop l ps w w' :
  for_each ps (bind_gradient l) w = (inr tt, w') →
  gradientValues w' = gradientValues w ∧ learner w' = learner w
  ∧ values w'
    = foldl (λ m p, match m_parameter_gradient_map l !! Uid p,
                          gradientValues w !! Uid p with
                    | Some grad, Some g => <[Uid grad := g]> m
                    | _, _ => m
                    end) (values w) ps.
Proof.
  revert w. induction ps as [|p ps IH]; intros w.
  { by intros [= <-]. }
  cbn [for_each foldl]. intros ([] & w1 & Hp & Hrest)%bind_returns.
  apply IH in Hrest as (Hg & Hl & Hv).
  revert Hp. unfold bind_gradient. rewrite bind_run.
  unfold gradient_of at 1. rewrite bind_run. unfold get at 1, lift, at_key.
  destruct (gradientValues w !! Uid p) as [g|] eqn:Hgp; [|done].
  destruct (m_parameter_gradient_map l !! Uid p) as [grad|].
  - unfold modify. intros [= <-]. by rewrite Hg, Hl, Hv.
  - rewrite bind_run. by unfold modify.
Qed.

(** X5. [Update] on a universal learner runs none of the per-parameter
    transforms: whatever its outcome, the caller's gradients, the
    smoothed gradients, the noise seed and the smoothed count are left as
    they were.  When it returns [true], every gradient was stored in the
    placeholder bound to its parameter and the model is what [Forward]
    of the update function made of that. *)
Theorem LearnerUniversal_Update_delegates gradients n sweepEnd w :
  kind (learner w) = LearnerUniversal →
  let run := Update gradients n sweepEnd w in
  gradientValues run.2 = gradients
  ∧ m_smoothedGradientValues (learner run.2) = m_smoothedGradientValues (learner w)
  ∧ m_noiseInjectionSeed (learner run.2) = m_noiseInjectionSeed (learner w)
  ∧ m_smoothedCount (learner run.2) = m_smoothedCount (learner w)
  ∧ (run.1 = inr true →
     ∃ update, m_update_func (learner w) = Some update
               ∧ Forward update (bound_values (learner w) gradients (values w))
                 = inr (values run.2)).
Proof.
  intros Hkind. cbv zeta.
  destruct (Update_cases gradients n sweepEnd w) as [[_ ->]|[? _]]; [|done].
  set (w0 := with_gradientValues (λ _, gradients) w).
  set (proj := λ w : World,
         (gradientValues w, m_smoothedGradientValues (learner w),
          m_noiseInjectionSeed (learner w), m_smoothedCount (learner w))).
  assert (Hrep : proj (reported w0) = proj w0).
  { by apply (reported_preserves proj). }
  assert (Hvals : values (reported w0) = values w).
  { change (values w) with (values w0). by apply (reported_preserves values). }
  enough (Hgoal :
    let run := LearnerUniversal_Update n sweepEnd w0 in
    proj run.2 = proj w0
    ∧ (run.1 = inr true →
       ∃ update, m_update_func (learner w) = Some update
                 ∧ Forward update (bound_values (learner w) gradients (values w))
                   = inr (values run.2))).
  { cbv zeta in Hgoal. destruct Hgoal as [Hp Hfwd]. unfold proj in Hp.
    injection Hp as Hg Hs Hseed Hcnt. by split_and!. }
  cbv zeta. rewrite LearnerUniversal_Update_run.
  destruct (_ =? 0)%float; [done|]. destruct (n =? 0); [done|].
  destruct (for_each _ _ (reported w0)) as [[e|[]] w3] eqn:Hfor.
  { split; [|done]. rewrite <- Hrep.
    pose proof (preserves_for_each proj (Parameters (learner w0))
                  (bind_gradient (learner w0))
                  (λ p, bind_gradient_preserves proj (learner w0) p
                          (λ _ _, eq_refl) (λ _ _, eq_refl))
                  (reported w0)) as Hloop.
    by rewrite Hfor in Hloop. }
  apply bind_gradient_loop in Hfor as (Hg & Hl & Hv).
  assert (Hw3 : proj w3 = proj w0).
  { rewrite <- Hrep. unfold proj. by rewrite Hg, Hl. }
  change (m_update_func (learner w0)) with (m_update_func (learner w)).
  destruct (m_update_func (learner w)) as [update|]; [|done].
  destruct (Forward update (values w3)) as [e|values'] eqn:Hfwd; [done|].
  split; [done|]. intros _. exists update. split; [done|].
  cbn [snd values with_learner with_values]. rewrite <- Hfwd, Hv. do 2 f_equal.
  unfold bound_values. rewrite Hvals.
  assert (gradientValues (reported w0) = gradients) as ->; [|done].
  by apply (reported_preserves gradientValues).
Qed.
End UniversalUpdate.

Section Reporting.
Context `{Externals}.
Local Open Scope float_scope.

Lemma Report_cases schedule name w :
  let value := GetCurrentTrainingParameterValue (learner w) schedule in
  let last := m_trainingParametersMap (learner w) !! name in
  (∃ r, last = Some r ∧ (r =? Value value) = true)
  ∧ ReportTrainingParameterValue schedule name w = (inr tt, w)
  ∨ (∀ r, last = Some r → (r =? Value value) = false)
    ∧ ReportTrainingParameterValue schedule name w
      = (inr tt,
         with_progress (cons (name, ReferenceMBSize value, Value value))
           (with_learner (λ l, set_trainingParametersMap
              (<[name := Value value]> (m_trainingParametersMap l)) l) w)).
Proof.
  cbv zeta. unfold ReportTrainingParameterValue. rewrite bind_run.
  unfold this. cbv beta iota.
  destruct (m_trainingParametersMap (learner w) !! name) as [r|] eqn:Hr.
  - destruct (r =? _) eqn:Heq; cbn [negb].
    + left. split; [by exists r|done].
    + right. split; [by intros ? [= <-]|]. rewrite bind_run. by unfold modify.
  - right. split; [done|]. rewrite bind_run. by unfold modify.
Qed.

Lemma nan_eqb (x r : float) : is_nan x = true → (r =? x) = false.
Proof.
  unfold is_nan. rewrite negb_true_iff, !FloatAxioms.eqb_spec. unfold SFeqb.
  destruct (Prim2SF r) as [[]|[]| |[] ? ?],
    (Prim2SF x) as [[]|[]| |[] mv ev]; simpl; try done;
    rewrite ?Z.compare_refl, ?Pos.compare_cont_refl; done.
Qed.

(** X6. [ReportTrainingParameterValue] writes to the progress writers only
    when the value differs from the one it recorded last: a second
    report in the same state leaves everything as the first left it,
    provided the value is a number.  A NaN differs from itself, and is
    written again by every report. *)
Theorem Report_again schedule name w :
  let value := GetCurrentTrainingParameterValue (learner w) schedule in
  let w1 := (ReportTrainingParameterValue schedule name w).2 in
  (is_nan (Value value) = false →
   ReportTrainingParameterValue schedule name w1 = (inr tt, w1))
  ∧ (is_nan (Value value) = true →
     progress (ReportTrainingParameterValue schedule name w1).2
     = (name, ReferenceMBSize value, Value value) :: progress w1).
Proof.
  cbv zeta.
  set (value := GetCurrentTrainingParameterValue (learner w) schedule).
  set (w1 := (ReportTrainingParameterValue schedule name w).2).
  assert (Hnow : GetCurrentTrainingParameterValue (learner w1) schedule = value).
  { pose proof (ReportTrainingParameterValue_counters schedule name w) as Hcnt.
    fold w1 in Hcnt. revert Hcnt.
    unfold value, GetCurrentTrainingParameterValue, counters, counters_of.
    by intros [= -> _ ->]. }
  assert (Hlast : is_nan (Value value) = false →
            ∃ r, m_trainingParametersMap (learner w1) !! name = Some r
                 ∧ (r =? Value value) = true).
  { intros Hnan. unfold is_nan in Hnan. apply negb_false_iff in Hnan.
    destruct (Report_cases schedule name w) as [[Hr Hrun]|[_ Hrun]];
      unfold w1; rewrite Hrun; cbn [snd]; [done|].
    exists (Value value). split; [|done]. cbn. apply lookup_insert_eq. }
  destruct (Report_cases schedule name w1) as [[Hr Hrun]|[Hr Hrun]];
    cbv zeta in Hr; rewrite ?Hnow in Hr, Hrun; rewrite Hrun; cbn [snd].
  - split; [done|]. intros Hnan. destruct Hr as (r & _ & Heq).
    pose proof (nan_eqb _ r Hnan) as Hx. unfold value in *. congruence.
  - split; [|done]. intros Hnan. destruct (Hlast Hnan) as (r & Hlook & Heq).
    pose proof (Hr r Hlook) as Hx. unfold value in *. congruence.
Qed.
End Reporting.

Section Resets.
Context `{Externals}.

(** X7. On a learner whose current count is zero, [ResetLearningRate],
    called with a schedule object other than the learner's own
    [m_learningRateSchedule], installs the schedule as it is given. *)
Theorem ResetLearningRate_fresh new l :
  keys_representable new → currentCount new l = 0 →
  m_learningRateSchedule (ResetLearningRate (other_schedule new) l) = new.
Proof.
  intros Hkeys Hzero. rewrite ResetLearningRate_schedule, Hzero.
  pose proof (shifted_keys_NoDup new 0 Hkeys eq_refl) as Hnd.
  set (active := shift_entries _ _ _) in *.
  assert (Hid : ∀ k, k ∈ (entries (m_schedule new)).*1 → size_t.add 0 k = k).
  { intros k [v Hk%entries_elem_of]%elem_of_keys.
    apply size_t_add_small. by apply (Hkeys k v). }
  assert (m_schedule active = m_schedule new) as Hs.
  { apply map_eq. intros k.
    destruct (m_schedule new !! k) as [v|] eqn:Hk.
    - rewrite <- (Hid k) at 1.
      + apply shift_entries_lookup; [done|]. by apply entries_elem_of.
      + apply list_elem_of_fmap. exists (k, v). split; [done|].
        by apply entries_elem_of.
    - unfold active. rewrite shift_entries_other; [done|].
      intros k' Hk' Heq. rewrite (Hid k' Hk') in Heq. subst k'.
      apply elem_of_keys in Hk' as [v Hv%entries_elem_of]. congruence. }
  assert (m_epochSize active = m_epochSize new) as He.
  { unfold active. by rewrite shift_entries_epochSize. }
  destruct active, new. simpl in *. by subst.
Qed.

(** X19. Called with the learner's own [m_learningRateSchedule],
    [ResetLearningRate] clears the schedule before it reads it: the
    learner is left with a schedule of the same epoch size and no entry,
    in which no time has a value. *)
Theorem ResetLearningRate_own_schedule l :
  let active := m_learningRateSchedule (ResetLearningRate own_schedule l) in
  m_schedule active = ∅
  ∧ m_epochSize active = m_epochSize (m_learningRateSchedule l)
  ∧ ∀ t, valueAt active t = None.
Proof.
  cbv zeta. unfold ResetLearningRate. cbn [read_schedule m_schedule m_epochSize].
  change (entries ∅) with (@nil (N * Rate)). cbn [fold_left].
  split_and!; [done..|]. intros t. reflexivity.
Qed.

Lemma reset_loop_fails kvs uid v l :
  (uid, v) ∈ kvs → GetDataType v = Unknown →
  ∃ msg l', for_each kvs reset_entry l = (inl (LogicError msg), l')
            ∧ m_smoothedCount l' = m_smoothedCount l.
Proof.
  intros Hin Hun. revert l. induction kvs as [|kv kvs IH]; intros l.
  { by inversion Hin. }
  cbn [for_each]. rewrite bind_run. unfold reset_entry at 1.
  destruct (decide (GetDataType kv.2 = Float)) as [Hf|Hf];
    [|destruct (decide (GetDataType kv.2 = Double)) as [Hd|Hd]].
  - unfold modify at 1.
    apply elem_of_cons in Hin as [<-|Hin]; [simpl in Hf; congruence|].
    destruct (IH Hin (set_smoothedGradientValues
                        (alter (SetValue 0%float) kv.1 (m_smoothedGradientValues l)) l))
      as (msg & l' & -> & Hc).
    by exists msg, l'.
  - unfold modify at 1.
    apply elem_of_cons in Hin as [<-|Hin]; [simpl in Hd; congruence|].
    destruct (IH Hin (set_smoothedGradientValues
                        (alter (SetValue 0%float) kv.1 (m_smoothedGradientValues l)) l))
      as (msg & l' & -> & Hc).
    by exists msg, l'.
  - unfold throw. by do 2 eexists.
Qed.

(** X8. [ResetSmoothedGradients] succeeds exactly when every smoothed
    gradient is a float or double tensor; it then zeroes them once and
    for all: a second reset changes nothing.  When it fails, the smoothed
    count of the learner has not been reset. *)
Theorem ResetSmoothedGradients_outcome l :
  let run := ResetSmoothedGradients l in
  (run.1 = inr tt ↔
   map_Forall (λ _ v, GetDataType v ≠ Unknown) (m_smoothedGradientValues l))
  ∧ (run.1 = inr tt → ResetSmoothedGradients run.2 = (inr tt, run.2))
  ∧ (run.1 ≠ inr tt → ∃ msg, run.1 = inl (LogicError msg)
                              ∧ m_smoothedCount run.2 = m_smoothedCount l).
Proof.
  cbv zeta.
  destruct (decide (map_Forall (λ _ v, GetDataType v ≠ Unknown)
                      (m_smoothedGradientValues l))) as [Hty|Hty].
  - rewrite (ResetSmoothedGradients_run l Hty). cbv zeta.
    set (zeroed := set_smoothedGradientValues _ l).
    assert (Hz : map_Forall (λ _ v, GetDataType v ≠ Unknown)
                   (SetValue 0%float <$> m_smoothedGradientValues l)).
    { intros uid v. rewrite lookup_fmap.
      destruct (m_smoothedGradientValues l !! uid) as [a|] eqn:Ha; [|done].
      intros [= <-]. by apply (Hty uid a). }
    split_and!; [done| |done]. intros _. cbn [snd].
    assert (Hagain : SetValue 0%float <$> (SetValue 0%float <$> m_smoothedGradientValues l)
                     = SetValue 0%float <$> m_smoothedGradientValues l).
    { rewrite <- map_fmap_compose. apply map_fmap_ext. intros ? v _. apply SetValue_idemp. }
    destruct (has_smoothedCount (kind l)) eqn:Hk.
    + rewrite ResetSmoothedGradients_run by done. cbv zeta.
      cbn [kind set_smoothedCount set_smoothedGradientValues zeroed
           m_smoothedGradientValues]. rewrite Hk, Hagain. by destruct l.
    + rewrite ResetSmoothedGradients_run by done. cbv zeta.
      cbn [kind set_smoothedGradientValues zeroed m_smoothedGradientValues].
      rewrite Hk, Hagain. by destruct l.
  - assert (Hfail : ∃ msg l', LearnerBase_ResetSmoothedGradients l
                              = (inl (LogicError msg), l')
                              ∧ m_smoothedCount l' = m_smoothedCount l).
    { apply map_not_Forall in Hty as (uid & v & Hv & Hun); [|apply _].
      apply dec_stable in Hun.
      unfold LearnerBase_ResetSmoothedGradients. rewrite bind_run. unfold get at 1.
      apply elem_of_map_to_list in Hv. by eapply reset_loop_fails. }
    destruct Hfail as (msg & l' & Hrun & Hcnt).
    assert (ResetSmoothedGradients l = (inl (LogicError msg), l')) as ->.
    { unfold ResetSmoothedGradients. rewrite bind_run. unfold get at 1.
      by rewrite bind_run, Hrun. }
    cbn [fst snd]. split_and!; [done|done|]. intros _. by exists msg.
Qed.
End Resets.



Lemma size_list_to_set_bound (uids : list string) :
  (size (list_to_set uids : gset string) ≤ length uids)%nat.
Proof.
  induction uids as [|u uids IH]; [done|]. cbn [list_to_set length].
  rewrite size_union_alt, size_singleton.
  assert (Hsub : list_to_set uids ∖ {[u]} ⊆ (list_to_set uids : gset string)).
  { intros x. rewrite elem_of_difference. tauto. }
  apply subseteq_size in Hsub. lia.
Qed.

Lemma size_list_to_set_NoDup (uids : list string) :
  size (list_to_set uids : gset string) = length uids → NoDup uids.
Proof.
  induction uids as [|u uids IH]; [constructor|].
  cbn [list_to_set length]. intros Hsize.
  pose proof (size_list_to_set_bound uids) as Hle.
  destruct (decide (u ∈ uids)) as [Hin|Hout].
  - exfalso.
    assert ({[u]} ∪ list_to_set uids = (list_to_set uids : gset string)) as Heq.
    { apply subseteq_union_1_L, singleton_subseteq_l. by apply elem_of_list_to_set. }
    rewrite Heq in Hsize. lia.
  - constructor; [done|]. apply IH.
    rewrite size_union in Hsize
      by (apply disjoint_singleton_l; by rewrite elem_of_list_to_set).
    rewrite size_singleton in Hsize. lia.
Qed.

Lemma emplace_loop_lookup (view : Var → NDArrayView) ps (m0 : gmap string NDArrayView) :
  NoDup (Uid <$> ps) →
  let m := fold_left (λ m p, emplace (Uid p) (view p) m) ps m0 in
  (∀ p, p ∈ ps → m0 !! Uid p = None → m !! Uid p = Some (view p))
  ∧ (∀ uid, uid ∉ Uid <$> ps → m !! uid = m0 !! uid).
Proof.
  revert m0. induction ps as [|p ps IH]; intros m0 Hnd; cbn [fold_left].
  { split; [by intros p Hp%elem_of_nil|done]. }
  rewrite fmap_cons in Hnd. apply NoDup_cons in Hnd as [Hp Hnd].
  destruct (IH (emplace (Uid p) (view p) m0) Hnd) as [Hin Hout]. cbv zeta. split.
  - intros q [->|Hq]%elem_of_cons Hq0.
    + rewrite Hout by done. unfold emplace. rewrite Hq0. apply lookup_insert_eq.
    + apply Hin; [done|]. unfold emplace.
      destruct (m0 !! Uid p); [done|]. rewrite lookup_insert_ne; [done|].
      intros Heq. apply Hp. rewrite Heq. by apply list_elem_of_fmap_2.
  - intros uid Huid. rewrite fmap_cons in Huid.
    apply not_elem_of_cons in Huid as [Hne Huid].
    rewrite Hout by done. unfold emplace.
    destruct (m0 !! Uid p); [done|]. by rewrite lookup_insert_ne.
Qed.

Section Construction.
Context `{Externals}.

Lemma LearnerBase_ctor_accepts k parameters schedule options allocate seed :
  (∃ l, LearnerBase_ctor k parameters schedule options allocate seed = inr l)
  ↔ parameters ≠ [] ∧ NoDup (Uid <$> parameters).
Proof.
  unfold LearnerBase_ctor. split.
  - intros [l Hl]. case_bool_decide as Hne; [done|].
    case_bool_decide as Hsize; [|done]. split; [done|].
    apply size_list_to_set_NoDup. by rewrite length_fmap.
  - intros [Hne Hnd]. rewrite bool_decide_eq_false_2 by done.
    rewrite bool_decide_eq_true_2; [by eexists|].
    rewrite size_list_to_set by done. by rewrite length_fmap.
Qed.

(** X9. [LearnerBase]'s constructor accepts a parameter list exactly when it
    is not empty and holds no parameter twice, and refuses the others
    with [InvalidArgument]; the learner it builds starts with the three
    counters at zero, the schedule, options and seed it was given and,
    when it is to allocate them, a zero smoothed gradient of the shape
    of each parameter and no other. *)
Theorem LearnerBase_ctor_outcome k parameters schedule options allocate seed :
  match LearnerBase_ctor k parameters schedule options allocate seed with
  | inr l =>
      parameters ≠ [] ∧ NoDup (Uid <$> parameters)
      ∧ kind l = k ∧ Parameters l = parameters
      ∧ counters_of l = (0, 0, 0)
      ∧ m_learningRateSchedule l = schedule
      ∧ m_additionalOptions l = options
      ∧ m_noiseInjectionSeed l = seed
      ∧ (allocate = false → m_smoothedGradientValues l = ∅)
      ∧ (allocate = true →
         (∀ p, p ∈ parameters →
               m_smoothedGradientValues l !! Uid p
               = Some (AllocateNDArrayView p (var_shape p)))
         ∧ ∀ uid, uid ∉ Uid <$> parameters →
                  m_smoothedGradientValues l !! uid = None)
  | inl e =>
      (parameters = [] ∨ ¬ NoDup (Uid <$> parameters))
      ∧ ∃ msg, e = InvalidArgument msg
  end.
Proof.
  pose proof (LearnerBase_ctor_accepts k parameters schedule options allocate seed)
    as Hacc.
  destruct (LearnerBase_ctor _ _ _ _ _ _) as [e|l] eqn:Hrun.
  - split.
    + destruct (decide (parameters = [])) as [|Hne]; [by left|]. right.
      intros Hnd. destruct Hacc as [_ [l Hl]]; done.
    + revert Hrun. unfold LearnerBase_ctor.
      repeat case_bool_decide; cbn [negb]; intros [= <-]; by eexists.
  - destruct Hacc as [[Hne Hnd] _]; [by eexists|].
    revert Hrun. unfold LearnerBase_ctor.
    rewrite bool_decide_eq_false_2 by done.
    case_bool_decide; [|done]. cbn [negb]. intros [= <-].
    split_and!; try done; cbn [m_smoothedGradientValues].
    + by intros ->.
    + intros ->.
      destruct (emplace_loop_lookup (λ p, AllocateNDArrayView p (var_shape p))
                  parameters ∅ Hnd) as [Hin Hout].
      split; [by intros p Hp; apply Hin|]. intros uid Huid. by rewrite Hout.
Qed.
End Construction.

Section FloatOrderMore.
Local Open Scope float_scope.

Lemma numbers_comparable x y : is_nan x = false → is_nan y = false → comparable x y.
Proof.
  unfold is_nan. rewrite !negb_false_iff, !FloatAxioms.eqb_spec.
  unfold SFeqb, comparable.
  destruct (Prim2SF x) as [[]|[]| |[] ? ?], (Prim2SF y) as [[]|[]| |[] ? ?];
    simpl; intros Hx Hy; try done; by eexists.
Qed.

Lemma not_leb_ltb x y : comparable x y → (x <=? y) = false → (y <? x) = true.
Proof.
  rewrite ltb_spec, leb_spec. unfold SFltb, SFleb, comparable. intros [c Hc].
  rewrite (SFcompare_antisym (Prim2SF x) (Prim2SF y)), Hc. by destruct c.
Qed.

Lemma ltb_not_leb x y : (y <? x) = true → (x <=? y) = false.
Proof.
  intros Hlt. destruct (x <=? y) eqn:Hle; [|done].
  apply leb_not_ltb in Hle. congruence.
Qed.

Lemma nan_leb_l x y : is_nan x = true → (x <=? y) = false.
Proof.
  unfold is_nan. rewrite negb_true_iff, FloatAxioms.eqb_spec, leb_spec.
  unfold SFeqb, SFleb.
  destruct (Prim2SF x) as [[]|[]| |[] ? ?]; simpl; try done;
    rewrite ?Z.compare_refl, ?Pos.compare_cont_refl; done.
Qed.

Lemma nan_leb_r x y : is_nan y = true → (x <=? y) = false.
Proof.
  unfold is_nan. rewrite negb_true_iff, FloatAxioms.eqb_spec, leb_spec.
  unfold SFeqb, SFleb.
  destruct (Prim2SF y) as [[]|[]| |[] ? ?]; simpl; try done;
    rewrite ?Z.compare_refl, ?Pos.compare_cont_refl; try done;
    by destruct (Prim2SF x) as [[]|[]| |[] ? ?].
Qed.
End FloatOrderMore.

Section AdaptiveConstruction.
Context `{Externals}.
Variable GetNumRows GetNumCols : DataType → Var → N.
Variable on_GPU : Var → bool.
Local Open Scope float_scope.


(** X10. On settings that are numbers, the constructor of [LearnerRMSProp]
    succeeds exactly when the parameter list is one [LearnerBase] accepts
    and [0 < gamma < 1], [1 < inc], [0 < dec < 1], [0 < max],
    [min < max] and [0 < min].  No test rejects a NaN: with five NaN
    settings the construction succeeds whenever [LearnerBase]'s does. *)
Theorem LearnerRMSProp_ctor_validates parameters schedule gamma inc dec max min
    needAveMultiplier options seed :
  let constructed :=
    LearnerRMSProp_ctor GetNumRows GetNumCols on_GPU parameters schedule
      gamma inc dec max min needAveMultiplier options seed in
  (is_nan gamma = false → is_nan inc = false → is_nan dec = false →
   is_nan max = false → is_nan min = false →
   (∃ l, constructed = inr l)
   ↔ parameters ≠ [] ∧ NoDup (Uid <$> parameters)
     ∧ RMSProp_settings gamma inc dec max min)
  ∧ (is_nan gamma = true → is_nan inc = true → is_nan dec = true →
     is_nan max = true → is_nan min = true →
     parameters ≠ [] → NoDup (Uid <$> parameters) →
     ∃ l, constructed = inr l).
Proof.
  cbv zeta. unfold LearnerRMSProp_ctor.
  pose proof (LearnerBase_ctor_accepts
                (LearnerRMSProp gamma inc dec max min needAveMultiplier)
                parameters schedule options false seed) as Hbase.
  split.
  - intros Hg Hi Hd Hmax Hmin.
    assert (Hzero : is_nan 0 = false) by reflexivity.
    assert (Hone : is_nan 1 = false) by reflexivity.
    split.
    + intros [l Hl].
      destruct (LearnerBase_ctor _ _ _ _ _ _) as [e|l0]; [done|].
      destruct Hbase as [[Hne Hnd] _]; [by eexists|].
      cbn [mbind Result_bind] in Hl.
      destruct (gamma <=? 0) eqn:Hg0; [done|].
      destruct (1 <=? gamma) eqn:Hg1; [done|].
      destruct (inc <=? 1) eqn:Hi1; [done|].
      destruct (dec <=? 0) eqn:Hd0; [done|].
      destruct (1 <=? dec) eqn:Hd1; [done|].
      destruct (max <=? 0) eqn:Hmax0; [done|].
      destruct (max <=? min) eqn:Hmm; [done|].
      destruct (min <=? 0) eqn:Hmin0; [done|].
      split_and!; try done; unfold RMSProp_settings;
        split_and!; apply not_leb_ltb; auto using numbers_comparable.
    + intros (Hne & Hnd & Hg0 & Hg1 & Hi1 & Hd0 & Hd1 & Hmax0 & Hmm & Hmin0).
      destruct Hbase as [_ [l0 ->]]; [done|]. cbn [mbind Result_bind].
      rewrite (ltb_not_leb _ _ Hg0), (ltb_not_leb _ _ Hg1), (ltb_not_leb _ _ Hi1),
        (ltb_not_leb _ _ Hd0), (ltb_not_leb _ _ Hd1), (ltb_not_leb _ _ Hmax0),
        (ltb_not_leb _ _ Hmm), (ltb_not_leb _ _ Hmin0).
      by eexists.
  - intros Hg Hi Hd Hmax Hmin Hne Hnd.
    destruct Hbase as [_ [l0 ->]]; [done|]. cbn [mbind Result_bind].
    rewrite (nan_leb_l gamma 0 Hg), (nan_leb_r 1 gamma Hg), (nan_leb_l inc 1 Hi),
      (nan_leb_l dec 0 Hd), (nan_leb_r 1 dec Hd), (nan_leb_l max 0 Hmax),
      (nan_leb_l max min Hmax), (nan_leb_l min 0 Hmin).
    by eexists.
Qed.

Lemma allocate_columns_outcome factor parameters l0 :
  NoDup (Uid <$> parameters) → m_smoothedGradientValues l0 = ∅ →
  m_parameters l0 = parameters →
  let l := allocate_columns GetNumRows GetNumCols factor parameters l0 in
  well_formed l
  ∧ ∀ p, p ∈ parameters →
         m_smoothedGradientValues l !! Uid p
         = Some (AllocateNDArrayView p
                   [GetMatrixShape GetNumRows GetNumCols p !!! 0%nat;
                    size_t_mul (factor p)
                      (GetMatrixShape GetNumRows GetNumCols p !!! 1%nat)]).
Proof.
  intros Hnd Hempty Hps. cbv zeta. unfold allocate_columns. rewrite Hempty.
  cbn [m_smoothedGradientValues set_smoothedGradientValues].
  destruct (emplace_loop_lookup
              (λ p, AllocateNDArrayView p
                      [GetMatrixShape GetNumRows GetNumCols p !!! 0%nat;
                       size_t_mul (factor p)
                         (GetMatrixShape GetNumRows GetNumCols p !!! 1%nat)])
              parameters ∅ Hnd) as [Hin Hout].
  cbv zeta in Hin, Hout.
  assert (Hall : ∀ p, p ∈ parameters → _) by (intros p Hp; exact (Hin p Hp eq_refl)).
  split; [|exact Hall].
  split; unfold has_aux, Parameters;
    cbn [m_parameters m_smoothedGradientValues set_smoothedGradientValues].
  - rewrite Hps. apply Forall_forall. intros p Hp. rewrite (Hall p Hp). by eexists.
  - rewrite Hps. intros uid [v Hv].
    destruct (decide (uid ∈ Uid <$> parameters)) as [|Hnot]; [done|].
    by rewrite (Hout uid Hnot) in Hv.
  - intros uid v Hv.
    destruct (decide (uid ∈ Uid <$> parameters)) as [Hyes|Hnot].
    + apply list_elem_of_fmap in Hyes as (p & -> & Hp).
      rewrite (Hall p Hp) in Hv. injection Hv as <-.
      unfold AllocateNDArrayView. by case_decide.
    + by rewrite (Hout uid Hnot) in Hv.
Qed.

(** X11. The learners the constructors of [LearnerAdaGrad], [LearnerAdaDelta]
    and [LearnerRMSProp] build hold, for each parameter and for nothing
    else, a zero tensor of the element type of the parameter, with the
    rows of its matrix and a multiple of its columns: one or two times
    for AdaGrad, two times for AdaDelta, three or four times for
    RMSProp; their counters are zero, and so is the smoothed count of
    the RMSProp learner. *)
Theorem adaptive_learners_state parameters schedule options seed l :
  let state factor p :=
    AllocateNDArrayView p
      [GetMatrixShape GetNumRows GetNumCols p !!! 0%nat;
       size_t_mul (factor p) (GetMatrixShape GetNumRows GetNumCols p !!! 1%nat)] in
  let built factor :=
    well_formed l ∧ Parameters l = parameters ∧ counters_of l = (0, 0, 0)%N
    ∧ ∀ p, p ∈ parameters →
           m_smoothedGradientValues l !! Uid p = Some (state factor p) in
  (∀ needAveMultiplier,
     LearnerAdaGrad_ctor GetNumRows GetNumCols on_GPU parameters schedule
       needAveMultiplier options seed = inr l →
     built (λ p, if needAveMultiplier && on_GPU p then 2 else 1)%N)
  ∧ (∀ rho epsilon,
       LearnerAdaDelta_ctor GetNumRows GetNumCols parameters schedule rho epsilon
         options seed = inr l →
       built (λ _, 2%N))
  ∧ (∀ gamma inc dec max min needAveMultiplier,
       LearnerRMSProp_ctor GetNumRows GetNumCols on_GPU parameters schedule
         gamma inc dec max min needAveMultiplier options seed = inr l →
       built (λ p, if needAveMultiplier && on_GPU p then 4 else 3)%N
       ∧ m_smoothedCount l = 0).
Proof.
  cbv zeta.
  assert (Hbase : ∀ k factor l0,
    LearnerBase_ctor k parameters schedule options false seed = inr l0 →
    let l1 := allocate_columns GetNumRows GetNumCols factor parameters l0 in
    well_formed l1 ∧ Parameters l1 = parameters ∧ counters_of l1 = (0, 0, 0)%N
    ∧ ∀ p, p ∈ parameters →
           m_smoothedGradientValues l1 !! Uid p
           = Some (AllocateNDArrayView p
                     [GetMatrixShape GetNumRows GetNumCols p !!! 0%nat;
                      size_t_mul (factor p)
                        (GetMatrixShape GetNumRows GetNumCols p !!! 1%nat)])).
  { intros k factor l0 Hl0.
    destruct (LearnerBase_ctor_accepts k parameters schedule options false seed)
      as [[Hne Hnd] _]; [by eexists|].
    destruct (LearnerBase_ctor_run k parameters schedule options false seed Hne Hnd)
      as (l0' & Hl0' & Hk & Hps & Hseed & Hcnt & Hsched & Hempty).
    rewrite Hl0 in Hl0'. injection Hl0' as <-.
    destruct (allocate_columns_outcome factor parameters l0 Hnd (Hempty eq_refl) Hps)
      as [Hwf Hstate].
    cbv zeta. by split_and!. }
  split_and!.
  - intros needAve. unfold LearnerAdaGrad_ctor.
    destruct (LearnerBase_ctor _ _ _ _ _ _) as [e|l0] eqn:Hl0; [done|].
    intros [= <-]. by eapply Hbase.
  - intros rho epsilon. unfold LearnerAdaDelta_ctor.
    destruct (LearnerBase_ctor _ _ _ _ _ _) as [e|l0] eqn:Hl0; [done|].
    intros [= <-]. by eapply Hbase.
  - intros gamma inc dec max min needAve. unfold LearnerRMSProp_ctor.
    destruct (LearnerBase_ctor _ _ _ _ _ _) as [e|l0] eqn:Hl0; [done|].
    cbn [mbind Result_bind]. repeat (case_match; try done).
    intros [= <-].
    destruct (Hbase _ (λ p, if needAve && on_GPU p then 4 else 3)%N l0 Hl0)
      as (Hwf & Hps & Hcnt & Hstate).
    split_and!; try done.
    destruct Hwf as [Ha Ho Ht]. by split.
Qed.
End AdaptiveConstruction.

Section CheckpointOutcome.
Context `{Externals}.

Lemma serializeSmoothedGradients_fails l ps e :
  serializeSmoothedGradients (m_smoothedGradientValues l) ps = inl e →
  ∃ (i : nat) p,
    ps !! i = Some p
    ∧ m_smoothedGradientValues l !! Uid p = None
    ∧ e = out_of_range (Uid p)
    ∧ ∀ (j : nat) q, (j < i)%nat → ps !! j = Some q →
                     is_Some (m_smoothedGradientValues l !! Uid q).
Proof.
  induction ps as [|p ps IH]; [done|]. cbn [serializeSmoothedGradients].
  unfold at_key. destruct (m_smoothedGradientValues l !! Uid p) as [a|] eqn:Ha.
  - cbn [mbind Result_bind].
    destruct (serializeSmoothedGradients _ ps) as [e'|vs]; [|done].
    cbn [mbind Result_bind]. intros [= <-].
    destruct (IH eq_refl) as (i & q & Hq & Hnone & -> & Hbefore).
    exists (S i), q. split_and!; [done..|].
    intros [|j] q' Hj Hq'.
    + injection Hq' as <-. by exists a.
    + apply (Hbefore j); [lia|done].
  - cbn [mbind Result_bind]. intros [= <-]. exists 0%nat, p.
    split_and!; [done..|]. intros j q Hj. lia.
Qed.

(** X12. [CreateCheckpoint] returns a checkpoint exactly when the learner
    holds a smoothed gradient for each of its parameters; otherwise it
    fails on the first parameter, in the order of [Parameters()], that
    has none (every parameter before it has one), with the lookup error
    of [m_smoothedGradientValues.at(parameter)]. *)
Theorem CreateCheckpoint_outcome l :
  match CreateCheckpoint l with
  | inr _ => has_aux l
  | inl e =>
      ∃ (i : nat) p,
        Parameters l !! i = Some p
        ∧ m_smoothedGradientValues l !! Uid p = None
        ∧ e = out_of_range (Uid p)
        ∧ ∀ (j : nat) q, (j < i)%nat → Parameters l !! j = Some q →
                         is_Some (m_smoothedGradientValues l !! Uid q)
  end.
Proof.
  destruct (decide (has_aux l)) as [Haux|Haux].
  { destruct (CreateCheckpoint_run l Haux) as (c & -> & _). done. }
  unfold CreateCheckpoint, LearnerBase_CreateCheckpoint.
  destruct (serializeSmoothedGradients _ _) as [e|vs] eqn:Hser.
  - cbn [mbind Result_bind]. by apply serializeSmoothedGradients_fails.
  - exfalso. apply Haux. unfold has_aux. clear Haux.
    revert vs Hser. induction (Parameters l) as [|p ps IH]; intros vs; [done|].
    cbn [serializeSmoothedGradients]. unfold at_key.
    destruct (m_smoothedGradientValues l !! Uid p) as [a|] eqn:Ha; [|done].
    cbn [mbind Result_bind].
    destruct (serializeSmoothedGradients _ ps) as [e'|vs'] eqn:Hps; [done|].
    intros _. constructor; [by eexists|]. by eapply IH.
Qed.
End CheckpointOutcome.

Section CheckpointAndTraining.
Context `{Externals}.

Lemma layouts_lookup (m m' : gmap string NDArrayView) uid z :
  layouts m' = layouts m → m !! uid = Some z →
  ∃ z', m' !! uid = Some z' ∧ same_layout z' z.
Proof.
  intros Heq Hz. pose proof (f_equal (λ m, m !! uid) Heq) as Hl.
  unfold layouts in Hl. cbn beta in Hl. rewrite !lookup_fmap, Hz in Hl.
  destruct (m' !! uid) as [z'|]; [|done]. injection Hl as Hd Hs.
  exists z'. by split.
Qed.

Lemma layouts_lookup_None (m m' : gmap string NDArrayView) uid :
  layouts m' = layouts m → m' !! uid = None ↔ m !! uid = None.
Proof.
  intros Heq. pose proof (f_equal (λ m, m !! uid) Heq) as Hl.
  unfold layouts in Hl. cbn beta in Hl. rewrite !lookup_fmap in Hl.
  destruct (m !! uid), (m' !! uid); done.
Qed.

(** X13. A checkpoint taken before an [Update] can be restored after it,
    whatever the outcome of the [Update]: the restore succeeds and puts
    back the smoothed gradients, the sample and minibatch counts, the
    schedule, the noise seed and the smoothed count the learner had when
    the checkpoint was taken.  The sweep count is the one the [Update]
    left: a restore does not rewind it. *)
Theorem checkpoint_survives_Update gradients n sweepEnd w checkpoint :
  let l := learner w in
  let trained := learner (Update gradients n sweepEnd w).2 in
  well_formed l → 2 ≤ CurrentVersion →
  Deserialize (Serialize (m_learningRateSchedule l)) = inr (m_learningRateSchedule l) →
  CreateCheckpoint l = inr checkpoint →
  ∃ l', RestoreFromCheckpoint checkpoint trained = (inr tt, l')
        ∧ m_smoothedGradientValues l' = m_smoothedGradientValues l
        ∧ m_sampleCount l' = m_sampleCount l
        ∧ m_minibatchCount l' = m_minibatchCount l
        ∧ m_learningRateSchedule l' = m_learningRateSchedule l
        ∧ m_noiseInjectionSeed l' = m_noiseInjectionSeed l
        ∧ m_smoothedCount l' = m_smoothedCount l
        ∧ m_sweepCount l' = m_sweepCount trained.
Proof.
  intros l trained Hwf Hversion Hschedule Hcreate.
  destruct (CreateCheckpoint_run l (wf_has_aux l Hwf))
    as (c & Hrun & Hv & Ht & Hsc & Hmc & Hlr & Hseed & Hvec & Hcnt & _).
  rewrite Hcreate in Hrun. injection Hrun as <-.
  destruct (Update_frame gradients n sweepEnd w) as (Hconf & Hlay & _).
  fold trained in Hconf, Hlay. fold l in Hconf, Hlay.
  assert (Hkind : kind trained = kind l) by exact (f_equal (λ c, c.1.1.1.1.1) Hconf).
  assert (Hparams : m_parameters trained = m_parameters l)
    by exact (f_equal (λ c, c.1.1.1.1.2) Hconf).
  eexists. split.
  - apply (RestoreFromCheckpoint_run checkpoint trained CurrentVersion
             (m_learningRateSchedule l) (m_sampleCount l) (m_minibatchCount l)
             (Some (m_noiseInjectionSeed l)) (m_smoothedCount l) (aux_of l)).
    split; try done.
    + eauto.
    + unfold Parameters. rewrite Hparams. intros i p Hp.
      eapply getSmoothedGradValue_vector; [done..|].
      unfold Parameters. by rewrite list_lookup_fmap, Hp.
    + unfold Parameters. rewrite Hparams. intros p Hp.
      pose proof (wf_has_aux l Hwf) as Hall.
      eapply Forall_forall in Hall as [a Ha]; [|done].
      destruct (layouts_lookup _ _ _ a Hlay Ha) as (z & Hz & Hzl).
      exists z. split; [done|]. unfold aux_of. by rewrite Ha.
    + rewrite Hkind. destruct (has_smoothedCount (kind l)) eqn:Hk; [done|].
      unfold trained. rewrite Update_smoothedCount.
      destruct (_ || _); [done|]. unfold smoothedCount_after. fold l.
      by destruct (kind l).
  - unfold restored. cbn. rewrite Hparams.
    split_and!; try done.
    apply (restore_all_aux l _ Hwf). intros uid. by apply layouts_lookup_None.
Qed.
End CheckpointAndTraining.

Lemma bind_ext {S A B} (m : StateExn S A) (f1 f2 : A → StateExn S B) s :
  (∀ a s', m s = (inr a, s') → f1 a s' = f2 a s') →
  (m ≫= f1) s = (m ≫= f2) s.
Proof.
  intros Hext. rewrite !bind_run. destruct (m s) as [[e|a] s']; [done|]. by apply Hext.
Qed.

Lemma for_each_ext {S A} (xs : list A) (body1 body2 : A → StateExn S unit) s :
  (∀ x s, x ∈ xs → body1 x s = body2 x s) →
  for_each xs body1 s = for_each xs body2 s.
Proof.
  revert s. induction xs as [|x xs IH]; intros s Hext; [done|].
  cbn [for_each]. rewrite !bind_run, (Hext x s) by (by left).
  destruct (body2 x s) as [[e|[]] s']; [done|].
  apply IH. intros y t Hy. apply Hext. by right.
Qed.

Ltac in_list := repeat first [apply list_elem_of_here | apply list_elem_of_further].


(** From a run [m s = (r, s')] of a computation that leaves the parameter
    list alone: the parameters of [s'] are those of [s]. *)
Ltac kept_parameters Hm :=
  match type of Hm with
  | ?m ?s = (_, ?s') =>
      let Hp := fresh "Hparams" in
      assert (Hp : preserves m_parameters m) by (frame_with done);
      specialize (Hp s); rewrite Hm in Hp; cbn [snd] in Hp
  end.

Section RestoreReads.
Context `{Externals}.

Lemma ValidateDictionary_ext (c1 c2 : Dictionary) keys typeValue currentVersion :
  c1 !! versionKey = c2 !! versionKey → c1 !! typeKey = c2 !! typeKey →
  (∀ k, k ∈ keys → is_Some (c1 !! k) ↔ is_Some (c2 !! k)) →
  ValidateDictionary c1 keys typeValue currentVersion
  = ValidateDictionary c2 keys typeValue currentVersion.
Proof.
  intros Hv Ht Hkeys. unfold ValidateDictionary. rewrite Hv, Ht.
  assert (forallb (Contains c1) keys = forallb (Contains c2) keys) as ->; [|done].
  induction keys as [|k keys IH]; [done|]. cbn [forallb]. f_equal.
  - unfold Contains. apply bool_decide_ext, Hkeys. by left.
  - apply IH. intros k' Hk'. apply Hkeys. by right.
Qed.

Lemma ValidateDictionary_reads_version (c : Dictionary) keys typeValue
    currentVersion version :
  ValidateDictionary c keys typeValue currentVersion = inr version →
  c !! versionKey = Some (DV_SizeT version).
Proof.
  unfold ValidateDictionary. destruct (c !! versionKey) as [v|]; [|done].
  destruct v; try done. cbn [Value_size_t mbind Result_bind].
  destruct (forallb _ _); [|done]. destruct (c !! typeKey) as [tv|]; [|done].
  destruct (Value_wstring tv) as [e|t]; [done|]. cbn [mbind Result_bind].
  case_bool_decide; [|done]. by intros [= ->].
Qed.

Lemma RestoreFromCheckpoint_ext (c1 c2 : Dictionary) l :
  (∀ key, key ∈ header_keys → c1 !! key = c2 !! key) →
  (is_Some (c1 !! smoothedGradientsKey) ↔ is_Some (c2 !! smoothedGradientsKey)) →
  (∀ version i p l', c2 !! versionKey = Some (DV_SizeT version) →
     Parameters l !! i = Some p →
     restore_parameter version c1 (i, p) l' = restore_parameter version c2 (i, p) l') →
  RestoreFromCheckpoint c1 l = RestoreFromCheckpoint c2 l.
Proof.
  intros Hhead Hvec Hloop.
  assert (Hv : c1 !! versionKey = c2 !! versionKey) by (apply Hhead; in_list).
  assert (Ht : c1 !! typeKey = c2 !! typeKey) by (apply Hhead; in_list).
  assert (Hsc : c1 !! sampleCountKey = c2 !! sampleCountKey) by (apply Hhead; in_list).
  assert (Hmc : c1 !! minibatchCountKey = c2 !! minibatchCountKey)
    by (apply Hhead; in_list).
  assert (Hlr : c1 !! learningRateScheduleKey = c2 !! learningRateScheduleKey)
    by (apply Hhead; in_list).
  assert (Hseed : c1 !! noiseInjectionSeedKey = c2 !! noiseInjectionSeedKey)
    by (apply Hhead; in_list).
  assert (Hcnt : c1 !! smoothedCountKey = c2 !! smoothedCountKey)
    by (apply Hhead; in_list).
  assert (Hval1 : ValidateDictionary c1 s_requiredDictionaryKeys
                    s_learnerTypeValue CurrentVersion
                  = ValidateDictionary c2 s_requiredDictionaryKeys
                      s_learnerTypeValue CurrentVersion).
  { apply ValidateDictionary_ext; [done..|]. intros k Hk. rewrite Hhead; [done|].
    unfold s_requiredDictionaryKeys in Hk.
    repeat (apply elem_of_cons in Hk as [->|Hk]; [in_list|]).
    by apply elem_of_nil in Hk. }
  assert (Hval2 : ValidateDictionary c1 [smoothedGradientsKey]
                    s_learnerTypeValue CurrentVersion
                  = ValidateDictionary c2 [smoothedGradientsKey]
                      s_learnerTypeValue CurrentVersion).
  { apply ValidateDictionary_ext; [done..|].
    by intros k [->|Hk%elem_of_nil]%elem_of_cons. }
  unfold RestoreFromCheckpoint. rewrite !bind_run.
  assert (LearnerBase_RestoreFromCheckpoint c1 l
          = LearnerBase_RestoreFromCheckpoint c2 l) as ->.
  2: { destruct (LearnerBase_RestoreFromCheckpoint c2 l) as [[e|[]] l']; [done|].
       rewrite !bind_run. unfold get. destruct (has_smoothedCount (kind l')); [|done].
       rewrite !bind_run. unfold lift, at_key. by rewrite Hcnt. }
  assert (Hat : ∀ key, key ∈ header_keys → at_key c1 key = at_key c2 key).
  { intros key Hkey. unfold at_key. by rewrite Hhead. }
  unfold LearnerBase_RestoreFromCheckpoint.
  rewrite Hval1. apply bind_ext. intros version l1 [= Hval <-].
  apply ValidateDictionary_reads_version in Hval as Hversion.
  rewrite Hval2. apply bind_ext. intros ? l1 Hm. kept_parameters Hm.
  rewrite (Hat sampleCountKey) by in_list.
  apply bind_ext. intros sampleCount l2 Hm2. kept_parameters Hm2.
  apply bind_ext. intros ? l3 Hm3. kept_parameters Hm3.
  rewrite (Hat minibatchCountKey) by in_list.
  apply bind_ext. intros minibatchCount l4 Hm4. kept_parameters Hm4.
  apply bind_ext. intros ? l5 Hm5. kept_parameters Hm5.
  assert (Contains c1 noiseInjectionSeedKey = Contains c2 noiseInjectionSeedKey) as ->.
  { unfold Contains. by rewrite Hseed. }
  rewrite (Hat noiseInjectionSeedKey) by in_list.
  apply bind_ext. intros ? l6 Hm6. kept_parameters Hm6.
  rewrite (Hat learningRateScheduleKey) by in_list.
  apply bind_ext. intros serialized l7 Hm7. kept_parameters Hm7.
  apply bind_ext. intros schedule l8 Hm8. kept_parameters Hm8.
  apply bind_ext. intros ? l9 Hm9. kept_parameters Hm9.
  apply bind_ext. intros l10 l11 [= Ha Hb]. subst l10 l11.
  apply for_each_ext. intros [i p] l' Hip.
  apply Hloop; [done|].
  apply list_elem_of_lookup in Hip as [j Hj].
  rewrite list_lookup_imap in Hj. unfold Parameters in *.
  destruct (m_parameters l9 !! j) as [q|] eqn:Hq; [|done].
  injection Hj as <- <-. congruence.
Qed.

Lemma getSmoothedGradValue_at version (c : Dictionary) vs i p :
  2 ≤ version → c !! smoothedGradientsKey = Some (DV_Vector vs) →
  getSmoothedGradValue version c i p
  = match vs !! i with
    | Some v => inr v
    | None => inl missing_smoothed_gradient
    end.
Proof.
  intros Hge%N.leb_le Hvec. unfold getSmoothedGradValue.
  rewrite Hge, (at_key_Some _ _ _ Hvec). cbn [mbind Result_bind Value_vector].
  case_bool_decide as Hlen.
  - by rewrite lookup_ge_None_2.
  - destruct (vs !! i) eqn:Hi; [done|]. apply lookup_ge_None in Hi. lia.
Qed.

(** X14. From version 2 on, a restore reads the header fields of the
    checkpoint and, of its vector of smoothed gradients, one tensor per
    parameter from the front: two checkpoints that agree on these are
    restored alike, whatever else they hold (other keys, further
    tensors). *)
Theorem RestoreFromCheckpoint_reads (c1 c2 : Dictionary) l version vs1 vs2 :
  c1 !! versionKey = Some (DV_SizeT version) → 2 ≤ version →
  (∀ key, key ∈ header_keys → c1 !! key = c2 !! key) →
  c1 !! smoothedGradientsKey = Some (DV_Vector vs1) →
  c2 !! smoothedGradientsKey = Some (DV_Vector vs2) →
  take (length (Parameters l)) vs1 = take (length (Parameters l)) vs2 →
  RestoreFromCheckpoint c1 l = RestoreFromCheckpoint c2 l.
Proof.
  intros Hversion Hge Hhead Hvs1 Hvs2 Htake.
  apply RestoreFromCheckpoint_ext; [done| |].
  { rewrite Hvs1, Hvs2. split; by eexists. }
  intros version' i p l' Hversion' Hp.
  rewrite <- (Hhead versionKey), Hversion in Hversion' by in_list.
  injection Hversion' as <-.
  unfold restore_parameter.
  rewrite (getSmoothedGradValue_at version c1 vs1), (getSmoothedGradValue_at version c2 vs2)
    by done.
  apply lookup_lt_Some in Hp.
  by rewrite <- (lookup_take_lt vs1 (length (Parameters l)) i),
    <- (lookup_take_lt vs2 (length (Parameters l)) i), Htake by done.
Qed.
End RestoreReads.

Lemma emplace_pairs_lookup (pgs : list (Var * Var)) (m0 : gmap string Var) p g :
  NoDup (Uid <$> pgs.*1) → (p, g) ∈ pgs → m0 !! Uid p = None →
  foldl (λ m pg, emplace (Uid pg.1) pg.2 m) m0 pgs !! Uid p = Some g.
Proof.
  revert m0. induction pgs as [|[p0 g0] pgs IH]; intros m0 Hnd Hin Hm0.
  { by inversion Hin. }
  cbn [foldl fst snd]. rewrite !fmap_cons in Hnd. cbn [fst] in Hnd.
  apply NoDup_cons in Hnd as [Hp0 Hnd].
  apply elem_of_cons in Hin as [[= -> ->]|Hin].
  - assert (Hkeep : ∀ m : gmap string Var, m !! Uid p0 = Some g0 →
              foldl (λ m pg, emplace (Uid pg.1) pg.2 m) m pgs !! Uid p0 = Some g0).
    { clear. induction pgs as [|[q h] pgs IH]; intros m Hm; [done|].
      cbn [foldl fst snd]. apply IH. unfold emplace.
      destruct (m !! Uid q) eqn:Hq; [done|].
      rewrite lookup_insert_ne; [done|]. intros Heq. congruence. }
    apply Hkeep. unfold emplace. rewrite Hm0. apply lookup_insert_eq.
  - apply IH; [done..|]. unfold emplace.
    destruct (m0 !! Uid p0); [done|]. rewrite lookup_insert_ne; [done|].
    intros Heq. apply Hp0. rewrite Heq.
    apply list_elem_of_fmap. exists p. split; [done|].
    apply list_elem_of_fmap. by exists (p, g).
Qed.

Section UniversalConstruction.
Context `{Externals}.

(** X15. A universal learner, once constructed, has each parameter bound to
    the gradient placeholder paired with it, so the loop of its [Update]
    finds a placeholder for every parameter; it holds an empty dummy
    smoothed gradient for each parameter, the constant learning rate 1
    and the default options, and its counters are zero. *)
Theorem LearnerUniversal_ctor_binds parameters gradients updateFunc seed l out :
  LearnerUniversal_ctor parameters gradients updateFunc seed = (inr l, out) →
  length parameters = length gradients
  ∧ (∀ i p g, parameters !! i = Some p → gradients !! i = Some g →
              m_parameter_gradient_map l !! Uid p = Some g)
  ∧ (∀ p, p ∈ parameters →
          m_smoothedGradientValues l !! Uid p = Some (AllocateNDArrayView p []))
  ∧ m_learningRateSchedule l = ConstantSchedule (mkRate 1%float 1)
  ∧ counters_of l = (0, 0, 0).
Proof.
  unfold LearnerUniversal_ctor.
  destruct (LearnerBase_ctor _ _ _ _ _ _) as [e|l0] eqn:Hbase; [done|].
  destruct (LearnerBase_ctor_accepts LearnerUniversal parameters
              (ConstantSchedule (mkRate 1%float 1)) DefaultOptions false seed)
    as [[Hne Hnd] _]; [by eexists|].
  destruct (LearnerBase_ctor_run LearnerUniversal parameters
              (ConstantSchedule (mkRate 1%float 1)) DefaultOptions false seed Hne Hnd)
    as (l0' & Hl0' & Hk & Hps & Hseed & Hcnt & Hsched & Hempty).
  rewrite Hbase in Hl0'. injection Hl0' as <-. specialize (Hempty eq_refl).
  assert (Hmap0 : m_parameter_gradient_map l0 = ∅).
  { revert Hbase. unfold LearnerBase_ctor. repeat case_bool_decide; try done.
    by intros [= <-]. }
  destruct (decide (length parameters = length gradients)) as [Hlen|Hlen].
  2: { destruct (ValidateInput_rejects parameters gradients updateFunc
                   (mkWorld l0 ∅ ∅ [] [])) as [msg Hmsg]; [by left|].
       destruct (ValidateInput _ _ _ _) as [r w]. simpl in Hmsg. by subst r. }
  destruct (decide (Forall (λ p, contains_var (Inputs updateFunc) p = true)
                      parameters)) as [Hall|Hall].
  2: { apply not_Forall_Exists in Hall; [|apply _].
       apply Exists_exists in Hall as (p & Hp & Hmissing).
       apply not_true_is_false in Hmissing.
       destruct (ValidateInput_rejects parameters gradients updateFunc
                   (mkWorld l0 ∅ ∅ [] [])) as [msg Hmsg]; [right; right; by exists p|].
       destruct (ValidateInput _ _ _ _) as [r w]. simpl in Hmsg. by subst r. }
  rewrite ValidateInput_run by done. cbn. intros [= <- _].
  split_and!; [done| | |done..].
  - intros i p g Hp Hg. cbn. rewrite Hmap0.
    apply emplace_pairs_lookup; [|by apply list_elem_of_lookup; exists i;
      apply lookup_zip_with_Some; exists p, g|done].
    rewrite fst_zip by lia. done.
  - intros p Hp. cbn. rewrite Hempty.
    destruct (emplace_loop_lookup (λ p, AllocateNDArrayView p []) parameters ∅ Hnd)
      as [Hin _].
    by apply Hin.
Qed.
End UniversalConstruction.

Section Processing.
Context `{Externals}.

(** X16. The pre-processing of a parameter writes the gradient of that
    parameter and nothing else: the model, the learner and the other
    gradients are left as they were.  The post-processing writes the
    value of that parameter and, in the learner, the noise seed: the
    gradients, the smoothed gradients and the other values are left as
    they were.  This holds whether they return or throw. *)
Theorem processing_touches_one_tensor et p n w :
  let pre := (PreProcess et p n w).2 in
  let post := (PostProcess et p n w).2 in
  (values pre = values w ∧ learner pre = learner w
   ∧ ∀ uid, uid ≠ Uid p → gradientValues pre !! uid = gradientValues w !! uid)
  ∧ (gradientValues post = gradientValues w
     ∧ m_smoothedGradientValues (learner post) = m_smoothedGradientValues (learner w)
     ∧ ∀ uid, uid ≠ Uid p → values post !! uid = values w !! uid).
Proof.
  cbv zeta. split.
  - assert (Hkeep : preserves (λ w, (values w, learner w)) (PreProcess et p n)).
    { unfold PreProcess, gradient_of, value_of, write_gradient. frame_with done. }
    specialize (Hkeep w).
    split_and!; [exact (f_equal fst Hkeep)|exact (f_equal snd Hkeep)|].
    intros uid Hne.
    assert (Hother : preserves (λ w, gradientValues w !! uid) (PreProcess et p n)).
    { unfold PreProcess, gradient_of, value_of, write_gradient.
      frame_with ltac:(cbn; by rewrite lookup_alter_ne). }
    apply Hother.
  - assert (Hkeep : preserves (λ w, (gradientValues w,
                                     m_smoothedGradientValues (learner w)))
                      (PostProcess et p n)).
    { unfold PostProcess, value_of, write_value. frame_with done. }
    specialize (Hkeep w).
    split_and!; [exact (f_equal fst Hkeep)|exact (f_equal snd Hkeep)|].
    intros uid Hne.
    assert (Hother : preserves (λ w, values w !! uid) (PostProcess et p n)).
    { unfold PostProcess, value_of, write_value.
      frame_with ltac:(cbn; by rewrite ?lookup_alter_ne). }
    apply Hother.
Qed.
End Processing.

Section PlainOptions.
Context `{Externals}.
Local Open Scope float_scope.


Lemma with_data_id v : with_data v (nd_data v) = v.
Proof. by destruct v. Qed.

Lemma PreProcess_plain et p n w g :
  plain (learner w) → gradientValues w !! Uid p = Some g → GetDataType g = et →
  PreProcess et p n w = (inr tt, w).
Proof.
  intros (Hclip & Hl2 & _) Hg Het. unfold PreProcess.
  rewrite bind_run. unfold this at 1. rewrite bind_run.
  unfold gradient_of at 1. rewrite bind_run. unfold get at 1, lift at 1.
  rewrite (at_key_Some _ _ _ Hg). rewrite bind_run. unfold lift at 1, GetWritableMatrix.
  rewrite decide_True by done. rewrite bind_run.
  unfold ClipGradient. rewrite Hclip. cbn [negb]. rewrite Hl2.
  unfold write_gradient, modify. f_equal.
  destruct w as [l vs gs pr er]. unfold with_gradientValues. cbn in *. f_equal.
  apply alter_id. intros v Hv. rewrite Hg in Hv. injection Hv as <-.
  apply with_data_id.
Qed.

Lemma PostProcess_plain et p n w v :
  plain (learner w) → values w !! Uid p = Some v → GetDataType v = et →
  PostProcess et p n w = (inr tt, w).
Proof.
  intros (_ & _ & Hnoise & Hl1) Hv Het. unfold PostProcess.
  rewrite bind_run. unfold value_of at 1. rewrite bind_run. unfold get at 1, lift at 1.
  rewrite (at_key_Some _ _ _ Hv). rewrite bind_run. unfold lift at 1, GetWritableMatrix.
  rewrite decide_True by done. rewrite bind_run. unfold this at 1.
  rewrite bind_run. unfold noise_stdDev in Hnoise. rewrite Hnoise.
  unfold mret at 1, StateExn_ret at 1. rewrite bind_run. unfold this at 1.
  by rewrite Hl1.
Qed.

(** X17. With no clipping, no regularization and no noise configured the
    pre- and post-processing do nothing: on a parameter whose value and
    gradient are of the element type dispatched on, the typed update is
    the update of the learner's class followed by
    [RecordValueUpdate()] on the parameter; when the class's update
    throws, the typed update throws the same and records nothing. *)
Theorem LearnerBase_Update_typed_plain et p n w g v :
  plain (learner w) →
  gradientValues w !! Uid p = Some g → GetDataType g = et →
  values w !! Uid p = Some v → GetDataType v = et →
  LearnerBase_Update_typed et p n w
  = match Update_parameter p n w with
    | (inr _, w') => (inr tt, with_valueUpdates (cons (Uid p)) w')
    | (inl e, w') => (inl e, w')
    end.
Proof.
  intros Hplain Hg Hget Hv Hvet. unfold LearnerBase_Update_typed.
  rewrite bind_run, (PreProcess_plain et p n w g) by done.
  rewrite bind_run.
  assert (Hkeep : preserves (λ w, (noise_state w, layouts (values w)))
                    (Update_parameter p n)).
  { apply Update_parameter_preserves; try done.
    intros uid m s. cbn. by rewrite layouts_alter_data. }
  specialize (Hkeep w).
  destruct (Update_parameter p n w) as [[e|[]] w2] eqn:Hrun; [done|].
  cbn [snd] in Hkeep.
  pose proof (f_equal fst Hkeep) as Hns. pose proof (f_equal snd Hkeep) as Hlay.
  cbn [fst snd] in Hns, Hlay.
  destruct (layouts_lookup _ _ _ v Hlay Hv) as (v2 & Hv2 & Hd & _).
  rewrite bind_run, (PostProcess_plain et p n w2 v2); [done| |done|congruence].
  destruct Hplain as (Hclip & Hl2 & Hnoise & Hl1).
  assert (Hopts : m_additionalOptions (learner w2) = m_additionalOptions (learner w))
    by exact (f_equal snd Hns).
  unfold plain. rewrite Hopts, (noise_stdDev_state w w2) by done. done.
Qed.
End PlainOptions.

Section SGDConstruction.
Context `{Externals}.

(** X18. A [LearnerSGD], once constructed, holds a zero smoothed gradient for
    each of its parameters and for nothing else: of the shape of the
    parameter when it was asked to allocate them, and an empty dummy
    otherwise, so that the dispatch on the element type and the
    checkpoint find a tensor for every parameter. *)
Theorem LearnerSGD_ctor_state parameters schedule options allocate seed l :
  LearnerSGD_ctor parameters schedule options allocate seed = inr l →
  well_formed l ∧ kind l = LearnerSGD ∧ Parameters l = parameters
  ∧ ∀ p, p ∈ parameters →
         m_smoothedGradientValues l !! Uid p
         = Some (AllocateNDArrayView p (if allocate then var_shape p else [])).
Proof.
  intros Hrun. split; [by eapply LearnerSGD_ctor_well_formed|].
  revert Hrun. unfold LearnerSGD_ctor.
  destruct (LearnerBase_ctor _ _ _ _ _ _) as [e|l0] eqn:Hbase; [done|].
  destruct (LearnerBase_ctor_accepts LearnerSGD parameters schedule options
              allocate seed) as [[Hne Hnd] _]; [by eexists|].
  revert Hbase. unfold LearnerBase_ctor.
  rewrite bool_decide_eq_false_2 by done. case_bool_decide; [|done].
  cbn [negb mbind Result_bind]. intros [= <-].
  destruct allocate; cbn [negb]; intros [= <-];
    unfold AllocateDummySmoothedGradients, Parameters;
    cbn [kind m_parameters m_smoothedGradientValues set_smoothedGradientValues].
  - destruct (emplace_loop_lookup (λ p, AllocateNDArrayView p (var_shape p))
                parameters ∅ Hnd) as [Hin _].
    split_and!; [done..|]. intros p Hp. by apply Hin.
  - destruct (emplace_loop_lookup (λ p, AllocateNDArrayView p [])
                parameters ∅ Hnd) as [Hin _].
    split_and!; [done..|]. intros p Hp. by apply Hin.
Qed.
End SGDConstruction.

(** *** The value updates recorded by [Update] *)

Lemma for_each_fold {S A X} (proj : S → X) (f : X → A → X)
    (xs : list A) (body : A → StateExn S unit) :
  (∀ x s s', body x s = (inr tt, s') → proj s' = f (proj s) x) →
  ∀ s s', for_each xs body s = (inr tt, s') → proj s' = foldl f (proj s) xs.
Proof.
  intros Hbody. induction xs as [|x xs IH]; intros s s'.
  { by intros [= <-]. }
  cbn [for_each]. intros ([] & s1 & Hx & Hrest)%bind_returns.
  cbn [foldl]. rewrite <- (Hbody x s s1 Hx). by apply IH.
Qed.

Lemma foldl_cons_reverse {A B} (f : A → B) (xs : list A) (acc : list B) :
  foldl (λ acc x, f x :: acc) acc xs = reverse (f <$> xs) ++ acc.
Proof.
  revert acc. induction xs as [|x xs IH]; intros acc; [done|].
  cbn [foldl]. rewrite IH, fmap_cons, reverse_cons, <- app_assoc. done.
Qed.

Section ValueUpdates.
Context `{Externals}.

Lemma update_each_records n p w w' :
  update_each n p w = (inr tt, w') →
  valueUpdates w' = Uid p :: valueUpdates w.
Proof.
  unfold update_each. intros Hrun.
  apply bind_returns in Hrun as (sg & w1 & Hsg & Hrun).
  assert (w1 = w) as ->.
  { assert (Hp : preserves (λ w, w) (smoothed_of p))
      by (unfold smoothed_of; frame_with done).
    specialize (Hp w). by rewrite Hsg in Hp. }
  apply bind_returns in Hrun as (g & w1 & Hg & Hrun).
  assert (w1 = w) as ->.
  { assert (Hp : preserves (λ w, w) (gradient_of p))
      by (unfold gradient_of; frame_with done).
    specialize (Hp w). by rewrite Hg in Hp. }
  clear sg Hsg g Hg. revert Hrun. unfold DISPATCH_TO_TYPED_UPDATE_FUNCTION.
  intros (sg & w1 & Hsg & Hrun)%bind_returns.
  assert (w1 = w) as ->.
  { assert (Hp : preserves (λ w, w) (smoothed_of p))
      by (unfold smoothed_of; frame_with done).
    specialize (Hp w). by rewrite Hsg in Hp. }
  assert (Htyped : ∀ et, LearnerBase_Update_typed et p n w = (inr tt, w') →
            valueUpdates w' = Uid p :: valueUpdates w).
  { intros et. unfold LearnerBase_Update_typed.
    intros ([] & w1 & Hpre & Hrest)%bind_returns.
    apply bind_returns in Hrest as ([] & w2 & Hupd & Hpost).
    apply bind_returns in Hpost as ([] & w3 & Hpost & Hrec).
    cbv zeta in Hrec. unfold RecordValueUpdate, modify in Hrec.
    injection Hrec as <-. cbn [valueUpdates with_valueUpdates]. f_equal.
    pose proof (PreProcess_preserves valueUpdates (λ _ _ _, eq_refl) et p n w) as H1.
    pose proof (Update_parameter_preserves valueUpdates (λ _ _ _, eq_refl)
                  (λ _ _ _, eq_refl) (λ _ _ _, eq_refl) (λ _ _ _, eq_refl)
                  (λ _ _, eq_refl) p n w1) as H2.
    pose proof (PostProcess_preserves valueUpdates (λ _ _ _, eq_refl)
                  (λ _, eq_refl) et p n w2) as H3.
    rewrite Hpre in H1. rewrite Hupd in H2. rewrite Hpost in H3.
    cbn [snd] in *. congruence. }
  destruct (GetDataType sg); [done|by apply (Htyped Float)|by apply (Htyped Double)].
Qed.

(** X20. [Update] calls [RecordValueUpdate()] on a parameter once the
    typed update of that parameter has returned: a call of a learner
    that is not universal which returns [true] has recorded one value
    update per parameter, in the order of [Parameters()]; a call that
    returns [false] has recorded none, and a universal learner never
    records one. *)
Theorem Update_records_value_updates gradients n sweepEnd w :
  let r := (Update gradients n sweepEnd w).1 in
  let w' := (Update gradients n sweepEnd w).2 in
  (kind (learner w) = LearnerUniversal → valueUpdates w' = valueUpdates w)
  ∧ (r = inr false → valueUpdates w' = valueUpdates w)
  ∧ (kind (learner w) ≠ LearnerUniversal → r = inr true →
     valueUpdates w' = reverse (Uid <$> Parameters (learner w)) ++ valueUpdates w).
Proof.
  cbv zeta.
  pose proof (Update_cases gradients n sweepEnd w) as Hcases. cbv zeta in Hcases.
  set (w0 := with_gradientValues (λ _, gradients) w) in *.
  assert (Hrep : valueUpdates (reported w0) = valueUpdates w).
  { by rewrite (reported_preserves valueUpdates). }
  assert (Huniv : valueUpdates (LearnerUniversal_Update n sweepEnd w0).2
                  = valueUpdates w).
  { rewrite LearnerUniversal_Update_run.
    destruct (_ =? 0)%float; [done|]. destruct (n =? 0); [done|].
    pose proof (preserves_for_each valueUpdates (Parameters (learner w0)) _
                  (λ p, bind_gradient_preserves valueUpdates (learner w0) p
                          (λ _ _, eq_refl) (λ _ _, eq_refl))
                  (reported w0)) as Hloop.
    destruct (for_each _ _ (reported w0)) as [[e|[]] w3]; simpl in *;
      [congruence|].
    destruct (m_update_func _); [|simpl; congruence].
    destruct (Forward _ _); simpl; congruence. }
  assert (Hbase :
    match LearnerBase_Update n sweepEnd w0 with
    | (inr true, w') =>
        valueUpdates w' = reverse (Uid <$> Parameters (learner w)) ++ valueUpdates w
    | (inr false, w') => valueUpdates w' = valueUpdates w
    | _ => True
    end).
  { rewrite LearnerBase_Update_run.
    destruct (_ =? 0)%float; [done|]. destruct (n =? 0); [done|].
    set (w2 := with_learner (UpdateOnMinibatch n) (reported w0)).
    destruct (for_each _ _ w2) as [[e|[]] w3] eqn:Hfor; [done|].
    apply (for_each_fold valueUpdates (λ acc p, Uid p :: acc)) in Hfor;
      [|intros p s s'; apply update_each_records].
    cbn [valueUpdates with_learner]. rewrite Hfor, foldl_cons_reverse.
    by rewrite <- Hrep. }
  destruct Hcases as [[Hu ->]|[Hu ->]].
  - split_and!; [done| |done]. intros _. exact Huniv.
  - split_and!; [done| |].
    + intros Hr. destruct (LearnerBase_Update n sweepEnd w0) as [[e|[]] w'];
        cbn [fst snd] in *; [done|done|done].
    + intros _ Hr. destruct (LearnerBase_Update n sweepEnd w0) as [[e|[]] w'];
        cbn [fst snd] in *; [done|done|done].
Qed.
End ValueUpdates.



Lemma Update_true_had_gradients_witness :
  let w := mkWorld Scenarios.noisy_sgd Scenarios.model2 ∅ [] [] in
  Update Scenarios.gradient2 3 false w
  = (inr true, (Update Scenarios.gradient2 3 false w).2)
  ∧ Forall (λ p, is_Some (Scenarios.gradient2 !! Uid p)) [Examples.W; Scenarios.V].
Proof.
  cbv zeta.
  assert (Hrun : Update Scenarios.gradient2 3 false
                   (mkWorld Scenarios.noisy_sgd Scenarios.model2 ∅ [] [])
                 = (inr true,
                    (Update Scenarios.gradient2 3 false
                       (mkWorld Scenarios.noisy_sgd Scenarios.model2 ∅ [] [])).2)).
  { vm_compute. reflexivity. }
  split; [exact Hrun|].
  destruct (Update_true_had_gradients _ _ _ _ _ Hrun) as (_ & _ & Hall). exact Hall.
Defined.

Lemma Update_advances_seed_witness :
  let w := mkWorld Scenarios.noisy_sgd Scenarios.model2 ∅ [] [] in
  Update Scenarios.gradient2 3 false w
  = (inr true, (Update Scenarios.gradient2 3 false w).2)
  ∧ kind (learner w) ≠ LearnerUniversal
  ∧ m_noiseInjectionSeed (learner (Update Scenarios.gradient2 3 false w).2) = 9.
Proof.
  cbv zeta.
  assert (Hrun : Update Scenarios.gradient2 3 false
                   (mkWorld Scenarios.noisy_sgd Scenarios.model2 ∅ [] [])
                 = (inr true,
                    (Update Scenarios.gradient2 3 false
                       (mkWorld Scenarios.noisy_sgd Scenarios.model2 ∅ [] [])).2)).
  { vm_compute. reflexivity. }
  assert (Hkind : kind (learner (mkWorld Scenarios.noisy_sgd Scenarios.model2 ∅ [] []))
                  ≠ LearnerUniversal) by discriminate.
  split_and!; [exact Hrun|exact Hkind|].
  rewrite (Update_advances_seed _ _ _ _ _ Hrun Hkind). reflexivity.
Defined.

Lemma Update_advances_smoothedCount_witness :
  (LearningRatePerSample (learner (Examples.world Examples.adam)) 3 =? 0)%float = false
  ∧ 3 ≠ 0
  ∧ m_smoothedCount
      (learner (Update Examples.gradient 3 true (Examples.world Examples.adam)).2)
    = 3%float.
Proof.
  assert (Hrate : (LearningRatePerSample (learner (Examples.world Examples.adam)) 3
                   =? 0)%float = false) by reflexivity.
  assert (Hn : 3 ≠ 0) by discriminate.
  split_and!; [exact Hrate|exact Hn|].
  pose proof (Update_advances_smoothedCount Examples.gradient 3 true
                (Examples.world Examples.adam)) as Hcount.
  rewrite (Hcount Hrate Hn). reflexivity.
Defined.

Lemma LearnerUniversal_Update_delegates_witness :
  kind Scenarios.universal = LearnerUniversal
  ∧ gradientValues
      (Update Examples.gradient 3 true (Examples.world Scenarios.universal)).2
    = Examples.gradient.
Proof.
  split; [reflexivity|].
  destruct (LearnerUniversal_Update_delegates Examples.gradient 3 true
              (Examples.world Scenarios.universal) eq_refl) as (Hg & _).
  exact Hg.
Defined.

Lemma ResetLearningRate_fresh_witness :
  keys_representable Examples.halving
  ∧ currentCount Examples.halving (Examples.sgd Examples.frozen) = 0
  ∧ m_learningRateSchedule
      (ResetLearningRate (other_schedule Examples.halving)
         (Examples.sgd Examples.frozen))
    = Examples.halving.
Proof.
  split_and!; [exact halving_keys_representable|reflexivity|].
  exact (ResetLearningRate_fresh Examples.halving (Examples.sgd Examples.frozen)
           halving_keys_representable eq_refl).
Defined.

Lemma checkpoint_survives_Update_witness :
  well_formed Examples.adam
  ∧ 2 ≤ CurrentVersion
  ∧ Deserialize (Serialize (m_learningRateSchedule Examples.adam))
    = inr (m_learningRateSchedule Examples.adam)
  ∧ CreateCheckpoint Examples.adam = inr Scenarios.adam_checkpoint
  ∧ ∃ l', RestoreFromCheckpoint Scenarios.adam_checkpoint
            (learner (Update Examples.gradient 3 true
                        (Examples.world Examples.adam)).2) = (inr tt, l')
          ∧ m_sampleCount l' = 9 ∧ m_smoothedCount l' = 2%float
          ∧ m_sweepCount l' = 2.
Proof.
  assert (Hround : Deserialize (Serialize (m_learningRateSchedule Examples.adam))
                   = inr (m_learningRateSchedule Examples.adam)).
  { vm_compute. reflexivity. }
  assert (Hversion : 2 ≤ CurrentVersion) by reflexivity.
  assert (Hcreate : CreateCheckpoint Examples.adam = inr Scenarios.adam_checkpoint).
  { vm_compute. reflexivity. }
  split_and!; [exact adam_well_formed|exact Hversion|exact Hround|exact Hcreate|].
  destruct (checkpoint_survives_Update Examples.gradient 3 true
              (Examples.world Examples.adam) Scenarios.adam_checkpoint
              adam_well_formed Hversion Hround Hcreate)
    as (l' & Hrun & _ & Hsc & _ & _ & _ & Hcnt & Hsw).
  exists l'. split_and!; [exact Hrun|exact Hsc|exact Hcnt|].
  rewrite Hsw. vm_compute. reflexivity.
Defined.

Lemma RestoreFromCheckpoint_reads_witness :
  Scenarios.padded_checkpoint !! versionKey = Some (DV_SizeT 2)
  ∧ Scenarios.padded_checkpoint !! smoothedGradientsKey
    = Some (DV_Vector (Scenarios.adam_tensors ++ [DV_SizeT 0]))
  ∧ Scenarios.adam_checkpoint !! smoothedGradientsKey
    = Some (DV_Vector Scenarios.adam_tensors)
  ∧ RestoreFromCheckpoint Scenarios.padded_checkpoint Examples.adam
    = RestoreFromCheckpoint Scenarios.adam_checkpoint Examples.adam.
Proof.
  assert (Hv : Scenarios.padded_checkpoint !! versionKey = Some (DV_SizeT 2)).
  { vm_compute. reflexivity. }
  assert (Hvs1 : Scenarios.padded_checkpoint !! smoothedGradientsKey
                 = Some (DV_Vector (Scenarios.adam_tensors ++ [DV_SizeT 0]))).
  { vm_compute. reflexivity. }
  assert (Hvs2 : Scenarios.adam_checkpoint !! smoothedGradientsKey
                 = Some (DV_Vector Scenarios.adam_tensors)).
  { vm_compute. reflexivity. }
  split_and!; [exact Hv|exact Hvs1|exact Hvs2|].
  apply (RestoreFromCheckpoint_reads Scenarios.padded_checkpoint
           Scenarios.adam_checkpoint Examples.adam 2
           (Scenarios.adam_tensors ++ [DV_SizeT 0]) Scenarios.adam_tensors Hv);
    [reflexivity| |exact Hvs1|exact Hvs2|reflexivity].
  intros key Hkey. unfold header_keys in Hkey.
  repeat (apply elem_of_cons in Hkey as [->|Hkey]; [vm_compute; reflexivity|]).
  by apply elem_of_nil in Hkey.
Defined.

Lemma LearnerUniversal_ctor_binds_witness :
  LearnerUniversal_ctor [Examples.W] [Examples.G] Examples.update 7
  = (inr Scenarios.universal, [missing_gradient_warning])
  ∧ m_parameter_gradient_map Scenarios.universal !! "Parameter1" = Some Examples.G.
Proof.
  assert (Hrun : LearnerUniversal_ctor [Examples.W] [Examples.G] Examples.update 7
                 = (inr Scenarios.universal, [missing_gradient_warning])).
  { vm_compute. reflexivity. }
  split; [exact Hrun|].
  destruct (LearnerUniversal_ctor_binds _ _ _ _ _ _ Hrun) as (_ & Hbind & _).
  exact (Hbind 0%nat Examples.W Examples.G eq_refl eq_refl).
Defined.

Lemma LearnerBase_Update_typed_plain_witness :
  let w := mkWorld (Examples.sgd Examples.halving) Examples.model Examples.gradient
                   [] [] in
  plain (learner w)
  ∧ LearnerBase_Update_typed Double Examples.W 3 w
    = (inr tt, with_valueUpdates (cons (Uid Examples.W))
                 (Update_parameter Examples.W 3 w).2)
  ∧ valueUpdates (LearnerBase_Update_typed Double Examples.W 3 w).2
    = [Uid Examples.W].
Proof.
  cbv zeta.
  assert (Hplain : plain (learner (mkWorld (Examples.sgd Examples.halving)
                                     Examples.model Examples.gradient [] []))).
  { split_and!; reflexivity. }
  split; [exact Hplain|].
  rewrite (LearnerBase_Update_typed_plain Double Examples.W 3 _ _ _ Hplain
             eq_refl eq_refl eq_refl eq_refl).
  split; reflexivity.
Defined.

Lemma LearnerSGD_ctor_state_witness :
  LearnerSGD_ctor [Examples.W] Examples.halving DefaultOptions false 7
  = inr (Examples.sgd Examples.halving)
  ∧ m_smoothedGradientValues (Examples.sgd Examples.halving) !! "Parameter1"
    = Some (NDArrayView_zeros Double []).
Proof.
  assert (Hrun : LearnerSGD_ctor [Examples.W] Examples.halving DefaultOptions false 7
                 = inr (Examples.sgd Examples.halving)).
  { vm_compute. reflexivity. }
  split; [exact Hrun|].
  destruct (LearnerSGD_ctor_state _ _ _ _ _ _ Hrun) as (_ & _ & _ & Hstate).
  exact (Hstate Examples.W ltac:(by left)).
Defined.

(** An RMSProp learner on one parameter of two elements, seen as a matrix
    of two rows and one column: three columns of state. *)
Lemma Update_records_value_updates_witness :
  let w := Examples.world (Examples.sgd Examples.halving) in
  kind (learner w) ≠ LearnerUniversal
  ∧ (Update Examples.gradient 3 true w).1 = inr true
  ∧ valueUpdates (Update Examples.gradient 3 true w).2 = [Uid Examples.W].
Proof.
  cbv zeta.
  destruct (Update_records_value_updates Examples.gradient 3 true
              (Examples.world (Examples.sgd Examples.halving)))
    as (_ & _ & Htrue).
  assert (Hkind : kind (learner (Examples.world (Examples.sgd Examples.halving)))
                  ≠ LearnerUniversal) by discriminate.
  assert (Hrun : (Update Examples.gradient 3 true
                    (Examples.world (Examples.sgd Examples.halving))).1 = inr true).
  { vm_compute. reflexivity. }
  split_and!; [exact Hkind|exact Hrun|].
  rewrite (Htrue Hkind Hrun). reflexivity.
Defined.

Example LearnerRMSProp_ctor_example :
  match LearnerRMSProp_ctor Scenarios.rows Scenarios.cols Scenarios.on_CPU
          [Examples.W] Examples.halving 0.5%float 1.5%float 0.5%float 8%float
          0.125%float true DefaultOptions 7 with
  | inr l => m_smoothedGradientValues l !! "Parameter1"
  | inl _ => None
  end
  = Some (mkNDArrayView Double [2; 3] (replicate 6 0%float)).
Proof. vm_compute. reflexivity. Qed.
